(** * Portfolio valuation pipeline (main.py): a shallow embedding

    The script values manually tracked holdings and Solana wallet
    balances in USD, appends the valuations to a historical table and
    reports the total of the latest snapshot.

    Layout of this development:
    - [Dec]: Python's [decimal.Decimal] under the default context
      (28 significant digits, ROUND_HALF_EVEN), finite values only;
    - the external collaborators (quote provider, wallet RPC, wall clock)
      and the tables of the store, gathered in [Env] and [World];
    - a state-and-exception monad in which the functions of main.py are
      written in the order of the source;
    - the schema set-up and the registry, on a store that adds the
      unique constraints to the tables;
    - the wallet normalizer read over arbitrary JSON values, of which the
      typed responses are a part;
    - the properties of the pipeline. *)

From Stdlib Require Import ZArith NArith QArith Qpower List String Bool Lia.
Import ListNotations.

Local Open Scope Z_scope.

(** ** Decimal numbers *)

Module Dec.

(** A finite [Decimal]: sign, coefficient and exponent, the triple that
    [Decimal.as_tuple()] shows.  NaN and the infinities are left out: the
    numbers of the pipeline come from finite quotes, integer balances and
    DECIMAL columns.  The exponent limits of the context (about 10^6) are
    out of reach of such numbers and are not modelled either. *)
Record t : Set := mk { sign : bool; coeff : N; exp : Z }.

(** The precision of the default context. *)
Definition prec : nat := 28.

(** [len(str(n))] for a coefficient. *)
Fixpoint ndigits_aux (fuel : nat) (n : N) : nat :=
  match fuel with
  | O => 1%nat
  | S f => if (n <? 10)%N then 1%nat else S (ndigits_aux f (n / 10)%N)
  end.

Definition ndigits (n : N) : nat := ndigits_aux (N.to_nat (N.log2 n)) n.

Definition pow10 (k : nat) : N := (10 ^ N.of_nat k)%N.

(** ROUND_HALF_EVEN when the last [k] digits of [c] are dropped. *)
Definition round_half_even (c : N) (k : nat) : N :=
  let p := pow10 k in
  let q := (c / p)%N in
  let r := (c mod p)%N in
  match (2 * r ?= p)%N with
  | Lt => q
  | Gt => (q + 1)%N
  | Eq => if N.even q then q else (q + 1)%N
  end.

(** [Decimal._fix]: round to the precision of the context. *)
Definition fix_ (d : t) : t :=
  let n := ndigits (coeff d) in
  if (n <=? prec)%nat then d
  else
    let k := (n - prec)%nat in
    let c := round_half_even (coeff d) k in
    if (ndigits c <=? prec)%nat
    then mk (sign d) c (exp d + Z.of_nat k)
    else mk (sign d) (c / 10)%N (exp d + Z.of_nat k + 1).

(** [Decimal('...')] literals of the source and [Decimal(str(n))] for an
    integer [n]. *)
Definition of_Z (n : Z) : t := mk (n <? 0) (Z.abs_N n) 0.
Definition zero : t := mk false 0 0.            (* Decimal('0')   *)
Definition one_point_zero : t := mk false 10 (-1). (* Decimal('1.0') *)
Definition twenty : t := mk false 20 0.         (* Decimal('20')  *)
Definition e9 : t := mk false 1 9.              (* Decimal('1e9') *)

(** [a * b] *)
Definition mul (a b : t) : t :=
  fix_ (mk (xorb (sign a) (sign b)) (coeff a * coeff b)%N (exp a + exp b)).

(** The loop of [__truediv__] that brings an exact quotient as close to
    the ideal exponent as its trailing zeros allow. *)
Fixpoint strip (steps : nat) (c : N) (e : Z) : N * Z :=
  match steps with
  | O => (c, e)
  | S s => if (c mod 10 =? 0)%N then strip s (c / 10)%N (e + 1) else (c, e)
  end.

(** [a / b]; [None] stands for the DivisionByZero or InvalidOperation
    that the default context raises on a zero divisor. *)
Definition div (a b : t) : option t :=
  let s := xorb (sign a) (sign b) in
  if (coeff b =? 0)%N then None
  else if (coeff a =? 0)%N then Some (fix_ (mk s 0 (exp a - exp b)))
  else
    let shift := Z.of_nat (ndigits (coeff b)) - Z.of_nat (ndigits (coeff a))
                 + Z.of_nat prec + 1 in
    let e := exp a - exp b - shift in
    let num := if 0 <=? shift then (coeff a * 10 ^ Z.to_N shift)%N else coeff a in
    let den := if 0 <=? shift then coeff b else (coeff b * 10 ^ Z.to_N (- shift))%N in
    let q := (num / den)%N in
    let r := (num mod den)%N in
    if (r =? 0)%N then
      let '(c, e') := strip (Z.to_nat (exp a - exp b - e)) q e in
      Some (fix_ (mk s c e'))
    else
      Some (fix_ (mk s (if (q mod 5 =? 0)%N then q + 1 else q)%N e)).

(** The coefficient with its sign, scaled to the exponent [m <= exp d]. *)
Definition scaled (m : Z) (d : t) : Z :=
  (if sign d then -1 else 1) * Z.of_N (coeff d) * 10 ^ (exp d - m).

(** Numeric comparison, as [==], [!=], [<] and [>] do it: by value, not
    by representation. *)
Definition cmp (a b : t) : comparison :=
  let m := Z.min (exp a) (exp b) in
  scaled m a ?= scaled m b.

Definition eqb (a b : t) : bool :=
  match cmp a b with Eq => true | _ => false end.
Definition gtb (a b : t) : bool :=
  match cmp a b with Gt => true | _ => false end.

(** Exact sum, as SQL's SUM over a DECIMAL column computes it. *)
Definition add_exact (a b : t) : t :=
  let m := Z.min (exp a) (exp b) in
  let s := scaled m a + scaled m b in
  mk (s <? 0) (Z.abs_N s) m.

(** The rational a decimal denotes. *)
Definition val (d : t) : Q :=
  inject_Z ((if sign d then -1 else 1) * Z.of_N (coeff d)) * Qpower 10 (exp d).

End Dec.

(** ** Data model *)

Local Open Scope string_scope.
Local Open Scope Z_scope.

(** A quote of the price provider is a Python float; the pipeline reads it
    only through [Decimal(str(price))], so a quote is represented by the
    decimal that [str] prints.  Quotes are finite: a close that is a NaN
    or an infinity is not represented. *)
Definition quote := Dec.t.

(** What one [stock.history(period=...)] attempt yields: an exception, or
    the Close column, oldest first (empty when the frame is empty). *)
Inductive attempt : Set :=
| ProviderError
| History (closes : list quote).

(** The wallet provider's JSON, as the normalizer reads it: every key may
    be missing, and a key that is present holds a value of the kind the
    provider documents.  Other JSON values, null for a key among them,
    are read in the part on responses before typing. *)
Record price_info : Set := { pi_total_price : option Dec.t }.
Record token_info : Set := {
  ti_symbol : option string;
  ti_balance : option Z;
  ti_decimals : option nat;
  ti_price_info : option price_info }.
Record token : Set := { tok_token_info : option token_info }.
Record native_balance : Set := { nb_lamports : option Z }.
Record rpc_result : Set := {
  res_items : option (list token);
  res_nativeBalance : option native_balance }.
(** A response object; [resp_result = None] is an object without the key
    "result" (the empty object among them). *)
Record response : Set := { resp_result : option rpc_result }.

Inductive rpc_method : Set := searchAssets | getAssetsByOwner.

(** The dictionaries built by the normalizer. *)
Record asset : Set := { symbol : string; balance : Dec.t; total_price : Dec.t }.

(** Rows of the tables.  A DECIMAL column holds the decimal that was
    written to it; no column is NULL and no decimal is a NaN. *)
Record holding : Set := {
  h_Platform : string; h_AccountWallet : string; h_AssetType : string;
  h_AssetName : string; h_Ticker : string; h_Amount : Dec.t;
  h_NativeCurrency : string }.

Record tracked : Set := {
  IndexName : string; tr_Ticker : string;
  FromCurrency : string; ToCurrency : string }.

Record rate : Set := { r_Ticker : string; r_Price : Dec.t; r_Timestamp : Z }.

Record valuation : Set := {
  Platform : string; AccountWallet : string; AssetType : string;
  AssetName : string; Ticker : string; Amount : Dec.t;
  NativeCurrency : string; NativePrice : Dec.t; USDPrice : Dec.t;
  TotalNative : Dec.t; TotalUSD : Dec.t; Timestamp : Z }.

Record wallet : Set := { cw_AccountWallet : string; cw_Alias : string; cw_Platform : string }.

(** ** The world *)

Inductive level : Set := INFO | WARNING | ERROR.

Inductive query : Set :=
| QManualHoldings
| QTrackedTickers
| QConversionTicker (currency : string)
| QSolPrice
| QSolanaWallets
| QTotalUSD.

(** What the program does to its surroundings, in order. *)
Inductive event : Set :=
| EvNow
| EvFetch (q : query)
| EvHistory (ticker period : string)
| EvRpc (m : rpc_method) (address : string)
| EvLog (l : level).

(** The collaborators of one run: the quote provider, the wallet provider
    ([None] when the request raises) and the wall clock, whose [k]-th
    reading is [clock k]. *)
Record Env : Type := {
  history : string -> string -> attempt;
  helius : rpc_method -> string -> option response;
  clock : nat -> Z }.

Record World : Type := {
  ManualHoldings : list holding;
  TrackedCurrenciesIndexes : list tracked;
  HistoricalRates : list rate;
  AssetsHistoricalValues : list valuation;
  CryptoWallets : list wallet;
  clock_reads : nat;
  log : list event }.

Definition emit (e : event) (w : World) : World :=
  {| ManualHoldings := ManualHoldings w;
     TrackedCurrenciesIndexes := TrackedCurrenciesIndexes w;
     HistoricalRates := HistoricalRates w;
     AssetsHistoricalValues := AssetsHistoricalValues w;
     CryptoWallets := CryptoWallets w;
     clock_reads := clock_reads w;
     log := log w ++ [e] |}.

Definition tick (w : World) : World :=
  {| ManualHoldings := ManualHoldings w;
     TrackedCurrenciesIndexes := TrackedCurrenciesIndexes w;
     HistoricalRates := HistoricalRates w;
     AssetsHistoricalValues := AssetsHistoricalValues w;
     CryptoWallets := CryptoWallets w;
     clock_reads := S (clock_reads w);
     log := log w |}.

Definition append_valuation (v : valuation) (w : World) : World :=
  {| ManualHoldings := ManualHoldings w;
     TrackedCurrenciesIndexes := TrackedCurrenciesIndexes w;
     HistoricalRates := HistoricalRates w;
     AssetsHistoricalValues := AssetsHistoricalValues w ++ [v];
     CryptoWallets := CryptoWallets w;
     clock_reads := clock_reads w;
     log := log w |}.

Definition append_rate (r : rate) (w : World) : World :=
  {| ManualHoldings := ManualHoldings w;
     TrackedCurrenciesIndexes := TrackedCurrenciesIndexes w;
     HistoricalRates := HistoricalRates w ++ [r];
     AssetsHistoricalValues := AssetsHistoricalValues w;
     CryptoWallets := CryptoWallets w;
     clock_reads := clock_reads w;
     log := log w |}.

(** ** State and exceptions

    A computation threads the world and either returns or raises;
    [None] is an exception that nothing catches. *)
Definition M (A : Type) : Type := World -> option (A * World).

Definition ret {A} (a : A) : M A := fun w => Some (a, w).

Definition bind {A B} (m : M A) (k : A -> M B) : M B :=
  fun w => match m w with
           | Some (a, w') => k a w'
           | None => None
           end.

Definition raise {A} : M A := fun _ => None.

Definition lift {A} (o : option A) : M A :=
  match o with Some a => ret a | None => raise end.

Definition modify (f : World -> World) : M unit := fun w => Some (tt, f w).

Definition gets {A} (f : World -> A) : M A := fun w => Some (f w, w).

Declare Scope m_scope.
Delimit Scope m_scope with m.
Notation "x <- m ;; k" := (bind m (fun x => k))
  (at level 61, m at next level, right associativity) : m_scope.
Notation "m ;; k" := (bind m (fun _ => k))
  (at level 61, right associativity) : m_scope.
Local Open Scope m_scope.

Fixpoint for_each {A} (l : list A) (body : A -> M unit) : M unit :=
  match l with
  | [] => ret tt
  | x :: xs => body x ;; for_each xs body
  end.

Definition logging (l : level) : M unit := modify (emit (EvLog l)).

(** ** The functions of main.py *)

Section Pipeline.

Variable env : Env.

(** *** External calls *)

Definition datetime_now : M Z :=
  fun w => Some (clock env (clock_reads w), emit EvNow (tick w)).

(** [fetch_data]: a SELECT leaves the tables as they are. *)
Definition fetch_data {A} (q : query) (rows : World -> A) : M A :=
  modify (emit (EvFetch q)) ;; gets rows.

(** [yf.Ticker(ticker).history(period=period)] *)
Definition stock_history (ticker period : string) : M attempt :=
  modify (emit (EvHistory ticker period)) ;; ret (history env ticker period).

Definition insert_historical_value (data : valuation) : M unit :=
  modify (append_valuation data).

Definition insert_historical_rate (data : rate) : M unit :=
  modify (append_rate data).

(** *** Price fetching *)

Definition periods : list string := ["1d"; "5d"].

Fixpoint try_periods (ticker : string) (ps : list string) : M (option quote) :=
  match ps with
  | [] => logging ERROR ;; ret None
  | period :: rest =>
      h <- stock_history ticker period ;;
      match h with
      | History (c :: cs) => logging INFO ;; ret (Some (last cs c))
      | History [] => logging WARNING ;; try_periods ticker rest
      | ProviderError => logging ERROR ;; try_periods ticker rest
      end
  end.

Definition get_latest_price (ticker : string) : M (option quote) :=
  try_periods ticker periods.

(** *** Currency conversion *)

Definition conversion_tickers (currency : string) (registry : list tracked)
  : list string :=
  map tr_Ticker
    (filter (fun r => String.eqb (FromCurrency r) currency
                      && String.eqb (ToCurrency r) "USD")
            registry).

Definition get_usd_exchange_rate (currency : string) : M (option Dec.t) :=
  if String.eqb currency "USD" then ret (Some Dec.one_point_zero)
  else
    ticker <- fetch_data (QConversionTicker currency)
                (fun w => conversion_tickers currency (TrackedCurrenciesIndexes w)) ;;
    match ticker with
    | [] => logging WARNING ;; ret None
    | t0 :: _ =>
        price <- get_latest_price t0 ;;
        match price with
        | None => logging ERROR ;; ret None
        | Some p => ret (Some p)
        end
    end.

(** *** Wallets *)

(** [ORDER BY Timestamp DESC LIMIT 1]: a row that no other row is later
    than.  Of several such rows the store may return any; this picks the
    one stored last, and the properties below hold for every choice. *)
Fixpoint latest (rows : list rate) : option rate :=
  match rows with
  | [] => None
  | r :: rs =>
      match latest rs with
      | None => Some r
      | Some r' => if r_Timestamp r' <? r_Timestamp r then Some r else Some r'
      end
  end.

Definition sol_rates (rates : list rate) : list rate :=
  filter (fun r => String.eqb (r_Ticker r) "SOL-USD") rates.

Definition get_sol_price : M Dec.t :=
  result <- fetch_data QSolPrice (fun w => latest (sol_rates (HistoricalRates w))) ;;
  match result with
  | Some r => ret (r_Price r)
  | None => logging WARNING ;; ret Dec.twenty
  end.

(** [SELECT AccountWallet, Alias FROM CryptoWallets WHERE Platform = 'Solana'] *)
Definition solana_wallets (wallets : list wallet) : list (string * string) :=
  map (fun c => (cw_AccountWallet c, cw_Alias c))
      (filter (fun c => String.eqb (cw_Platform c) "Solana") wallets).

Definition fetch_solana_wallets : M (list (string * string)) :=
  fetch_data QSolanaWallets (fun w => solana_wallets (CryptoWallets w)).

Definition fetch_solana_wallet_holdings (m : rpc_method) (wallet_address : string)
  : M (option response) :=
  modify (emit (EvRpc m wallet_address)) ;;
  match helius env m wallet_address with
  | Some r => ret (Some r)
  | None => logging ERROR ;; ret None
  end.

Definition fetch_solana_wallet_holdings_search_assets :=
  fetch_solana_wallet_holdings searchAssets.
Definition fetch_solana_wallet_holdings_get_assets :=
  fetch_solana_wallet_holdings getAssetsByOwner.

(** [d.get(key, default)] on a key that may be missing. *)
Definition get {A} (field : option A) (default : A) : A :=
  match field with Some a => a | None => default end.

(** [result and "result" in result] *)
Definition has_result (result : option response) : option rpc_result :=
  match result with
  | Some r => resp_result r
  | None => None
  end.

Definition no_native_balance : native_balance := {| nb_lamports := None |}.
Definition no_token_info : token_info :=
  {| ti_symbol := None; ti_balance := None; ti_decimals := None;
     ti_price_info := None |}.
Definition no_price_info : price_info := {| pi_total_price := None |}.

Definition get_native_sol_balance (result : option response) : M (option asset) :=
  match has_result result with
  | Some res =>
      let native_balance :=
        Dec.of_Z (get (nb_lamports (get (res_nativeBalance res) no_native_balance)) 0) in
      sol_price <- get_sol_price ;;
      b <- lift (Dec.div native_balance Dec.e9) ;;
      ret (Some {| symbol := "SOL"; balance := b;
                   total_price := Dec.mul b sol_price |})
  | None => ret None
  end.

Definition asset_of_token (tk : token) : option asset :=
  let token_info := get (tok_token_info tk) no_token_info in
  let price_info := get (ti_price_info token_info) no_price_info in
  let symbol := get (ti_symbol token_info) "N/A" in
  let balance := Dec.of_Z (get (ti_balance token_info) 0) in
  let decimals := get (ti_decimals token_info) 0%nat in
  let total_price := get (pi_total_price price_info) (Dec.of_Z 0) in
  match Dec.div balance (Dec.of_Z (10 ^ Z.of_nat decimals)) with
  | Some b => Some {| symbol := symbol; balance := b; total_price := total_price |}
  | None => None
  end.

Fixpoint assets_of_tokens (tokens : list token) : option (list asset) :=
  match tokens with
  | [] => Some []
  | tk :: rest =>
      match asset_of_token tk with
      | Some a =>
          match assets_of_tokens rest with
          | Some l => Some (a :: l)
          | None => None
          end
      | None => None
      end
  end.

Definition get_other_assets (result : option response) : option (list asset) :=
  match has_result result with
  | Some res => assets_of_tokens (get (res_items res) [])
  | None => Some []
  end.

Definition combine_and_filter_assets (native_sol : option asset)
    (other_assets : list asset) : list asset :=
  let all_assets :=
    match native_sol with
    | Some n => ([n] ++ other_assets)%list
    | None => other_assets
    end in
  filter (fun a => Dec.gtb (total_price a) (Dec.of_Z 10)) all_assets.

(** The price of one unit, behind the guard [balance != 0]. *)
Definition unit_price (total_price balance : Dec.t) : option Dec.t :=
  if negb (Dec.eqb balance (Dec.of_Z 0)) then Dec.div total_price balance
  else Some Dec.zero.

Definition wallet_record (wallet_address : string) (current_timestamp : Z)
    (a : asset) : option valuation :=
  let balance := balance a in
  let total_price := total_price a in
  match unit_price total_price balance, unit_price total_price balance with
  | Some native_price, Some usd_price =>
      Some {| Platform := "Solana"; AccountWallet := wallet_address;
              AssetType := "Crypto"; AssetName := symbol a;
              Ticker := symbol a ++ "-USD"; Amount := balance;
              NativeCurrency := "USD"; NativePrice := native_price;
              USDPrice := usd_price; TotalNative := total_price;
              TotalUSD := total_price; Timestamp := current_timestamp |}
  | _, _ => None
  end.

(** [print_combined_results] only writes to the terminal and is left
    out; the two quotients of the tuple are the same expression. *)
Definition process_solana_wallet_holdings (wallet_address alias : string)
    (current_timestamp : Z) : M unit :=
  logging INFO ;;
  get_assets_result <- fetch_solana_wallet_holdings_get_assets wallet_address ;;
  native_sol_balance <- get_native_sol_balance get_assets_result ;;
  search_assets_result <- fetch_solana_wallet_holdings_search_assets wallet_address ;;
  other_assets <- lift (get_other_assets search_assets_result) ;;
  let all_assets := combine_and_filter_assets native_sol_balance other_assets in
  for_each all_assets (fun a =>
    insert_data <- lift (wallet_record wallet_address current_timestamp a) ;;
    insert_historical_value insert_data).

(** *** The run *)

(** The tuple of one manual holding, once its price and its rate are
    known; [Decimal(str(price))] is the quote itself and
    [Decimal(str(amount))] the amount itself. *)
Definition manual_row (h : holding) (native_currency : string) (price : quote)
    (usd_exchange_rate : Dec.t) (current_timestamp : Z) : valuation :=
  let native_price := price in
  let usd_price := Dec.mul native_price usd_exchange_rate in
  let total_native := Dec.mul (h_Amount h) native_price in
  let total_usd := Dec.mul (h_Amount h) usd_price in
  {| Platform := h_Platform h; AccountWallet := h_AccountWallet h;
     AssetType := h_AssetType h; AssetName := h_AssetName h;
     Ticker := h_Ticker h; Amount := h_Amount h;
     NativeCurrency := native_currency; NativePrice := native_price;
     USDPrice := usd_price; TotalNative := total_native;
     TotalUSD := total_usd; Timestamp := current_timestamp |}.

(** The body of the loop over the manual holdings. *)
Definition value_holding (current_timestamp : Z) (h : holding) : M unit :=
  price <- get_latest_price (h_Ticker h) ;;
  match price with
  | Some price =>
      rate_and_currency <-
        (if String.eqb (h_Platform h) "Solana"
         then ret (Some Dec.one_point_zero, "USD")
         else usd_exchange_rate <- get_usd_exchange_rate (h_NativeCurrency h) ;;
              ret (usd_exchange_rate, h_NativeCurrency h)) ;;
      match rate_and_currency with
      | (None, _) => logging WARNING
      | (Some usd_exchange_rate, native_currency) =>
          insert_historical_value
            (manual_row h native_currency price usd_exchange_rate current_timestamp)
      end
  | None => logging WARNING
  end.

(** The body of the loop over the tracked instruments. *)
Definition record_rate (current_timestamp : Z) (ticker : string) : M unit :=
  price <- get_latest_price ticker ;;
  match price with
  | Some price =>
      insert_historical_rate
        {| r_Ticker := ticker; r_Price := price; r_Timestamp := current_timestamp |}
  | None => logging WARNING
  end.

Definition update_holdings_and_rates : M unit :=
  current_timestamp <- datetime_now ;;
  holdings <- fetch_data QManualHoldings ManualHoldings ;;
  tracked_items <- fetch_data QTrackedTickers
                     (fun w => map tr_Ticker (TrackedCurrenciesIndexes w)) ;;
  for_each holdings (value_holding current_timestamp) ;;
  for_each tracked_items (record_rate current_timestamp) ;;
  solana_wallets <- fetch_solana_wallets ;;
  for_each solana_wallets (fun '(wallet_address, alias) =>
    process_solana_wallet_holdings wallet_address alias current_timestamp).

(** *** The total of the latest snapshot *)

(** [SELECT MAX(Timestamp)]; NULL on an empty table. *)
Fixpoint max_timestamp (rows : list valuation) : option Z :=
  match rows with
  | [] => None
  | v :: vs =>
      match max_timestamp vs with
      | None => Some (Timestamp v)
      | Some m => Some (Z.max (Timestamp v) m)
      end
  end.

(** [SUM] over a column; NULL when there is no row. *)
Fixpoint sql_sum (xs : list Dec.t) : option Dec.t :=
  match xs with
  | [] => None
  | x :: rest =>
      match sql_sum rest with
      | None => Some x
      | Some s => Some (Dec.add_exact x s)
      end
  end.

Definition latest_snapshot (rows : list valuation) : list valuation :=
  match max_timestamp rows with
  | Some m => filter (fun v => Timestamp v =? m) rows
  | None => []
  end.

Definition sum_total_usd (w : World) : option Dec.t :=
  sql_sum (map TotalUSD (latest_snapshot (AssetsHistoricalValues w))).

(** A decimal is true when it is not zero. *)
Definition truthy (d : Dec.t) : bool := negb (Dec.coeff d =? 0)%N.

Definition calculate_total_usd_value : M Dec.t :=
  result <- fetch_data QTotalUSD sum_total_usd ;;
  match result with
  | Some s =>
      if truthy s then logging INFO ;; ret s
      else logging WARNING ;; ret Dec.zero
  | None => logging WARNING ;; ret Dec.zero
  end.

End Pipeline.

(** ** What the effectful functions compute

    The results of the functions above as functions of the provider and
    of the tables; the lemmas of the next part show that the code returns
    them. *)

Section Results.

Variable env : Env.

Fixpoint first_close (ticker : string) (ps : list string) : option quote :=
  match ps with
  | [] => None
  | period :: rest =>
      match history env ticker period with
      | History (c :: cs) => Some (last cs c)
      | _ => first_close ticker rest
      end
  end.

Definition latest_price (ticker : string) : option quote :=
  first_close ticker periods.

Definition usd_rate (registry : list tracked) (currency : string) : option Dec.t :=
  if String.eqb currency "USD" then Some Dec.one_point_zero
  else match conversion_tickers currency registry with
       | [] => None
       | t0 :: _ => latest_price t0
       end.

(** The rows the loop over the manual holdings writes for one holding. *)
Definition manual_rows (registry : list tracked) (ts : Z) (h : holding)
  : list valuation :=
  match latest_price (h_Ticker h) with
  | Some price =>
      if String.eqb (h_Platform h) "Solana"
      then [manual_row h "USD" price Dec.one_point_zero ts]
      else match usd_rate registry (h_NativeCurrency h) with
           | Some r => [manual_row h (h_NativeCurrency h) price r ts]
           | None => []
           end
  | None => []
  end.

Definition rate_rows (ts : Z) (ticker : string) : list rate :=
  match latest_price ticker with
  | Some price => [{| r_Ticker := ticker; r_Price := price; r_Timestamp := ts |}]
  | None => []
  end.

Definition sol_price (rates : list rate) : Dec.t :=
  match latest (sol_rates rates) with
  | Some r => r_Price r
  | None => Dec.twenty
  end.

Definition native_sol (rates : list rate) (result : option response)
  : option asset :=
  match has_result result with
  | Some res =>
      match Dec.div (Dec.of_Z (get (nb_lamports (get (res_nativeBalance res)
                                                     no_native_balance)) 0))
                    Dec.e9 with
      | Some b => Some {| symbol := "SOL"; balance := b;
                          total_price := Dec.mul b (sol_price rates) |}
      | None => None
      end
  | None => None
  end.

Definition or_nil {A} (o : option (list A)) : list A :=
  match o with Some l => l | None => [] end.

Definition opt_list {A} (o : option A) : list A :=
  match o with Some a => [a] | None => [] end.

(** The assets of one wallet after the dust filter. *)
Definition wallet_assets (rates : list rate) (wallet_address : string)
  : list asset :=
  combine_and_filter_assets
    (native_sol rates (helius env getAssetsByOwner wallet_address))
    (or_nil (get_other_assets (helius env searchAssets wallet_address))).

Definition wallet_rows (rates : list rate) (ts : Z) (wa : string * string)
  : list valuation :=
  flat_map (fun a => opt_list (wallet_record (fst wa) ts a))
           (wallet_assets rates (fst wa)).

End Results.

(** The registry has no instrument from the currency to USD. *)
Definition no_instrument (currency : string) (registry : list tracked) : Prop :=
  forall row, In row registry ->
              ~ (FromCurrency row = currency /\ ToCurrency row = "USD").





(** The list the dust filter is applied to. *)
Definition all_assets (native_sol : option asset) (other_assets : list asset)
  : list asset :=
  match native_sol with
  | Some n => n :: other_assets
  | None => other_assets
  end.

(** Sum of rationals. *)
Definition Qsum (l : list Q) : Q := fold_right Qplus 0%Q l.

(** [m] is the latest timestamp of the table. *)
Definition is_max_timestamp (m : Z) (rows : list valuation) : Prop :=
  (exists v, In v rows /\ Timestamp v = m) /\
  (forall v, In v rows -> Timestamp v <= m).

(** ** Frames

    [step vs rs w w']: from [w] to [w'] the rows [vs] were appended to
    AssetsHistoricalValues and [rs] to HistoricalRates, the other tables
    are as they were, the clock was not read and the trace grew by
    events other than clock readings. *)
Definition step (vs : list valuation) (rs : list rate) (w w' : World) : Prop :=
  ManualHoldings w' = ManualHoldings w /\
  TrackedCurrenciesIndexes w' = TrackedCurrenciesIndexes w /\
  CryptoWallets w' = CryptoWallets w /\
  clock_reads w' = clock_reads w /\
  AssetsHistoricalValues w' = (AssetsHistoricalValues w ++ vs)%list /\
  HistoricalRates w' = (HistoricalRates w ++ rs)%list /\
  exists evs, log w' = (log w ++ evs)%list /\ ~ In EvNow evs.

(** Nothing was written and the clock was not read. *)
Definition same_store (w w' : World) : Prop :=
  ManualHoldings w' = ManualHoldings w /\
  TrackedCurrenciesIndexes w' = TrackedCurrenciesIndexes w /\
  HistoricalRates w' = HistoricalRates w /\
  AssetsHistoricalValues w' = AssetsHistoricalValues w /\
  CryptoWallets w' = CryptoWallets w /\
  clock_reads w' = clock_reads w.

Definition is_history (e : event) : bool :=
  match e with EvHistory _ _ => true | _ => false end.

(** The calls to the quote provider among some events. *)
Definition history_calls (evs : list event) : list event := filter is_history evs.

(** *** Windows of the price resolver *)

(** The latest close of a frame, if it has one. *)
Definition most_recent (closes : list quote) : option quote :=
  match closes with
  | [] => None
  | c :: cs => Some (last cs c)
  end.

Definition window_fails (env : Env) (ticker period : string) : Prop :=
  history env ticker period = ProviderError \/
  history env ticker period = History [].

Definition window_yields (env : Env) (ticker period : string) (c : quote) : Prop :=
  exists closes,
    history env ticker period = History closes /\ most_recent closes = Some c.

(** [runs m w a vs rs]: started in [w], [m] returns [a] (it does not
    raise) after appending [vs] and [rs]. *)
Definition runs {A} (m : M A) (w : World) (a : A)
    (vs : list valuation) (rs : list rate) : Prop :=
  exists w', m w = Some (a, w') /\ step vs rs w w'.

(** The rows of one run, from the tables and the providers at its start. *)
Definition run_rates (env : Env) (w : World) (ts : Z) : list rate :=
  flat_map (rate_rows env ts) (map tr_Ticker (TrackedCurrenciesIndexes w)).

Definition run_manual (env : Env) (w : World) (ts : Z) : list valuation :=
  flat_map (manual_rows env (TrackedCurrenciesIndexes w) ts) (ManualHoldings w).

Definition run_wallets (env : Env) (w : World) (ts : Z) : list valuation :=
  flat_map (wallet_rows env (HistoricalRates w ++ run_rates env w ts)%list ts)
           (solana_wallets (CryptoWallets w)).

(** ** A sample run

    A provider, a wallet service and tables on which the statements of
    the next part are evaluated. *)

Module Sample.

Definition d (coefficient : N) (exponent : Z) : Dec.t :=
  Dec.mk false coefficient exponent.

Definition sample_history (ticker period : string) : attempt :=
  if String.eqb ticker "AAPL" then History [d 1880 (-1); d 1895 (-1)]
  else if String.eqb ticker "SAP.DE" then History [d 1898699951171875 (-13)]
  else if String.eqb ticker "EURUSD=X" then History [d 10834200382232666 (-16)]
  else if String.eqb ticker "ERIC-B.ST" then
    (if String.eqb period "1d" then ProviderError else History [d 621 (-1)])
  else if String.eqb ticker "SEKUSD=X" then
    (if String.eqb period "1d" then History [] else History [d 95 (-3)])
  else if String.eqb ticker "SOL-USD" then History [d 195 (-1); d 200 (-1)]
  else if String.eqb ticker "JUP-USD" then History []
  else ProviderError.

Definition tok (sym : string) (bal : option Z) (dec : option nat)
    (total : option Dec.t) : token :=
  {| tok_token_info :=
       Some {| ti_symbol := Some sym; ti_balance := bal; ti_decimals := dec;
               ti_price_info :=
                 match total with
                 | Some t0 => Some {| pi_total_price := Some t0 |}
                 | None => None
                 end |} |}.

Definition sample_tokens : list token :=
  [ tok "USDC" (Some 50000000) (Some 6%nat) (Some (d 500 (-1)));
    tok "DUST" (Some 3) (Some 0%nat) (Some (d 1 (-2)));
    tok "TEN" (Some 10000000) (Some 6%nat) (Some (d 10 0));
    tok "ODD" None None (Some (d 12 0)) ].

Definition native_response (lamports : Z) : response :=
  {| resp_result :=
       Some {| res_items := None;
               res_nativeBalance := Some {| nb_lamports := Some lamports |} |} |}.

Definition search_response : response :=
  {| resp_result :=
       Some {| res_items := Some sample_tokens; res_nativeBalance := None |} |}.

Definition sample_helius (m : rpc_method) (address : string) : option response :=
  match m with
  | getAssetsByOwner =>
      if String.eqb address "Wallet1" then Some (native_response 1500000000)
      else None
  | searchAssets =>
      if String.eqb address "Wallet1" then Some search_response
      else if String.eqb address "Wallet2" then Some search_response
      else None
  end.

Definition env : Env :=
  {| history := sample_history;
     helius := sample_helius;
     clock := fun k => 1700000000 + Z.of_nat k |}.

Definition manual (platform ticker : string) (amount : Z) (currency : string)
  : holding :=
  {| h_Platform := platform; h_AccountWallet := "account"; h_AssetType := "Stock";
     h_AssetName := ticker; h_Ticker := ticker; h_Amount := Dec.of_Z amount;
     h_NativeCurrency := currency |}.

Definition aapl : holding := manual "Nordnet" "AAPL" 10 "USD".
Definition sap : holding := manual "Nordnet" "SAP.DE" 5 "EUR".
Definition eric : holding := manual "Nordnet" "ERIC-B.ST" 100 "SEK".
Definition sol : holding := manual "Solana" "SOL-USD" 2 "SOL".
Definition jup : holding := manual "Solana" "JUP-USD" 7 "JUP".
Definition krone : holding := manual "Nordnet" "AAPL" 1 "DKK".

Definition instrument (name ticker from to : string) : tracked :=
  {| IndexName := name; tr_Ticker := ticker; FromCurrency := from; ToCurrency := to |}.

(** The registry that [insert_tracked_items] writes. *)
Definition items : list tracked :=
  [ instrument "USD/NOK" "NOK=X" "USD" "NOK";
    instrument "EUR/USD" "EURUSD=X" "EUR" "USD";
    instrument "SEK/USD" "SEKUSD=X" "SEK" "USD";
    instrument "BTC" "BTC-USD" "BTC" "USD";
    instrument "ETH" "ETH-USD" "ETH" "USD";
    instrument "SOL" "SOL-USD" "SOL" "USD";
    instrument "NASDAQ Composite" "^IXIC" "NASDAQ" "USD" ].

Definition row (total : Dec.t) (ts : Z) : valuation :=
  {| Platform := "Nordnet"; AccountWallet := "account"; AssetType := "Stock";
     AssetName := "x"; Ticker := "x"; Amount := Dec.of_Z 1;
     NativeCurrency := "USD"; NativePrice := total; USDPrice := total;
     TotalNative := total; TotalUSD := total; Timestamp := ts |}.

Definition world_of (holdings : list holding) (rates : list rate)
    (values : list valuation) : World :=
  {| ManualHoldings := holdings;
     TrackedCurrenciesIndexes := items;
     HistoricalRates := rates;
     AssetsHistoricalValues := values;
     CryptoWallets :=
       [ {| cw_AccountWallet := "Wallet1"; cw_Alias := "main"; cw_Platform := "Solana" |};
         {| cw_AccountWallet := "0xabc"; cw_Alias := "eth"; cw_Platform := "Ethereum" |} ];
     clock_reads := 0;
     log := [] |}.

(** The assets of "Wallet1" before the dust filter. *)
Definition native : asset :=
  {| symbol := "SOL"; balance := d 1500000000 (-9); total_price := d 300000000000 (-10) |}.
Definition usdc : asset :=
  {| symbol := "USDC"; balance := d 50 0; total_price := d 500 (-1) |}.
Definition dust : asset :=
  {| symbol := "DUST"; balance := d 3 0; total_price := d 1 (-2) |}.
Definition ten : asset :=
  {| symbol := "TEN"; balance := d 10 0; total_price := d 10 0 |}.
Definition odd : asset :=
  {| symbol := "ODD"; balance := d 0 0; total_price := d 12 0 |}.

(** The tables before a first run. *)
Definition world : World := world_of [aapl; sap; eric; sol; jup; krone] [] [].

(** One holding in euros. *)
Definition euro_world : World := world_of [sap] [] [].

(** Two observations of SOL-USD, the later one at 20. *)
Definition rated_world : World :=
  world_of []
    [ {| r_Ticker := "SOL-USD"; r_Price := d 195 (-1); r_Timestamp := 5 |};
      {| r_Ticker := "SOL-USD"; r_Price := d 200 (-1); r_Timestamp := 9 |};
      {| r_Ticker := "BTC-USD"; r_Price := d 43000 0; r_Timestamp := 9 |} ]
    [].

(** Two snapshots: 100 at time 1, 150 at time 2. *)
Definition snapshot_world : World :=
  world_of [] []
    [ row (d 60 0) 1; row (d 40 0) 1; row (d 1005 (-1)) 2; row (d 495 (-1)) 2 ].

End Sample.

(** ** Further notions *)

(** The resolver finds a price for the ticker. *)
Definition resolves (env : Env) (ticker : string) : bool :=
  match latest_price env ticker with Some _ => true | None => false end.

(** The events of a kind among some events, and what a computation adds
    to them: [adds sel m w cs] when every return of [m] from [w] extends
    the trace by events whose [sel]-events are [cs]. *)
Definition adds {A} (sel : event -> bool) (m : M A) (w : World)
    (cs : list event) : Prop :=
  forall a w', m w = Some (a, w') ->
               exists evs, log w' = (log w ++ evs)%list /\ filter sel evs = cs.



(** The quote requests of one pass of the resolver. *)
Fixpoint resolver_requests (env : Env) (ticker : string) (ps : list string)
  : list event :=
  match ps with
  | [] => []
  | period :: rest =>
      EvHistory ticker period ::
      match history env ticker period with
      | History (_ :: _) => []
      | _ => resolver_requests env ticker rest
      end
  end.

(** The quote requests made for one manual holding: for its ticker and,
    when that has a price and the platform is not Solana, for the first
    conversion instrument of its currency. *)
Definition holding_requests (env : Env) (registry : list tracked) (h : holding)
  : list event :=
  (resolver_requests env (h_Ticker h) periods ++
   match latest_price env (h_Ticker h) with
   | Some _ =>
       if String.eqb (h_Platform h) "Solana" then []
       else if String.eqb (h_NativeCurrency h) "USD" then []
       else match conversion_tickers (h_NativeCurrency h) registry with
            | [] => []
            | t0 :: _ => resolver_requests env t0 periods
            end
   | None => []
   end)%list.

(** ** Schema set-up and the registry of tracked items

    [setup_database], [ensure_unique_constraint], [upsert_data],
    [insert_tracked_items] and [main].  The five tables exist (a
    [CREATE TABLE IF NOT EXISTS] finds its table), so what set-up changes is
    the registry and the UNIQUE constraints on it.  A row of the registry
    keeps its place in the list when it is updated; the properties below
    are about which rows the table holds, not about where.  The order of
    the list is the order of the ctids.  The columns hold strings, none is
    NULL.  Of set-up the trace records the log lines, not the statements. *)

(** The columns of TrackedCurrenciesIndexes that the script names. *)
Inductive column : Set :=
| ColIndexName
| ColTicker
| ColFromCurrency
| ColToCurrency.

Definition column_name (c : column) : string :=
  match c with
  | ColIndexName => "IndexName"
  | ColTicker => "Ticker"
  | ColFromCurrency => "FromCurrency"
  | ColToCurrency => "ToCurrency"
  end.

Definition column_value (c : column) (r : tracked) : string :=
  match c with
  | ColIndexName => IndexName r
  | ColTicker => tr_Ticker r
  | ColFromCurrency => FromCurrency r
  | ColToCurrency => ToCurrency r
  end.

Definition set_column (c : column) (v : string) (r : tracked) : tracked :=
  match c with
  | ColIndexName =>
      {| IndexName := v; tr_Ticker := tr_Ticker r;
         FromCurrency := FromCurrency r; ToCurrency := ToCurrency r |}
  | ColTicker =>
      {| IndexName := IndexName r; tr_Ticker := v;
         FromCurrency := FromCurrency r; ToCurrency := ToCurrency r |}
  | ColFromCurrency =>
      {| IndexName := IndexName r; tr_Ticker := tr_Ticker r;
         FromCurrency := v; ToCurrency := ToCurrency r |}
  | ColToCurrency =>
      {| IndexName := IndexName r; tr_Ticker := tr_Ticker r;
         FromCurrency := FromCurrency r; ToCurrency := v |}
  end.

Definition column_eqb (a b : column) : bool :=
  match a, b with
  | ColIndexName, ColIndexName | ColTicker, ColTicker
  | ColFromCurrency, ColFromCurrency | ColToCurrency, ColToCurrency => true
  | _, _ => false
  end.

(** [str.lower] on the letters A to Z. *)
Definition lower_ascii (c : Ascii.ascii) : Ascii.ascii :=
  let n := Ascii.nat_of_ascii c in
  if ((65 <=? n) && (n <=? 90))%nat then Ascii.ascii_of_nat (n + 32) else c.

Fixpoint lower (s : string) : string :=
  match s with
  | EmptyString => EmptyString
  | String c rest => String (lower_ascii c) (lower rest)
  end.

(** The tables together with the UNIQUE constraints of the registry, each
    with its name and its column. *)
Record Store : Type := { st_world : World; st_unique : list (string * column) }.

Definition registry (st : Store) : list tracked :=
  TrackedCurrenciesIndexes (st_world st).

Definition set_registry (rows : list tracked) (w : World) : World :=
  {| ManualHoldings := ManualHoldings w;
     TrackedCurrenciesIndexes := rows;
     HistoricalRates := HistoricalRates w;
     AssetsHistoricalValues := AssetsHistoricalValues w;
     CryptoWallets := CryptoWallets w;
     clock_reads := clock_reads w;
     log := log w |}.

(** Computations on the store. *)
Definition MS (A : Type) : Type := Store -> option (A * Store).

Definition ret_s {A} (a : A) : MS A := fun st => Some (a, st).

Definition bind_s {A B} (m : MS A) (k : A -> MS B) : MS B :=
  fun st => match m st with
            | Some (a, st') => k a st'
            | None => None
            end.

(** A computation on the tables, run on the store. *)
Definition on_world {A} (m : M A) : MS A :=
  fun st => match m (st_world st) with
            | Some (a, w') => Some (a, {| st_world := w'; st_unique := st_unique st |})
            | None => None
            end.

Notation "x <~ m ;; k" := (bind_s m (fun x => k))
  (at level 61, m at next level, right associativity) : m_scope.
Notation "m ;;; k" := (bind_s m (fun _ => k))
  (at level 61, right associativity) : m_scope.

Fixpoint for_each_s {A} (l : list A) (body : A -> MS unit) : MS unit :=
  match l with
  | [] => ret_s tt
  | x :: xs => body x ;;; for_each_s xs body
  end.

(** *** Unique constraints *)

Fixpoint nodupb (l : list string) : bool :=
  match l with
  | [] => true
  | x :: xs => negb (existsb (String.eqb x) xs) && nodupb xs
  end.

(** [SELECT constraint_name FROM information_schema.table_constraints ...] *)
Definition constraint_exists (constraint_name : string) (st : Store) : bool :=
  existsb (fun c => String.eqb (fst c) constraint_name) (st_unique st).

(** [ALTER TABLE ... ADD CONSTRAINT ... UNIQUE (...)]: [false] stands for
    the UniqueViolation raised when the column holds a value twice. *)
Definition add_unique_constraint (constraint_name : string) (col : column)
  : MS bool :=
  fun st =>
    if nodupb (map (column_value col) (registry st))
    then Some (true, {| st_world := st_world st;
                        st_unique := (st_unique st ++ [(constraint_name, col)])%list |})
    else Some (false, st).

(** The place of the first row with the key: its least ctid. *)
Fixpoint first_index (k : string) (keys : list string) : nat :=
  match keys with
  | [] => O
  | x :: xs => if String.eqb x k then O else S (first_index k xs)
  end.

(** The DELETE of the clean-up: of the rows whose key occurs more than
    once, all but the one with the least ctid go. *)
Definition delete_duplicates (col : column) (rows : list tracked) : list tracked :=
  let keys := map (column_value col) rows in
  map snd
    (filter (fun a : nat * tracked =>
               let k := column_value col (snd a) in
               negb ((1 <? count_occ string_dec keys k)%nat
                     && negb (fst a =? first_index k keys)%nat))
            (combine (seq 0 (List.length rows)) rows)).

Definition ensure_unique_constraint (col : column) : MS unit :=
  let constraint_name := "unique_" ++ lower (column_name col) in
  fun st =>
    if negb (constraint_exists constraint_name st) then
      (added <~ add_unique_constraint constraint_name col ;;
       if added then on_world (logging INFO)
       else
         on_world (logging WARNING) ;;;
         on_world (modify (fun w =>
           set_registry (delete_duplicates col (TrackedCurrenciesIndexes w)) w)) ;;;
         added_now <~ add_unique_constraint constraint_name col ;;
         if added_now then on_world (logging INFO)
         else (fun _ => None)) st
    else on_world (logging INFO) st.

(** [create_table]: the table is there, the statement changes nothing. *)
Definition create_table (table_name : string) : MS unit :=
  on_world (logging INFO).

Definition setup_database : MS unit :=
  create_table "AssetsHistoricalValues" ;;;
  create_table "TrackedCurrenciesIndexes" ;;;
  create_table "HistoricalRates" ;;;
  ensure_unique_constraint ColTicker.

(** *** Upserts *)

(** The columns of the one call of [upsert_data],
    "IndexName, Ticker, FromCurrency, ToCurrency" split at ", ". *)
Definition columns : list column :=
  [ColIndexName; ColTicker; ColFromCurrency; ColToCurrency].

(** [DO UPDATE SET col = EXCLUDED.col] for the columns of the update set. *)
Definition do_update (update_set : list column) (excluded existing : tracked)
  : tracked :=
  fold_right (fun col r => set_column col (column_value col excluded) r)
             existing update_set.

(** [INSERT ... ON CONFLICT (conflict_column) DO UPDATE SET ...].  The
    statement needs a unique constraint on the conflict column, and its
    outcome must respect every unique constraint of the table; otherwise
    it raises. *)
Definition upsert_data (values : tracked) (conflict_column : column) : MS unit :=
  let update_set :=
    filter (fun col => negb (column_eqb col conflict_column)) columns in
  fun st =>
    if existsb (fun c => column_eqb (snd c) conflict_column) (st_unique st) then
      let key := column_value conflict_column values in
      let conflicts r := String.eqb (column_value conflict_column r) key in
      let rows :=
        if existsb conflicts (registry st)
        then map (fun r => if conflicts r then do_update update_set values r else r)
                 (registry st)
        else (registry st ++ [values])%list in
      if forallb (fun c => nodupb (map (column_value (snd c)) rows)) (st_unique st)
      then Some (tt, {| st_world := set_registry rows (st_world st);
                        st_unique := st_unique st |})
      else None
    else None.

Definition item (name ticker from to : string) : tracked :=
  {| IndexName := name; tr_Ticker := ticker; FromCurrency := from; ToCurrency := to |}.

Definition items : list tracked :=
  [ item "USD/NOK" "NOK=X" "USD" "NOK";
    item "EUR/USD" "EURUSD=X" "EUR" "USD";
    item "SEK/USD" "SEKUSD=X" "SEK" "USD";
    item "BTC" "BTC-USD" "BTC" "USD";
    item "ETH" "ETH-USD" "ETH" "USD";
    item "SOL" "SOL-USD" "SOL" "USD";
    item "NASDAQ Composite" "^IXIC" "NASDAQ" "USD" ].

Definition insert_tracked_items : MS unit :=
  for_each_s items (fun it => upsert_data it ColTicker) ;;;
  on_world (logging INFO).

(** [main]; the line it prints is left out and the total is returned. *)
Definition main (env : Env) : MS Dec.t :=
  setup_database ;;;
  insert_tracked_items ;;;
  on_world (update_holdings_and_rates env) ;;;
  total_usd_value <~ on_world calculate_total_usd_value ;;
  ret_s total_usd_value.

(** The rows that the clean-up leaves: those whose key no earlier row
    has. *)
Fixpoint keep_first (col : column) (seen : list string) (rows : list tracked)
  : list tracked :=
  match rows with
  | [] => []
  | r :: rs =>
      ((if existsb (String.eqb (column_value col r)) seen then [] else [r])
       ++ keep_first col (seen ++ [column_value col r]) rs)%list
  end.

(** Every unique constraint holds in the registry. *)
Definition consistent (st : Store) : Prop :=
  forall c, In c (st_unique st) -> NoDup (map (column_value (snd c)) (registry st)).

(** Every unique constraint is on the ticker, as those of the script are. *)
Definition ticker_constraints (st : Store) : Prop :=
  forall c, In c (st_unique st) -> snd c = ColTicker.

(** The new row would repeat, in a constrained column, the value of a row
    of another ticker. *)
Definition clash (values : tracked) (st : Store) : Prop :=
  exists c r,
    In c (st_unique st) /\ In r (registry st) /\
    tr_Ticker r <> tr_Ticker values /\
    column_value (snd c) r = column_value (snd c) values.

(** Only the registry and the trace may differ. *)
Definition only_registry (w w' : World) : Prop :=
  ManualHoldings w' = ManualHoldings w /\
  HistoricalRates w' = HistoricalRates w /\
  AssetsHistoricalValues w' = AssetsHistoricalValues w /\
  CryptoWallets w' = CryptoWallets w /\
  clock_reads w' = clock_reads w.

(** The rows after an upsert on the ticker. *)
Definition upserted (values : tracked) (rows : list tracked) : list tracked :=
  if existsb (fun r => String.eqb (tr_Ticker r) (tr_Ticker values)) rows
  then map (fun r => if String.eqb (tr_Ticker r) (tr_Ticker values)
                     then values else r) rows
  else (rows ++ [values])%list.

(** The registry after the upserts of a list of rows, one after the
    other. *)
Definition upserted_all (l : list tracked) (rows : list tracked) : list tracked :=
  fold_left (fun acc it => upserted it acc) l rows.

(** The currencies for which the items of the script hold an instrument
    to USD. *)
Definition convertible : list string :=
  ["EUR"; "SEK"; "BTC"; "ETH"; "SOL"; "NASDAQ"].

(** ** Further sample data *)

Module Cases.

(** A token without price information. *)
Definition unpriced : token := Sample.tok "JUP" (Some 5) (Some 0%nat) None.

Definition unpriced_asset : asset :=
  {| symbol := "JUP"; balance := Sample.d 5 0; total_price := Dec.of_Z 0 |}.

(** The tables a computation leaves, [w] if it raises. *)
Definition after {A} (m : M A) (w : World) : World :=
  match m w with
  | Some (_, w') => w'
  | None => w
  end.

(** The tables after a run on the two snapshots. *)
Definition second_run : World :=
  after (update_holdings_and_rates Sample.env) Sample.snapshot_world.

(** No quote and no wallet answer. *)
Definition outage : Env :=
  {| history := fun _ _ => ProviderError;
     helius := fun _ _ => None;
     clock := fun k => 1700000000 + Z.of_nat k |}.

(** A snapshot whose totals cancel: 5 and -5 at time 3. *)
Definition cancelling : World :=
  Sample.world_of [] []
    [ Sample.row (Sample.d 60 0) 1;
      Sample.row (Sample.d 5 0) 3; Sample.row (Dec.mk true 5 0) 3 ].

(** A registry with the ticker SOL-USD twice, under a constraint on the
    name. *)
Definition old_sol : tracked := item "Solana" "SOL-USD" "SOL" "EUR".
Definition bitcoin : tracked := item "BTC" "BTC-USD" "BTC" "USD".
Definition new_sol : tracked := item "SOL" "SOL-USD" "SOL" "USD".

Definition duplicates : Store :=
  {| st_world := set_registry [old_sol; bitcoin; new_sol] Sample.world;
     st_unique := [("unique_indexname", ColIndexName)] |}.

(** A registry as the table's schema leaves it: distinct tickers under
    the constraint of the column. *)
Definition keyed : Store :=
  {| st_world := set_registry [old_sol; bitcoin] Sample.world;
     st_unique := [("trackedcurrenciesindexes_ticker_key", ColTicker)] |}.

(** The same registry with a second constraint, on the name, and a row
    that takes the name of another ticker's row. *)
Definition named : Store :=
  {| st_world := set_registry [old_sol; bitcoin] Sample.world;
     st_unique := [("trackedcurrenciesindexes_ticker_key", ColTicker);
                   ("unique_indexname", ColIndexName)] |}.

Definition misnamed : tracked := item "BTC" "SOL-USD" "SOL" "USD".

(** An empty registry. *)
Definition fresh : Store :=
  {| st_world := set_registry [] Sample.world;
     st_unique := [("trackedcurrenciesindexes_ticker_key", ColTicker)] |}.

(** The store after [insert_tracked_items] on the empty registry. *)
Definition listed : Store :=
  {| st_world := emit (EvLog INFO) (set_registry items (st_world fresh));
     st_unique := st_unique fresh |}.

(** A holding in Norwegian kroner. *)
Definition kroner : holding := Sample.manual "Nordnet" "AAPL" 1 "NOK".

End Cases.


(** *** Conversion of manual holdings *)




(** ** The wallet responses before typing

    [response] above types the provider's JSON.  What [response.json()]
    yields is any JSON value, and the normalizer raises on some of them.
    This part reads lines 290-321 of main.py over JSON values as the
    parser yields them; on the values of typed responses it agrees with
    the functions above (see the properties). *)

(** A Python float, through what [str] prints of it: the decimal of a
    finite float, [nan], [inf] or [-inf]. *)
Inductive pyfloat : Set :=
| Float (d : Dec.t)
| FloatNaN
| FloatInf (negative : bool).

(** A value of [response.json()]; an object is a dictionary, its keys
    are distinct. *)
#[warnings="-register-all"]
Inductive json : Set :=
| JNull
| JBool (b : bool)
| JInt (n : Z)
| JFloat (f : pyfloat)
| JStr (s : string)
| JList (items : list json)
| JObj (members : list (string * json)).

(** A [Decimal]: a number, an infinity, or a NaN, quiet or signaling. *)
Inductive decimal : Set :=
| Finite (d : Dec.t)
| Infinity (negative : bool)
| NaN (signaling : bool).

(** The dictionaries built by the normalizer, whatever their values. *)
Record raw_asset : Set := {
  raw_symbol : json; raw_balance : decimal; raw_total_price : decimal }.

(** Expressions that may raise: [None] is the exception. *)
Definition obind {A B} (o : option A) (k : A -> option B) : option B :=
  match o with Some a => k a | None => None end.

Notation "x <-- o ;; k" := (obind o (fun x => k))
  (at level 61, o at next level, right associativity) : m_scope.

(** [bool(j)] *)
Definition py_bool (j : json) : bool :=
  match j with
  | JNull => false
  | JBool b => b
  | JInt n => negb (n =? 0)
  | JFloat (Float d) => negb (Dec.coeff d =? 0)%N
  | JFloat _ => true
  | JStr s => negb (String.eqb s "")
  | JList l => match l with [] => false | _ :: _ => true end
  | JObj m => match m with [] => false | _ :: _ => true end
  end.

Fixpoint contains (needle s : string) : bool :=
  String.prefix needle s
  || match s with
     | EmptyString => false
     | String _ rest => contains needle rest
     end.

Definition lookup (key : string) (members : list (string * json)) : option json :=
  match find (fun m => String.eqb (fst m) key) members with
  | Some m => Some (snd m)
  | None => None
  end.

(** [key in j], for a string [key]: a key of a dictionary, an element of
    a list, a part of a string; TypeError otherwise. *)
Definition py_in (key : string) (j : json) : option bool :=
  match j with
  | JObj m => Some (match lookup key m with Some _ => true | None => false end)
  | JList l =>
      Some (existsb (fun x => match x with
                              | JStr s => String.eqb s key
                              | _ => false
                              end) l)
  | JStr s => Some (contains key s)
  | JNull | JBool _ | JInt _ | JFloat _ => None
  end.

(** [j and key in j], as a condition *)
Definition py_and_in (j : json) (key : string) : option bool :=
  if py_bool j then py_in key j else Some false.

(** [j[key]], for a string [key]: KeyError on a dictionary without the
    key, TypeError on anything else. *)
Definition py_item (j : json) (key : string) : option json :=
  match j with
  | JObj m => lookup key m
  | _ => None
  end.

(** [j.get(key, default)]: AttributeError on anything but a dictionary. *)
Definition py_get (j : json) (key : string) (default : json) : option json :=
  match j with
  | JObj m => Some (match lookup key m with Some v => v | None => default end)
  | _ => None
  end.

(** [for x in j]: the elements of a list, the keys of a dictionary, the
    characters of a string; TypeError otherwise. *)
Definition py_iter (j : json) : option (list json) :=
  match j with
  | JList l => Some l
  | JObj m => Some (map (fun kv => JStr (fst kv)) m)
  | JStr s => Some (map (fun c => JStr (String c EmptyString))
                        (list_ascii_of_string s))
  | JNull | JBool _ | JInt _ | JFloat _ => None
  end.

(** [a / b] for a finite [b] other than zero. *)
Definition div_by (a : decimal) (b : Dec.t) : option decimal :=
  match a with
  | Finite x =>
      match Dec.div x b with
      | Some q => Some (Finite q)
      | None => None
      end
  | Infinity s => Some (Infinity (xorb s (Dec.sign b)))
  | NaN false => Some (NaN false)
  | NaN true => None
  end.

(** [a * b] for a finite [b]; an infinity times zero raises. *)
Definition mul_by (a : decimal) (b : Dec.t) : option decimal :=
  match a with
  | Finite x => Some (Finite (Dec.mul x b))
  | Infinity s =>
      if (Dec.coeff b =? 0)%N then None
      else Some (Infinity (xorb s (Dec.sign b)))
  | NaN false => Some (NaN false)
  | NaN true => None
  end.

(** [a > 10]: an ordering comparison with a NaN raises. *)
Definition gt_ten (a : decimal) : option bool :=
  match a with
  | Finite x => Some (Dec.gtb x (Dec.of_Z 10))
  | Infinity s => Some (negb s)
  | NaN _ => None
  end.

(** [balance / (10 ** decimals)]: the power is an int for an int that is
    not negative and for a bool; otherwise it raises or is a float, by
    which a [Decimal] cannot be divided. *)
Definition div_by_power (balance : decimal) (decimals : json) : option decimal :=
  match decimals with
  | JInt n => if 0 <=? n then div_by balance (Dec.of_Z (10 ^ n)) else None
  | JBool b => div_by balance (Dec.of_Z (if b then 10 else 1))
  | _ => None
  end.

Fixpoint filter_above (l : list raw_asset) : option (list raw_asset) :=
  match l with
  | [] => Some []
  | a :: rest =>
      keep <-- gt_ten (raw_total_price a) ;;
      tail <-- filter_above rest ;;
      Some (if keep then a :: tail else tail)
  end.

Definition combine_and_filter_assets_json (native_sol : option raw_asset)
    (other_assets : list raw_asset) : option (list raw_asset) :=
  let all_assets :=
    match native_sol with
    | Some n => ([n] ++ other_assets)%list
    | None => other_assets
    end in
  filter_above all_assets.

Section Json.

(** [Decimal(s)] on a string, the parser of the decimal module; [None]
    when it raises. *)
Variable parse_decimal : string -> option decimal.

(** [Decimal(str(j))]: [str] prints an int or a float as a numeral;
    "None", "True", "[...]" and "{...}" are not numerals. *)
Definition decimal_of_str (j : json) : option decimal :=
  match j with
  | JInt n => Some (Finite (Dec.of_Z n))
  | JFloat (Float d) => Some (Finite d)
  | JFloat FloatNaN => Some (NaN false)
  | JFloat (FloatInf s) => Some (Infinity s)
  | JStr s => parse_decimal s
  | JNull | JBool _ | JList _ | JObj _ => None
  end.

Definition get_native_sol_balance_json (result : json) : M (option raw_asset) :=
  has_result <- lift (py_and_in result "result") ;;
  if has_result then
    res <- lift (py_item result "result") ;;
    nb <- lift (py_get res "nativeBalance" (JObj [])) ;;
    lamports <- lift (py_get nb "lamports" (JInt 0)) ;;
    native_balance <- lift (decimal_of_str lamports) ;;
    sol_price <- get_sol_price ;;
    b <- lift (div_by native_balance Dec.e9) ;;
    total <- lift (mul_by b sol_price) ;;
    ret (Some {| raw_symbol := JStr "SOL"; raw_balance := b;
                 raw_total_price := total |})
  else ret None.

Definition raw_asset_of_token (token : json) : option raw_asset :=
  token_info <-- py_get token "token_info" (JObj []) ;;
  price_info <-- py_get token_info "price_info" (JObj []) ;;
  symbol <-- py_get token_info "symbol" (JStr "N/A") ;;
  balance_field <-- py_get token_info "balance" (JInt 0) ;;
  balance <-- decimal_of_str balance_field ;;
  decimals <-- py_get token_info "decimals" (JInt 0) ;;
  total_price_field <-- py_get price_info "total_price" (JInt 0) ;;
  total_price <-- decimal_of_str total_price_field ;;
  b <-- div_by_power balance decimals ;;
  Some {| raw_symbol := symbol; raw_balance := b; raw_total_price := total_price |}.

Fixpoint raw_assets_of_tokens (tokens : list json) : option (list raw_asset) :=
  match tokens with
  | [] => Some []
  | token :: rest =>
      a <-- raw_asset_of_token token ;;
      l <-- raw_assets_of_tokens rest ;;
      Some (a :: l)
  end.

Definition get_other_assets_json (result : json) : option (list raw_asset) :=
  has_result <-- py_and_in result "result" ;;
  if has_result then
    res <-- py_item result "result" ;;
    tokens <-- py_get res "items" (JList []) ;;
    l <-- py_iter tokens ;;
    raw_assets_of_tokens l
  else Some [].

End Json.

(** *** The JSON of a typed response *)

Definition member (key : string) (value : option json) : list (string * json) :=
  match value with
  | Some v => [(key, v)]
  | None => []
  end.

Definition json_of_price_info (p : price_info) : json :=
  JObj (member "total_price"
               (option_map (fun d => JFloat (Float d)) (pi_total_price p))).

Definition json_of_token_info (t : token_info) : json :=
  JObj (member "symbol" (option_map JStr (ti_symbol t))
        ++ member "balance" (option_map JInt (ti_balance t))
        ++ member "decimals" (option_map (fun n => JInt (Z.of_nat n)) (ti_decimals t))
        ++ member "price_info" (option_map json_of_price_info (ti_price_info t)))%list.

Definition json_of_token (tk : token) : json :=
  JObj (member "token_info" (option_map json_of_token_info (tok_token_info tk))).

Definition json_of_native_balance (nb : native_balance) : json :=
  JObj (member "lamports" (option_map JInt (nb_lamports nb))).

Definition json_of_result (r : rpc_result) : json :=
  JObj (member "items"
               (option_map (fun l => JList (map json_of_token l)) (res_items r))
        ++ member "nativeBalance"
                  (option_map json_of_native_balance (res_nativeBalance r)))%list.

Definition json_of_response (r : response) : json :=
  JObj (member "result" (option_map json_of_result (resp_result r))).

(** A request that raised returns [None]. *)
Definition json_of (result : option response) : json :=
  match result with
  | Some r => json_of_response r
  | None => JNull
  end.

Definition raw_of_asset (a : asset) : raw_asset :=
  {| raw_symbol := JStr (symbol a); raw_balance := Finite (balance a);
     raw_total_price := Finite (total_price a) |}.

(** Responses in which a key holds a value of another kind than the
    documented one. *)
Module Malformed.





End Malformed.


(** * Properties *)

(** ** Decimal arithmetic *)

Section DecFacts.

Import Dec.

Lemma ndigits_aux_le (fuel : nat) :
  forall (n : N) (k : nat),
    (n < 10 ^ N.of_nat (S k))%N -> (ndigits_aux fuel n <= S k)%nat.
Proof.
  induction fuel as [|f IH]; intros n k Hn; simpl; [lia|].
  destruct (N.ltb_spec n 10) as [Hlt|Hge]; [lia|].
  destruct k as [|k].
  - change (10 ^ N.of_nat 1)%N with 10%N in Hn. lia.
  - apply le_n_S, IH.
    apply N.Div0.div_lt_upper_bound.
    replace (N.of_nat (S (S k))) with (N.succ (N.of_nat (S k))) in Hn by lia.
    rewrite N.pow_succ_r' in Hn. exact Hn.
Qed.

Lemma ndigits_le (n : N) (k : nat) :
  (n < 10 ^ N.of_nat (S k))%N -> (ndigits n <= S k)%nat.
Proof. apply ndigits_aux_le. Qed.

Lemma ndigits_pos (n : N) : (1 <= ndigits n)%nat.
Proof.
  unfold ndigits. destruct (N.to_nat (N.log2 n)); simpl; [lia|].
  destruct (n <? 10)%N; lia.
Qed.

(** Some values of [decimal] under the default context. *)
Example div_one_third :
  div (of_Z 1) (of_Z 3) = Some (mk false 3333333333333333333333333333 (-28)).
Proof. vm_compute. reflexivity. Qed.

Example div_two_thirds :
  div (of_Z 2) (of_Z 3) = Some (mk false 6666666666666666666666666667 (-28)).
Proof. vm_compute. reflexivity. Qed.

Example div_lamports :
  div (of_Z 1500000000) e9 = Some (mk false 1500000000 (-9)).
Proof. vm_compute. reflexivity. Qed.

Example div_token_balance :
  div (of_Z 1500000) (of_Z (10 ^ 6)) = Some (mk false 15 (-1)).
Proof. vm_compute. reflexivity. Qed.

Example mul_rounds :
  mul (mk false 12345678901234567 (-16)) (mk false 12345678901234567 (-16))
  = mk false 1524157875323883455265967557 (-27).
Proof. vm_compute. reflexivity. Qed.

Example mul_half_even :
  mul (mk false 10000000000000000000000000005 0) (of_Z 1)
  = mk false 1000000000000000000000000000 1 /\
  mul (mk false 10000000000000000000000000015 0) (of_Z 1)
  = mk false 1000000000000000000000000002 1.
Proof. vm_compute. split; reflexivity. Qed.

Example cmp_by_value :
  eqb (mk false 1500000000 (-9)) (mk false 15 (-1)) = true /\
  gtb (mk false 10 0) (of_Z 10) = false /\
  gtb (mk false 1000001 (-5)) (of_Z 10) = true.
Proof. vm_compute. repeat split. Qed.

(** A coefficient of at most 28 digits is not rounded. *)
Lemma fix_small (d : t) : (coeff d < 10 ^ 28)%N -> fix_ d = d.
Proof.
  intros H. unfold fix_.
  assert (Hd : (ndigits (coeff d) <= prec)%nat) by (apply (ndigits_le _ 27); exact H).
  apply Nat.leb_le in Hd. rewrite Hd. reflexivity.
Qed.

Lemma mul_exact (a b : t) :
  (coeff a * coeff b < 10 ^ 28)%N ->
  mul a b = mk (xorb (sign a) (sign b)) (coeff a * coeff b) (exp a + exp b).
Proof. intros H. unfold mul. apply fix_small. exact H. Qed.

Lemma ten_neq_0 : ~ (10 == 0)%Q.
Proof. intros H. discriminate H. Qed.

Lemma val_mk_mul (a b : t) :
  (val (mk (xorb (sign a) (sign b)) (coeff a * coeff b) (exp a + exp b))
   == val a * val b)%Q.
Proof.
  unfold val; simpl.
  rewrite (Qpower_plus 10 (exp a) (exp b) ten_neq_0).
  rewrite N2Z.inj_mul.
  destruct (sign a), (sign b); simpl xorb; cbv iota;
    rewrite ?inject_Z_mult; ring.
Qed.

Lemma val_of_Z (n : Z) : (val (of_Z n) == inject_Z n)%Q.
Proof.
  unfold val, of_Z; simpl.
  rewrite N2Z.inj_abs_N.
  destruct (Z.ltb_spec n 0) as [H|H].
  - replace (-1 * Z.abs n) with n by lia. ring.
  - replace (1 * Z.abs n) with n by lia. ring.
Qed.

Lemma scaled_val (m : Z) (d : t) :
  m <= exp d -> (inject_Z (scaled m d) * Qpower 10 m == val d)%Q.
Proof.
  intros H. unfold scaled, val.
  rewrite inject_Z_mult.
  rewrite (Zpower_Qpower 10 (exp d - m)) by lia.
  change (inject_Z 10) with (10 : Q).
  rewrite <- Qmult_assoc.
  rewrite <- (Qpower_plus 10 (exp d - m) m ten_neq_0).
  replace (exp d - m + m) with (exp d) by lia.
  reflexivity.
Qed.

Lemma Qcompare_inject_Z (x y : Z) : (inject_Z x ?= inject_Z y)%Q = (x ?= y).
Proof. unfold Qcompare; simpl. now rewrite !Z.mul_1_r. Qed.

Lemma Qcompare_mult_r (x y p : Q) :
  (0 < p)%Q -> (x * p ?= y * p)%Q = (x ?= y)%Q.
Proof.
  intros Hp.
  destruct (Qcompare_spec x y) as [E|L|G].
  - apply Qeq_alt. now rewrite E.
  - apply Qlt_alt. apply Qmult_lt_compat_r; assumption.
  - apply Qgt_alt. apply Qmult_lt_compat_r; assumption.
Qed.

Lemma pow10_pos (m : Z) : (0 < Qpower 10 m)%Q.
Proof. apply Qpower_0_lt. reflexivity. Qed.

(** Comparison is comparison of the values. *)
Lemma cmp_val (a b : t) : cmp a b = (val a ?= val b)%Q.
Proof.
  unfold cmp.
  set (m := Z.min (exp a) (exp b)).
  rewrite <- (scaled_val m a), <- (scaled_val m b) by (unfold m; lia).
  rewrite Qcompare_mult_r by apply pow10_pos.
  now rewrite Qcompare_inject_Z.
Qed.

Lemma gtb_val (a b : t) : gtb a b = true <-> (val b < val a)%Q.
Proof.
  unfold gtb. rewrite cmp_val.
  destruct (Qcompare_spec (val a) (val b)) as [E|L|G]; split; intros H;
    try discriminate; try reflexivity; try assumption.
  - rewrite E in H. now apply Qlt_irrefl in H.
  - exfalso. apply (Qlt_irrefl (val a)). now apply Qlt_trans with (val b).
Qed.

Lemma gtb_false_val (a b : t) : gtb a b = false <-> (val a <= val b)%Q.
Proof.
  split; intros H.
  - apply Qnot_lt_le. intros L. apply gtb_val in L. congruence.
  - destruct (gtb a b) eqn:E; [|reflexivity].
    apply gtb_val in E. exfalso. now apply (Qlt_not_le _ _ E).
Qed.

Lemma eqb_val (a b : t) : eqb a b = true <-> (val a == val b)%Q.
Proof.
  unfold eqb. rewrite cmp_val.
  destruct (Qcompare_spec (val a) (val b)) as [E|L|G]; split; intros H;
    try discriminate; try reflexivity; try assumption.
  - rewrite H in L. now apply Qlt_irrefl in L.
  - rewrite H in G. now apply Qlt_irrefl in G.
Qed.

(** [d != 0] holds exactly when the coefficient is not zero. *)
Lemma eqb_zero (d : t) : eqb d (of_Z 0) = true <-> coeff d = 0%N.
Proof.
  unfold eqb, cmp, scaled, of_Z.
  cbn [sign coeff exp Z.ltb Z.compare Z.abs_N Z.of_N].
  set (m := Z.min (exp d) 0).
  assert (Hp : 0 < 10 ^ (exp d - m)) by (apply Z.pow_pos_nonneg; unfold m; lia).
  replace (1 * 0 * 10 ^ (0 - m)) with 0 by lia.
  destruct (Z.compare_spec ((if sign d then -1 else 1) * Z.of_N (coeff d)
                            * 10 ^ (exp d - m)) 0) as [E|L|G];
    split; intros H; try discriminate; try reflexivity.
  - apply Z.mul_eq_0 in E. destruct E as [E|E]; [|lia].
    destruct (sign d); lia.
  - rewrite H in L. destruct (sign d); simpl in L; lia.
  - rewrite H in G. destruct (sign d); simpl in G; lia.
Qed.

Lemma val_add_exact (a b : t) : (val (add_exact a b) == val a + val b)%Q.
Proof.
  unfold add_exact.
  set (m := Z.min (exp a) (exp b)).
  rewrite <- (scaled_val m a), <- (scaled_val m b) by (unfold m; lia).
  set (s := scaled m a + scaled m b).
  unfold val; simpl.
  rewrite N2Z.inj_abs_N.
  replace ((if s <? 0 then -1 else 1) * Z.abs s) with s
    by (destruct (Z.ltb_spec s 0); lia).
  unfold s. rewrite inject_Z_plus. ring.
Qed.

(** Division raises on a zero divisor and on nothing else. *)
Lemma div_defined (a b : t) : coeff b <> 0%N -> exists q, div a b = Some q.
Proof.
  intros H. unfold div.
  apply N.eqb_neq in H. rewrite H.
  destruct (coeff a =? 0)%N; [eexists; reflexivity|].
  cbv zeta.
  match goal with |- context [if (?r =? 0)%N then _ else _] => destruct (r =? 0)%N end.
  - match goal with |- context [strip ?k ?c ?e] => destruct (strip k c e) end.
    eexists; reflexivity.
  - eexists; reflexivity.
Qed.

Lemma div_by_zero (a b : t) : coeff b = 0%N -> div a b = None.
Proof. intros H. unfold div. rewrite H. reflexivity. Qed.




End DecFacts.

(** ** Worlds and traces *)

Lemma same_store_refl (w : World) : same_store w w.
Proof. repeat split. Qed.

Lemma same_store_emit (e : event) (w : World) : same_store w (emit e w).
Proof. repeat split. Qed.

(** ** The price resolver *)

Section Resolver.

Variable env : Env.
Variable ticker : string.

Lemma fails_not_yields (period : string) (c : quote) :
  (window_fails env ticker) period -> (window_yields env ticker) period c -> False.
Proof.
  intros [F|F] (closes & H & M); rewrite F in H; try discriminate.
  injection H as <-. discriminate M.
Qed.

(** The first window that yields is determined by the list of windows. *)
Lemma first_yield_unique (pre : list string) :
  forall pre' p p' post post' c c',
    (pre ++ p :: post = pre' ++ p' :: post')%list ->
    Forall (window_fails env ticker) pre -> (window_yields env ticker) p c ->
    Forall (window_fails env ticker) pre' -> (window_yields env ticker) p' c' ->
    pre = pre' /\ p = p'.
Proof.
  induction pre as [|x pre IH]; intros pre' p p' post post' c c' E Fp Y Fp' Y'.
  - destruct pre' as [|x' pre']; simpl in E.
    + injection E as -> _. split; reflexivity.
    + injection E as -> _. inversion Fp'; subst.
      exfalso. eapply fails_not_yields; eassumption.
  - destruct pre' as [|x' pre']; simpl in E.
    + injection E as -> _. inversion Fp; subst.
      exfalso. eapply fails_not_yields; eassumption.
    + injection E as -> E. inversion Fp; inversion Fp'; subst.
      destruct (IH pre' p p' post post' c c' E) as [-> ->]; auto.
Qed.

Lemma yields_functional (p : string) (c c' : quote) :
  (window_yields env ticker) p c -> (window_yields env ticker) p c' -> c = c'.
Proof.
  intros (l & H & M) (l' & H' & M'). rewrite H in H'. injection H' as <-.
  congruence.
Qed.

(** One pass over the windows: either all of them fail and were all
    tried, or the pass stops at the first one that yields. *)
Lemma try_periods_spec (ps : list string) :
  forall w, exists r w' evs,
    try_periods env ticker ps w = Some (r, w') /\
    same_store w w' /\
    log w' = (log w ++ evs)%list /\
    ((r = None /\ Forall (window_fails env ticker) ps /\
      history_calls evs = map (EvHistory ticker) ps)
     \/
     (exists c pre p post,
        r = Some c /\ (ps = pre ++ p :: post)%list /\
        Forall (window_fails env ticker) pre /\ (window_yields env ticker) p c /\
        history_calls evs = map (EvHistory ticker) (pre ++ [p])%list)).
Proof.
  induction ps as [|period rest IH]; intros w.
  - exists None, (emit (EvLog ERROR) w), [EvLog ERROR].
    split; [reflexivity|]. split; [apply same_store_emit|]. split; [reflexivity|].
    left. split; [reflexivity|]. split; constructor.
  - assert (Hfail : forall l,
               (window_fails env ticker) period ->
               try_periods env ticker (period :: rest) w
               = try_periods env ticker rest
                   (emit (EvLog l) (emit (EvHistory ticker period) w)) ->
               exists r w' evs,
                 try_periods env ticker (period :: rest) w = Some (r, w') /\
                 same_store w w' /\
                 log w' = (log w ++ evs)%list /\
                 ((r = None /\ Forall (window_fails env ticker) (period :: rest) /\
                   history_calls evs = map (EvHistory ticker) (period :: rest))
                  \/
                  (exists c pre p post,
                      r = Some c /\ (period :: rest = pre ++ p :: post)%list /\
                      Forall (window_fails env ticker) pre /\ (window_yields env ticker) p c /\
                      history_calls evs = map (EvHistory ticker) (pre ++ [p])%list))).
    { intros l Hf Hstep.
      destruct (IH (emit (EvLog l) (emit (EvHistory ticker period) w)))
        as (r & w' & evs & Hrun & Hst & Hlog & Hcase).
      exists r, w', (EvHistory ticker period :: EvLog l :: evs).
      split; [rewrite Hstep; exact Hrun|].
      split; [exact Hst|].
      split; [rewrite Hlog; simpl; rewrite <- !app_assoc; reflexivity|].
      destruct Hcase as [(Hr & Hall & Hc) | (c & pre & p & post & Hr & Hps & Hpre & Hy & Hc)].
      - left. split; [exact Hr|]. split; [constructor; assumption|].
        simpl. f_equal. exact Hc.
      - right. exists c, (period :: pre), p, post.
        split; [exact Hr|]. split; [simpl; f_equal; exact Hps|].
        split; [constructor; assumption|]. split; [exact Hy|].
        simpl. f_equal. exact Hc. }
    destruct (history env ticker period) as [|[|c cs]] eqn:H.
    + apply (Hfail ERROR); [left; exact H|].
      simpl. unfold bind, stock_history, modify, ret, logging. simpl. rewrite H. reflexivity.
    + apply (Hfail WARNING); [right; exact H|].
      simpl. unfold bind, stock_history, modify, ret, logging. simpl. rewrite H. reflexivity.
    + exists (Some (last cs c)),
        (emit (EvLog INFO) (emit (EvHistory ticker period) w)),
        [EvHistory ticker period; EvLog INFO].
      split.
      { simpl. unfold bind, stock_history, modify, ret, logging. simpl. rewrite H. reflexivity. }
      split; [repeat split|].
      split; [simpl; rewrite <- app_assoc; reflexivity|].
      right. exists (last cs c), [], period, rest.
      split; [reflexivity|]. split; [reflexivity|]. split; [constructor|].
      split; [|reflexivity].
      exists (c :: cs). split; [exact H | reflexivity].
Qed.

End Resolver.

(** C4. The price resolver always returns; it tries "1d" and then "5d";
    it returns a price exactly when some window yields a non-empty
    history after windows that all failed (by an empty history or by a
    provider error), and the price is the latest close of that first
    window; it returns no price exactly when every window fails.  The
    provider is called for the failed windows and the yielding one, in
    order, and nothing is written. *)
Theorem get_latest_price_first_window (env : Env) (ticker : string) (w : World) :
  periods = ["1d"; "5d"] /\
  exists r w' evs,
    get_latest_price env ticker w = Some (r, w') /\
    same_store w w' /\
    log w' = (log w ++ evs)%list /\
    (forall c,
        r = Some c <->
        exists pre p post,
          (periods = pre ++ p :: post)%list /\
          Forall (window_fails env ticker) pre /\
          window_yields env ticker p c) /\
    (r = None <-> Forall (window_fails env ticker) periods) /\
    (forall pre p post c,
        (periods = pre ++ p :: post)%list ->
        Forall (window_fails env ticker) pre ->
        window_yields env ticker p c ->
        history_calls evs = map (EvHistory ticker) (pre ++ [p])%list) /\
    (r = None -> history_calls evs = map (EvHistory ticker) periods).
Proof.
  split; [reflexivity|].
  destruct (try_periods_spec env ticker periods w)
    as (r & w' & evs & Hrun & Hst & Hlog & Hcase).
  exists r, w', evs. split; [exact Hrun|]. split; [exact Hst|]. split; [exact Hlog|].
  destruct Hcase as [(-> & Hall & Hc) | (c & pre & p & post & -> & E & Hpre & Hy & Hc)].
  - assert (Hno : forall pre p post c,
               (periods = pre ++ p :: post)%list ->
               window_yields env ticker p c -> False).
    { intros pre p post c E Y. rewrite E in Hall.
      apply Forall_app in Hall. destruct Hall as [_ Hall].
      inversion Hall; subst. eapply fails_not_yields; eassumption. }
    repeat split; auto; try discriminate.
    + intros (pre & p & post & E & _ & Y). exfalso. eauto.
    + intros pre p post c E _ Y. exfalso. eauto.
  - repeat split.
    + intros [= <-]. exists pre, p, post. auto.
    + intros (pre' & p' & post' & E' & Hpre' & Hy').
      rewrite E in E'.
      destruct (first_yield_unique env ticker pre pre' p p' post post' c c0 E' Hpre Hy Hpre' Hy')
        as [-> ->].
      f_equal. eapply yields_functional; eassumption.
    + discriminate.
    + intros Hall. exfalso. rewrite E in Hall.
      apply Forall_app in Hall. destruct Hall as [_ Hall].
      inversion Hall; subst. eapply fails_not_yields; eassumption.
    + intros pre' p' post' c' E' Hpre' Hy'.
      rewrite E in E'.
      destruct (first_yield_unique env ticker pre pre' p p' post post' c c' E' Hpre Hy Hpre' Hy')
        as [<- <-].
      exact Hc.
    + discriminate.
Qed.

(** ** The currency converter *)

(** The tickers the converter's query selects are those of the registry's
    rows from the currency to USD. *)
Lemma conversion_tickers_In (currency t0 : string) (registry : list tracked) :
  In t0 (conversion_tickers currency registry) <->
  exists row, In row registry /\ tr_Ticker row = t0 /\
              FromCurrency row = currency /\ ToCurrency row = "USD".
Proof.
  unfold conversion_tickers. rewrite in_map_iff. split.
  - intros (row & Ht & Hin). apply filter_In in Hin. destruct Hin as [Hin Hb].
    apply andb_true_iff in Hb. destruct Hb as [Hf Ht'].
    apply String.eqb_eq in Hf. apply String.eqb_eq in Ht'.
    exists row. auto.
  - intros (row & Hin & Ht & Hf & Ht'). exists row. split; [exact Ht|].
    apply filter_In. split; [exact Hin|].
    apply andb_true_iff. split; apply String.eqb_eq; assumption.
Qed.

Lemma conversion_tickers_nil (currency : string) (registry : list tracked) :
  conversion_tickers currency registry = [] <-> no_instrument currency registry.
Proof.
  split.
  - intros E row Hin [Hf Ht].
    assert (Hi : In (tr_Ticker row) (conversion_tickers currency registry)).
    { apply conversion_tickers_In. exists row. auto. }
    rewrite E in Hi. exact Hi.
  - intros Hno.
    destruct (conversion_tickers currency registry) as [|t0 rest] eqn:E; [reflexivity|].
    assert (Hi : In t0 (conversion_tickers currency registry))
      by (rewrite E; left; reflexivity).
    apply conversion_tickers_In in Hi. destruct Hi as (row & Hin & _ & Hf & Ht).
    exfalso. apply (Hno row Hin). auto.
Qed.



(** ** Running the pipeline *)

Lemma step_refl (w : World) : step [] [] w w.
Proof.
  unfold step. rewrite !app_nil_r. repeat split.
  exists []. rewrite app_nil_r. split; [reflexivity | intros []].
Qed.

Lemma step_trans (vs1 vs2 : list valuation) (rs1 rs2 : list rate) (w w1 w2 : World) :
  step vs1 rs1 w w1 -> step vs2 rs2 w1 w2 ->
  step (vs1 ++ vs2) (rs1 ++ rs2) w w2.
Proof.
  intros (A1 & A2 & A3 & A4 & A5 & A6 & e1 & A7 & A8)
         (B1 & B2 & B3 & B4 & B5 & B6 & e2 & B7 & B8).
  unfold step. repeat split; try congruence.
  - rewrite B5, A5. now rewrite app_assoc.
  - rewrite B6, A6. now rewrite app_assoc.
  - exists (e1 ++ e2)%list. split.
    + rewrite B7, A7. now rewrite app_assoc.
    + intros H. apply in_app_or in H. tauto.
Qed.

Lemma step_emit (e : event) (w : World) : e <> EvNow -> step [] [] w (emit e w).
Proof.
  intros He. unfold step; simpl. rewrite !app_nil_r. repeat split.
  exists [e]. split; [reflexivity|]. intros [H|[]]. congruence.
Qed.

Lemma step_append_valuation (v : valuation) (w : World) :
  step [v] [] w (append_valuation v w).
Proof.
  unfold step; simpl. rewrite !app_nil_r. repeat split.
  exists []. rewrite app_nil_r. split; [reflexivity | intros []].
Qed.

Lemma step_append_rate (r : rate) (w : World) :
  step [] [r] w (append_rate r w).
Proof.
  unfold step; simpl. rewrite !app_nil_r. repeat split.
  exists []. rewrite app_nil_r. split; [reflexivity | intros []].
Qed.

Lemma runs_ret {A} (a : A) (w : World) : runs (ret a) w a [] [].
Proof. exists w. split; [reflexivity | apply step_refl]. Qed.

Lemma runs_bind {A B} (m : M A) (k : A -> M B) (w : World) (a : A) (b : B)
    (vs1 vs2 : list valuation) (rs1 rs2 : list rate) :
  runs m w a vs1 rs1 ->
  (forall w1, step vs1 rs1 w w1 -> runs (k a) w1 b vs2 rs2) ->
  runs (bind m k) w b (vs1 ++ vs2) (rs1 ++ rs2).
Proof.
  intros (w1 & Hm & S1) Hk.
  destruct (Hk w1 S1) as (w2 & Hk2 & S2).
  exists w2. split.
  - unfold bind. rewrite Hm. exact Hk2.
  - eapply step_trans; eassumption.
Qed.

(** The common case: the first computation appends nothing. *)
Lemma runs_bind0 {A B} (m : M A) (k : A -> M B) (w : World) (a : A) (b : B)
    (vs : list valuation) (rs : list rate) :
  runs m w a [] [] ->
  (forall w1, step [] [] w w1 -> runs (k a) w1 b vs rs) ->
  runs (bind m k) w b vs rs.
Proof. intros Hm Hk. exact (runs_bind m k w a b [] vs [] rs Hm Hk). Qed.

Lemma runs_logging (l : level) (w : World) : runs (logging l) w tt [] [].
Proof.
  exists (emit (EvLog l) w). split; [reflexivity|].
  apply step_emit. discriminate.
Qed.

Lemma runs_fetch_data {A} (q : query) (rows : World -> A) (w : World) :
  runs (fetch_data q rows) w (rows (emit (EvFetch q) w)) [] [].
Proof.
  exists (emit (EvFetch q) w). split; [reflexivity|].
  apply step_emit. discriminate.
Qed.

Lemma runs_lift {A} (o : option A) (a : A) (w : World) :
  o = Some a -> runs (lift o) w a [] [].
Proof. intros ->. apply runs_ret. Qed.

Section Runs.

Variable env : Env.

Lemma runs_try_periods (ticker : string) (ps : list string) :
  forall w, runs (try_periods env ticker ps) w (first_close env ticker ps) [] [].
Proof.
  induction ps as [|period rest IH]; intros w; simpl try_periods; simpl first_close.
  - apply runs_bind0 with (a := tt); [apply runs_logging|].
    intros; apply runs_ret.
  - apply runs_bind0 with (a := history env ticker period).
    + exists (emit (EvHistory ticker period) w). split; [reflexivity|].
      apply step_emit. discriminate.
    + intros w1 _.
      destruct (history env ticker period) as [|[|c cs]].
      * apply runs_bind0 with (a := tt); [apply runs_logging|]. intros; apply IH.
      * apply runs_bind0 with (a := tt); [apply runs_logging|]. intros; apply IH.
      * apply runs_bind0 with (a := tt); [apply runs_logging|]. intros; apply runs_ret.
Qed.

Lemma runs_get_latest_price (ticker : string) (w : World) :
  runs (get_latest_price env ticker) w (latest_price env ticker) [] [].
Proof. apply runs_try_periods. Qed.

Lemma runs_get_usd_exchange_rate (currency : string) (w : World) :
  runs (get_usd_exchange_rate env currency) w
       (usd_rate env (TrackedCurrenciesIndexes w) currency) [] [].
Proof.
  unfold get_usd_exchange_rate, usd_rate.
  destruct (String.eqb currency "USD"); [apply runs_ret|].
  eapply runs_bind0; [apply runs_fetch_data|].
  intros w1 _. cbn [TrackedCurrenciesIndexes emit].
  destruct (conversion_tickers currency (TrackedCurrenciesIndexes w)) as [|t0 rest].
  - apply runs_bind0 with (a := tt); [apply runs_logging|]. intros; apply runs_ret.
  - eapply runs_bind0; [apply runs_get_latest_price|].
    intros w2 _. destruct (latest_price env t0).
    + apply runs_ret.
    + apply runs_bind0 with (a := tt); [apply runs_logging|]. intros; apply runs_ret.
Qed.

Lemma runs_insert_historical_value (v : valuation) (w : World) :
  runs (insert_historical_value v) w tt [v] [].
Proof. exists (append_valuation v w). split; [reflexivity | apply step_append_valuation]. Qed.

Lemma runs_insert_historical_rate (r : rate) (w : World) :
  runs (insert_historical_rate r) w tt [] [r].
Proof. exists (append_rate r w). split; [reflexivity | apply step_append_rate]. Qed.

Lemma runs_value_holding (ts : Z) (h : holding) (w : World) :
  runs (value_holding env ts h) w tt
       (manual_rows env (TrackedCurrenciesIndexes w) ts h) [].
Proof.
  unfold value_holding, manual_rows.
  eapply runs_bind0; [apply runs_get_latest_price|].
  intros w1 S1.
  destruct (latest_price env (h_Ticker h)) as [price|]; [|apply runs_logging].
  destruct (String.eqb (h_Platform h) "Solana").
  - eapply runs_bind0; [apply runs_ret|].
    intros w2 _. apply runs_insert_historical_value.
  - eapply runs_bind0.
    + eapply runs_bind0; [apply runs_get_usd_exchange_rate|].
      intros w2 _. apply runs_ret.
    + intros w2 _.
      destruct S1 as (_ & -> & _).
      destruct (usd_rate env (TrackedCurrenciesIndexes w) (h_NativeCurrency h)).
      * apply runs_insert_historical_value.
      * apply runs_logging.
Qed.

Lemma runs_record_rate (ts : Z) (ticker : string) (w : World) :
  runs (record_rate env ts ticker) w tt [] (rate_rows env ts ticker).
Proof.
  unfold record_rate, rate_rows.
  eapply runs_bind0; [apply runs_get_latest_price|].
  intros w1 _.
  destruct (latest_price env ticker).
  - apply runs_insert_historical_rate.
  - apply runs_logging.
Qed.

Lemma runs_get_sol_price (w : World) :
  runs get_sol_price w (sol_price (HistoricalRates w)) [] [].
Proof.
  unfold get_sol_price, sol_price.
  eapply runs_bind0; [apply runs_fetch_data|].
  intros w1 _. cbn [HistoricalRates emit].
  destruct (latest (sol_rates (HistoricalRates w))).
  - apply runs_ret.
  - apply runs_bind0 with (a := tt); [apply runs_logging|]. intros; apply runs_ret.
Qed.

Lemma runs_get_native_sol_balance (result : option response) (w : World) :
  runs (get_native_sol_balance result) w
       (native_sol (HistoricalRates w) result) [] [].
Proof.
  unfold get_native_sol_balance, native_sol.
  destruct (has_result result) as [res|]; [|apply runs_ret].
  eapply runs_bind0; [apply runs_get_sol_price|].
  intros w1 _.
  destruct (div_defined
              (Dec.of_Z (get (nb_lamports (get (res_nativeBalance res) no_native_balance)) 0))
              Dec.e9) as (b & Hb); [discriminate|].
  rewrite Hb.
  eapply runs_bind0; [apply runs_lift; reflexivity|].
  intros; apply runs_ret.
Qed.

End Runs.

(** ** The wallet normalizer on typed responses *)

Lemma asset_of_token_defined (tk : token) : exists a, asset_of_token tk = Some a.
Proof.
  unfold asset_of_token.
  set (d := get (ti_decimals (get (tok_token_info tk) no_token_info)) 0%nat).
  destruct (div_defined
              (Dec.of_Z (get (ti_balance (get (tok_token_info tk) no_token_info)) 0))
              (Dec.of_Z (10 ^ Z.of_nat d))) as (b & Hb).
  - unfold Dec.of_Z; simpl.
    assert (0 < 10 ^ Z.of_nat d) by (apply Z.pow_pos_nonneg; lia).
    lia.
  - rewrite Hb. eauto.
Qed.

Lemma assets_of_tokens_defined (tokens : list token) :
  exists l, assets_of_tokens tokens = Some l /\ List.length l = List.length tokens.
Proof.
  induction tokens as [|tk rest (l & IH & Hlen)]; simpl.
  - exists []. auto.
  - destruct (asset_of_token_defined tk) as (a & ->). rewrite IH.
    exists (a :: l). simpl. auto.
Qed.

Lemma get_other_assets_defined (result : option response) :
  exists l, get_other_assets result = Some l.
Proof.
  unfold get_other_assets. destruct (has_result result) as [res|]; [|eauto].
  destruct (assets_of_tokens_defined (get (res_items res) [])) as (l & H & _). eauto.
Qed.

Lemma unit_price_defined (total b : Dec.t) : exists p, unit_price total b = Some p.
Proof.
  unfold unit_price.
  destruct (Dec.eqb b (Dec.of_Z 0)) eqn:E; simpl; [eauto|].
  apply div_defined. intros Hc. apply eqb_zero in Hc. congruence.
Qed.

Lemma wallet_record_defined (wallet_address : string) (ts : Z) (a : asset) :
  exists v, wallet_record wallet_address ts a = Some v.
Proof.
  unfold wallet_record.
  destruct (unit_price_defined (total_price a) (balance a)) as (p & ->). eauto.
Qed.

Lemma wallet_record_timestamp (wallet_address : string) (ts : Z) (a : asset) (v : valuation) :
  wallet_record wallet_address ts a = Some v -> Timestamp v = ts.
Proof.
  unfold wallet_record.
  destruct (unit_price (total_price a) (balance a)); [|discriminate].
  intros [= <-]. reflexivity.
Qed.

Section RunsWallet.

Variable env : Env.

Lemma runs_fetch_solana_wallet_holdings (m : rpc_method) (wallet_address : string) (w : World) :
  runs (fetch_solana_wallet_holdings env m wallet_address) w
       (helius env m wallet_address) [] [].
Proof.
  unfold fetch_solana_wallet_holdings.
  apply runs_bind0 with (a := tt).
  - exists (emit (EvRpc m wallet_address) w). split; [reflexivity|].
    apply step_emit. discriminate.
  - intros w1 _. destruct (helius env m wallet_address).
    + apply runs_ret.
    + apply runs_bind0 with (a := tt); [apply runs_logging|]. intros; apply runs_ret.
Qed.

Lemma runs_insert_assets (wallet_address : string) (ts : Z) (l : list asset) :
  forall w,
    runs (for_each l (fun a =>
            insert_data <- lift (wallet_record wallet_address ts a) ;;
            insert_historical_value insert_data))
         w tt
         (flat_map (fun a => opt_list (wallet_record wallet_address ts a)) l) [].
Proof.
  induction l as [|a rest IH]; intros w; simpl.
  - apply runs_ret.
  - destruct (wallet_record_defined wallet_address ts a) as (v & Hv). rewrite Hv.
    apply (runs_bind _ _ w tt tt [v] _ [] []).
    + eapply runs_bind0; [apply runs_lift; reflexivity|].
      intros; apply runs_insert_historical_value.
    + intros; apply IH.
Qed.

Lemma runs_process_solana_wallet_holdings (wallet_address alias : string) (ts : Z) (w : World) :
  runs (process_solana_wallet_holdings env wallet_address alias ts) w tt
       (wallet_rows env (HistoricalRates w) ts (wallet_address, alias)) [].
Proof.
  unfold process_solana_wallet_holdings, wallet_rows, wallet_assets.
  apply runs_bind0 with (a := tt); [apply runs_logging|]. intros w1 S1.
  eapply runs_bind0; [apply runs_fetch_solana_wallet_holdings|]. intros w2 S2.
  eapply runs_bind0; [apply runs_get_native_sol_balance|]. intros w3 S3.
  eapply runs_bind0; [apply runs_fetch_solana_wallet_holdings|]. intros w4 S4.
  destruct (get_other_assets_defined (helius env searchAssets wallet_address)) as (l & Hl).
  eapply runs_bind0; [apply runs_lift; exact Hl|]. intros w5 S5.
  assert (E : HistoricalRates w2 = HistoricalRates w).
  { destruct S1 as (_ & _ & _ & _ & _ & E1 & _).
    destruct S2 as (_ & _ & _ & _ & _ & E2 & _).
    rewrite E2, E1. now rewrite !app_nil_r. }
  cbn [fst]. rewrite E, Hl. cbn [or_nil].
  apply runs_insert_assets.
Qed.

(** The three loops of the run. *)
Lemma runs_manual_holdings (ts : Z) (holdings : list holding) :
  forall w,
    runs (for_each holdings (value_holding env ts)) w tt
         (flat_map (manual_rows env (TrackedCurrenciesIndexes w) ts) holdings) [].
Proof.
  induction holdings as [|h rest IH]; intros w; simpl.
  - apply runs_ret.
  - apply (runs_bind _ _ w tt tt _ _ [] []).
    + apply runs_value_holding.
    + intros w1 (_ & E & _). rewrite <- E. apply IH.
Qed.

Lemma runs_tracked_items (ts : Z) (tickers : list string) :
  forall w,
    runs (for_each tickers (record_rate env ts)) w tt
         [] (flat_map (rate_rows env ts) tickers).
Proof.
  induction tickers as [|t0 rest IH]; intros w; simpl.
  - apply runs_ret.
  - apply (runs_bind _ _ w tt tt [] [] _ _).
    + apply runs_record_rate.
    + intros; apply IH.
Qed.

Lemma runs_solana_wallets (ts : Z) (wallets : list (string * string)) :
  forall w,
    runs (for_each wallets (fun '(wallet_address, alias) =>
            process_solana_wallet_holdings env wallet_address alias ts))
         w tt
         (flat_map (wallet_rows env (HistoricalRates w) ts) wallets) [].
Proof.
  induction wallets as [|[wallet_address alias] rest IH]; intros w; simpl.
  - apply runs_ret.
  - apply (runs_bind _ _ w tt tt _ _ [] []).
    + apply runs_process_solana_wallet_holdings.
    + intros w1 (_ & _ & _ & _ & _ & E & _).
      rewrite app_nil_r in E. rewrite <- E. apply IH.
Qed.

End RunsWallet.

(** ** The whole run *)

Lemma update_holdings_and_rates_run (env : Env) (w : World) :
  let ts := clock env (clock_reads w) in
  exists w' evs,
    update_holdings_and_rates env w = Some (tt, w') /\
    AssetsHistoricalValues w'
    = (AssetsHistoricalValues w ++ run_manual env w ts ++ run_wallets env w ts)%list /\
    HistoricalRates w' = (HistoricalRates w ++ run_rates env w ts)%list /\
    clock_reads w' = S (clock_reads w) /\
    log w' = (log w ++ EvNow :: evs)%list /\ ~ In EvNow evs /\
    ManualHoldings w' = ManualHoldings w /\
    TrackedCurrenciesIndexes w' = TrackedCurrenciesIndexes w /\
    CryptoWallets w' = CryptoWallets w.
Proof.
  intros ts.
  set (w0 := emit EvNow (tick w)).
  assert (R : runs
    (holdings <- fetch_data QManualHoldings ManualHoldings ;;
     tracked_items <- fetch_data QTrackedTickers
                        (fun w => map tr_Ticker (TrackedCurrenciesIndexes w)) ;;
     for_each holdings (value_holding env ts) ;;
     for_each tracked_items (record_rate env ts) ;;
     solana_wallets <- fetch_solana_wallets ;;
     for_each solana_wallets (fun '(wallet_address, alias) =>
       process_solana_wallet_holdings env wallet_address alias ts))
    w0 tt (run_manual env w ts ++ run_wallets env w ts) (run_rates env w ts)).
  { eapply runs_bind0; [apply runs_fetch_data|]. intros w1 S1.
    eapply runs_bind0; [apply runs_fetch_data|]. intros w2 S2.
    cbn [ManualHoldings TrackedCurrenciesIndexes emit tick w0].
    pose proof (step_trans _ _ _ _ _ _ _ S1 S2) as S12. cbn [app] in S12.
    replace (TrackedCurrenciesIndexes w1) with (TrackedCurrenciesIndexes w)
      by (destruct S1 as (_ & E & _); rewrite E; reflexivity).
    replace (run_rates env w ts) with (run_rates env w ts ++ [])%list
      by apply app_nil_r.
    apply (runs_bind _ _ w2 tt tt _ _ [] _).
    - replace (run_manual env w ts)
        with (flat_map (manual_rows env (TrackedCurrenciesIndexes w2) ts)
                       (ManualHoldings w)).
      + apply runs_manual_holdings.
      + destruct S12 as (_ & E & _). rewrite E. reflexivity.
    - intros w3 S3.
      apply (runs_bind _ _ w3 tt tt [] _ _ []).
      + apply runs_tracked_items.
      + intros w4 S4.
        eapply runs_bind0; [apply runs_fetch_data|]. intros w5 S5.
        cbn [CryptoWallets emit].
        pose proof (step_trans _ _ _ _ _ _ _ S12 S3) as S123.
        pose proof (step_trans _ _ _ _ _ _ _ S123 S4) as S1234.
        pose proof (step_trans _ _ _ _ _ _ _ S1234 S5) as S15.
        destruct S1234 as (_ & _ & Ec & _ & _ & Er & _).
        destruct S15 as (_ & _ & _ & _ & _ & Er5 & _).
        cbn [app] in Er, Er5. rewrite app_nil_r in Er5.
        rewrite Ec. cbn [CryptoWallets emit tick w0].
        unfold run_wallets.
        replace (HistoricalRates w ++ run_rates env w ts)%list
          with (HistoricalRates w5) by (rewrite Er5; reflexivity).
        apply runs_solana_wallets. }
  destruct R as (w' & Hrun & (A1 & A2 & A3 & A4 & A5 & A6 & evs & A7 & A8)).
  exists w', evs.
  split.
  { unfold update_holdings_and_rates, bind, datetime_now. exact Hrun. }
  cbn [w0 emit tick ManualHoldings TrackedCurrenciesIndexes CryptoWallets
       clock_reads AssetsHistoricalValues HistoricalRates log] in *.
  repeat split; try assumption.
  rewrite A7, <- app_assoc. reflexivity.
Qed.

(** The results of the resolver and of the converter do not depend on the
    world they are called in, beyond the registry. *)
Lemma get_latest_price_result (env : Env) (ticker : string) (w w1 : World)
    (r : option quote) :
  get_latest_price env ticker w = Some (r, w1) -> r = latest_price env ticker.
Proof.
  intros H. destruct (runs_get_latest_price env ticker w) as (w' & H' & _).
  congruence.
Qed.

Lemma get_usd_exchange_rate_result (env : Env) (currency : string) (w w1 : World)
    (r : option Dec.t) :
  get_usd_exchange_rate env currency w = Some (r, w1) ->
  r = usd_rate env (TrackedCurrenciesIndexes w) currency.
Proof.
  intros H. destruct (runs_get_usd_exchange_rate env currency w) as (w' & H' & _).
  congruence.
Qed.

Lemma manual_rows_timestamp (env : Env) (registry : list tracked) (ts : Z)
    (h : holding) (v : valuation) :
  In v (manual_rows env registry ts h) -> Timestamp v = ts.
Proof.
  unfold manual_rows.
  destruct (latest_price env (h_Ticker h)); [|intros []].
  destruct (String.eqb (h_Platform h) "Solana").
  - intros [<-|[]]. reflexivity.
  - destruct (usd_rate env registry (h_NativeCurrency h)); [|intros []].
    intros [<-|[]]. reflexivity.
Qed.

Lemma rate_rows_timestamp (env : Env) (ts : Z) (ticker : string) (r : rate) :
  In r (rate_rows env ts ticker) -> r_Timestamp r = ts.
Proof.
  unfold rate_rows. destruct (latest_price env ticker); [|intros []].
  intros [<-|[]]. reflexivity.
Qed.

Lemma wallet_rows_timestamp (env : Env) (rates : list rate) (ts : Z)
    (wa : string * string) (v : valuation) :
  In v (wallet_rows env rates ts wa) -> Timestamp v = ts.
Proof.
  unfold wallet_rows. intros H. apply in_flat_map in H.
  destruct H as (a & _ & H).
  destruct (wallet_record (fst wa) ts a) as [v'|] eqn:E; [|destruct H].
  destruct H as [<-|[]]. eapply wallet_record_timestamp; eassumption.
Qed.

(** C2. A run reads the clock once, before anything else it does, and
    every row it appends to AssetsHistoricalValues (for the manual
    holdings and for the wallets' assets) and to HistoricalRates carries
    that reading. *)
Theorem run_shares_one_timestamp (env : Env) (w : World) :
  exists w' evs,
    update_holdings_and_rates env w = Some (tt, w') /\
    log w' = (log w ++ EvNow :: evs)%list /\ ~ In EvNow evs /\
    clock_reads w' = S (clock_reads w) /\
    exists manual wallets rates,
      AssetsHistoricalValues w' = (AssetsHistoricalValues w ++ manual ++ wallets)%list /\
      HistoricalRates w' = (HistoricalRates w ++ rates)%list /\
      Forall (fun v => Timestamp v = clock env (clock_reads w)) manual /\
      Forall (fun v => Timestamp v = clock env (clock_reads w)) wallets /\
      Forall (fun r => r_Timestamp r = clock env (clock_reads w)) rates.
Proof.
  destruct (update_holdings_and_rates_run env w)
    as (w' & evs & Hrun & Ha & Hr & Hc & Hl & Hn & _).
  exists w', evs. repeat (split; [assumption|]).
  set (ts := clock env (clock_reads w)) in *.
  exists (run_manual env w ts), (run_wallets env w ts), (run_rates env w ts).
  repeat (split; [assumption|]).
  split; [|split]; apply Forall_forall; intros x Hx;
    apply in_flat_map in Hx; destruct Hx as (y & _ & Hx).
  - eapply manual_rows_timestamp; eassumption.
  - eapply wallet_rows_timestamp; eassumption.
  - eapply rate_rows_timestamp; eassumption.
Qed.

(** C1. A manual holding of the table whose price resolves to [p] and
    whose rate is [r] (the identity rate on the Solana platform, the
    converter's answer otherwise) gets, in the run, a row with native
    price [p], USD price [p * r], native total [amount * p] and USD total
    [amount * (p * r)], the products being those of [Decimal]; when the
    coefficients are short enough for the context not to round, the USD
    total is the exact product of the three numbers. *)
Theorem manual_holding_valuation (env : Env) (w : World) (h : holding)
    (p : quote) (r : Dec.t) :
  In h (ManualHoldings w) ->
  (exists w1, get_latest_price env (h_Ticker h) w = Some (Some p, w1)) ->
  (h_Platform h = "Solana" /\ r = Dec.one_point_zero
   \/
   h_Platform h <> "Solana" /\
   exists w1, get_usd_exchange_rate env (h_NativeCurrency h) w = Some (Some r, w1)) ->
  exists w' rows v,
    update_holdings_and_rates env w = Some (tt, w') /\
    AssetsHistoricalValues w' = (AssetsHistoricalValues w ++ rows)%list /\
    In v rows /\
    Platform v = h_Platform h /\ AccountWallet v = h_AccountWallet h /\
    AssetType v = h_AssetType h /\ AssetName v = h_AssetName h /\
    Ticker v = h_Ticker h /\ Amount v = h_Amount h /\
    NativePrice v = p /\
    USDPrice v = Dec.mul p r /\
    TotalNative v = Dec.mul (h_Amount h) p /\
    TotalUSD v = Dec.mul (h_Amount h) (USDPrice v) /\
    TotalUSD v = Dec.mul (h_Amount h) (Dec.mul p r) /\
    ((Dec.coeff p * Dec.coeff r < 10 ^ 28)%N ->
     (Dec.coeff (h_Amount h) * (Dec.coeff p * Dec.coeff r) < 10 ^ 28)%N ->
     (Dec.val (TotalUSD v) == Dec.val (h_Amount h) * Dec.val p * Dec.val r)%Q).
Proof.
  intros Hin (w1 & Hp) Hr.
  apply get_latest_price_result in Hp.
  destruct (update_holdings_and_rates_run env w)
    as (w' & evs & Hrun & Ha & _).
  set (ts := clock env (clock_reads w)) in *.
  assert (Hrow : exists cur,
             manual_rows env (TrackedCurrenciesIndexes w) ts h
             = [manual_row h cur p r ts]).
  { unfold manual_rows. rewrite <- Hp.
    destruct Hr as [(Hs & ->) | (Hs & w2 & Hr)].
    - apply String.eqb_eq in Hs. rewrite Hs. eauto.
    - apply String.eqb_neq in Hs. rewrite Hs.
      apply get_usd_exchange_rate_result in Hr. rewrite <- Hr. eauto. }
  destruct Hrow as (cur & Hrow).
  exists w', (run_manual env w ts ++ run_wallets env w ts)%list,
         (manual_row h cur p r ts).
  split; [exact Hrun|]. split; [exact Ha|].
  split.
  { apply in_or_app. left. unfold run_manual. apply in_flat_map.
    exists h. split; [exact Hin|]. rewrite Hrow. left. reflexivity. }
  cbn [manual_row Platform AccountWallet AssetType AssetName Ticker Amount
       NativePrice USDPrice TotalNative TotalUSD].
  repeat (split; [reflexivity|]).
  intros H1 H2.
  rewrite (mul_exact p r H1).
  rewrite mul_exact by exact H2.
  rewrite !val_mk_mul. ring.
Qed.

(** ** The wallet asset normalizer *)

Lemma val_of_Z_10 : (Dec.val (Dec.of_Z 10) == 10)%Q.
Proof. rewrite val_of_Z. reflexivity. Qed.

Lemma gtb_10 (d : Dec.t) :
  Dec.gtb d (Dec.of_Z 10) = negb (Qle_bool (Dec.val d) 10).
Proof.
  destruct (Qle_bool (Dec.val d) 10) eqn:E; simpl.
  - apply gtb_false_val. rewrite val_of_Z_10. now apply Qle_bool_iff.
  - apply gtb_val. rewrite val_of_Z_10. apply Qnot_le_lt.
    intros H. apply Qle_bool_iff in H. congruence.
Qed.

(** C3. The dust filter keeps, in order, exactly the assets of the
    combined list whose total value is greater than 10: an asset worth 10
    or less is dropped, one worth exactly 10 included. *)
Theorem dust_filter (native_sol : option asset) (other_assets : list asset) :
  combine_and_filter_assets native_sol other_assets
  = filter (fun a => negb (Qle_bool (Dec.val (total_price a)) 10))
           (all_assets native_sol other_assets)
  /\
  forall a,
    (In a (combine_and_filter_assets native_sol other_assets) <->
     In a (all_assets native_sol other_assets) /\ (10 < Dec.val (total_price a))%Q)
    /\
    ((Dec.val (total_price a) <= 10)%Q ->
     ~ In a (combine_and_filter_assets native_sol other_assets))
    /\
    ((Dec.val (total_price a) == 10)%Q ->
     ~ In a (combine_and_filter_assets native_sol other_assets)).
Proof.
  assert (E : combine_and_filter_assets native_sol other_assets
              = filter (fun a => Dec.gtb (total_price a) (Dec.of_Z 10))
                       (all_assets native_sol other_assets)).
  { unfold combine_and_filter_assets, all_assets. destruct native_sol; reflexivity. }
  split.
  - rewrite E. apply filter_ext. intros a. apply gtb_10.
  - intros a.
    assert (Hiff : In a (combine_and_filter_assets native_sol other_assets) <->
                   In a (all_assets native_sol other_assets) /\
                   (10 < Dec.val (total_price a))%Q).
    { rewrite E, filter_In, gtb_val, val_of_Z_10. reflexivity. }
    split; [exact Hiff|]. split.
    + intros Hle Hin. apply Hiff in Hin. destruct Hin as [_ Hlt].
      exact (Qlt_not_le _ _ Hlt Hle).
    + intros Heq Hin. apply Hiff in Hin. destruct Hin as [_ Hlt].
      rewrite Heq in Hlt. exact (Qlt_irrefl _ Hlt).
Qed.

Lemma val_zero_coeff (d : Dec.t) : Dec.coeff d = 0%N -> (Dec.val d == 0)%Q.
Proof.
  intros H. unfold Dec.val. rewrite H. destruct (Dec.sign d); simpl; apply Qmult_0_l.
Qed.

Lemma eqb_zero_val (d : Dec.t) :
  Dec.eqb d (Dec.of_Z 0) = true <-> (Dec.val d == 0)%Q.
Proof. rewrite eqb_val, val_of_Z. reflexivity. Qed.






(** C10. Processing a wallet never raises, and writes one row per asset
    that passed the dust filter.  For such an asset with a zero balance
    the guard gives the unit prices [Decimal('0')] and the row keeps the
    reported total, where the division itself would have raised. *)
Theorem zero_balance_is_recorded (env : Env) (wallet_address alias : string)
    (ts : Z) (w : World) :
  exists w' rows,
    process_solana_wallet_holdings env wallet_address alias ts w = Some (tt, w') /\
    AssetsHistoricalValues w' = (AssetsHistoricalValues w ++ rows)%list /\
    Forall2 (fun a v => wallet_record wallet_address ts a = Some v)
            (wallet_assets env (HistoricalRates w) wallet_address) rows /\
    forall a,
      In a (wallet_assets env (HistoricalRates w) wallet_address) ->
      (Dec.val (balance a) == 0)%Q ->
      Dec.div (total_price a) (balance a) = None /\
      exists v,
        In v rows /\ wallet_record wallet_address ts a = Some v /\
        AssetName v = symbol a /\ Amount v = balance a /\
        NativePrice v = Dec.zero /\ USDPrice v = Dec.zero /\
        TotalNative v = total_price a /\ TotalUSD v = total_price a.
Proof.
  destruct (runs_process_solana_wallet_holdings env wallet_address alias ts w)
    as (w' & Hrun & (_ & _ & _ & _ & Ha & _)).
  unfold wallet_rows in Ha. cbn [fst] in Ha.
  set (assets := wallet_assets env (HistoricalRates w) wallet_address) in *.
  exists w', (flat_map (fun a => opt_list (wallet_record wallet_address ts a)) assets).
  split; [exact Hrun|]. split; [exact Ha|]. split.
  - clear. induction assets as [|a rest IH]; simpl; [constructor|].
    destruct (wallet_record_defined wallet_address ts a) as (v & Hv).
    rewrite Hv. simpl. constructor; assumption.
  - intros a Hin Hz.
    apply eqb_zero_val in Hz. pose proof Hz as Hc. apply eqb_zero in Hc.
    split; [apply div_by_zero; exact Hc|].
    assert (Hrec : wallet_record wallet_address ts a
                   = Some {| Platform := "Solana"; AccountWallet := wallet_address;
                             AssetType := "Crypto"; AssetName := symbol a;
                             Ticker := symbol a ++ "-USD"; Amount := balance a;
                             NativeCurrency := "USD"; NativePrice := Dec.zero;
                             USDPrice := Dec.zero; TotalNative := total_price a;
                             TotalUSD := total_price a; Timestamp := ts |}).
    { unfold wallet_record, unit_price. rewrite Hz. reflexivity. }
    eexists. split; [|split; [exact Hrec|repeat split]].
    apply in_flat_map. exists a. split; [exact Hin|].
    rewrite Hrec. left. reflexivity.
Qed.

(** ** The native balance and the cached SOL rate *)

Lemma latest_None (rows : list rate) : latest rows = None <-> rows = [].
Proof.
  split.
  - destruct rows as [|r rs]; [reflexivity|]. simpl.
    destruct (latest rs) as [r'|]; [|discriminate].
    destruct (r_Timestamp r' <? r_Timestamp r); discriminate.
  - intros ->. reflexivity.
Qed.

Lemma latest_Some (rows : list rate) :
  forall r, latest rows = Some r ->
            In r rows /\ forall r', In r' rows -> r_Timestamp r' <= r_Timestamp r.
Proof.
  induction rows as [|x rs IH]; intros r H; simpl in H; [discriminate|].
  destruct (latest rs) as [r0|] eqn:E.
  - destruct (IH r0 eq_refl) as [Hin Hmax].
    destruct (Z.ltb_spec (r_Timestamp r0) (r_Timestamp x)) as [L|L];
      injection H as <-.
    + split; [left; reflexivity|].
      intros r' [<-|Hr']; [lia|]. specialize (Hmax r' Hr'). lia.
    + split; [right; exact Hin|].
      intros r' [<-|Hr']; [lia|]. apply Hmax; exact Hr'.
  - injection H as <-. apply latest_None in E. subst rs.
    split; [left; reflexivity|]. intros r' [<-|[]]. lia.
Qed.

Lemma sol_rates_In (rates : list rate) (r : rate) :
  In r (sol_rates rates) <-> In r rates /\ r_Ticker r = "SOL-USD".
Proof. unfold sol_rates. rewrite filter_In, String.eqb_eq. reflexivity. Qed.



(** ** The total of the latest snapshot *)

Lemma max_timestamp_None (rows : list valuation) :
  max_timestamp rows = None <-> rows = [].
Proof.
  split.
  - destruct rows as [|v vs]; [reflexivity|]. simpl.
    destruct (max_timestamp vs); discriminate.
  - intros ->. reflexivity.
Qed.

Lemma max_timestamp_Some (rows : list valuation) :
  forall m, max_timestamp rows = Some m -> is_max_timestamp m rows.
Proof.
  induction rows as [|v vs IH]; intros m H; simpl in H; [discriminate|].
  destruct (max_timestamp vs) as [m0|] eqn:E.
  - injection H as <-. destruct (IH m0 eq_refl) as [(v0 & Hin0 & Ht0) Hmax].
    split.
    + destruct (Z.max_spec (Timestamp v) m0) as [[_ ->]|[_ ->]].
      * exists v0. split; [right; exact Hin0 | exact Ht0].
      * exists v. split; [left; reflexivity | reflexivity].
    + intros v' [<-|Hin']; [lia|]. specialize (Hmax v' Hin'). lia.
  - injection H as <-. apply max_timestamp_None in E. subst vs.
    split.
    + exists v. split; [left; reflexivity | reflexivity].
    + intros v' [<-|[]]. lia.
Qed.

Lemma is_max_timestamp_unique (m m' : Z) (rows : list valuation) :
  is_max_timestamp m rows -> is_max_timestamp m' rows -> m = m'.
Proof.
  intros [(v & Hin & Ht) Hmax] [(v' & Hin' & Ht') Hmax'].
  specialize (Hmax v' Hin'). specialize (Hmax' v Hin). lia.
Qed.

Lemma sql_sum_None (xs : list Dec.t) : sql_sum xs = None <-> xs = [].
Proof.
  split.
  - destruct xs as [|x rest]; [reflexivity|]. simpl.
    destruct (sql_sum rest); discriminate.
  - intros ->. reflexivity.
Qed.

Lemma sql_sum_val (xs : list Dec.t) :
  forall s, sql_sum xs = Some s -> (Dec.val s == Qsum (map Dec.val xs))%Q.
Proof.
  induction xs as [|x rest IH]; intros s H; simpl in H; [discriminate|].
  destruct (sql_sum rest) as [s0|] eqn:E.
  - injection H as <-. rewrite val_add_exact. simpl.
    rewrite (IH s0 eq_refl). reflexivity.
  - injection H as <-. apply sql_sum_None in E. subst rest. simpl.
    unfold Qsum; simpl. ring.
Qed.

Lemma calculate_total_usd_value_eq (w : World) :
  let w0 := emit (EvFetch QTotalUSD) w in
  calculate_total_usd_value w
  = match sum_total_usd w with
    | Some s => if truthy s then Some (s, emit (EvLog INFO) w0)
                else Some (Dec.zero, emit (EvLog WARNING) w0)
    | None => Some (Dec.zero, emit (EvLog WARNING) w0)
    end.
Proof.
  cbv zeta. unfold calculate_total_usd_value.
  cbv [bind fetch_data modify gets].
  change (sum_total_usd (emit (EvFetch QTotalUSD) w)) with (sum_total_usd w).
  destruct (sum_total_usd w) as [s|]; [|reflexivity].
  destruct (truthy s); reflexivity.
Qed.

(** C6. The aggregator returns a decimal whose value is the sum of the
    USD totals of the rows that carry the latest timestamp of the table,
    and writes nothing; on an empty table it returns [Decimal('0')] after
    logging a warning. *)
Theorem calculate_total_usd_value_spec (w : World) :
  exists d w',
    calculate_total_usd_value w = Some (d, w') /\
    same_store w w' /\
    (AssetsHistoricalValues w = [] ->
     d = Dec.zero /\
     w' = emit (EvLog WARNING) (emit (EvFetch QTotalUSD) w)) /\
    (forall m,
        is_max_timestamp m (AssetsHistoricalValues w) ->
        (Dec.val d ==
         Qsum (map (fun v => Dec.val (TotalUSD v))
                   (filter (fun v => Timestamp v =? m) (AssetsHistoricalValues w))))%Q).
Proof.
  rewrite calculate_total_usd_value_eq. cbv zeta.
  set (w0 := emit (EvFetch QTotalUSD) w).
  unfold sum_total_usd, latest_snapshot.
  destruct (max_timestamp (AssetsHistoricalValues w)) as [m0|] eqn:Em.
  - apply max_timestamp_Some in Em.
    set (col := map TotalUSD
                    (filter (fun v => Timestamp v =? m0) (AssetsHistoricalValues w))).
    assert (Hsum : forall m, is_max_timestamp m (AssetsHistoricalValues w) ->
                   (Qsum (map Dec.val col) ==
                    Qsum (map (fun v => Dec.val (TotalUSD v))
                              (filter (fun v => Timestamp v =? m)
                                      (AssetsHistoricalValues w))))%Q).
    { intros m Hm. rewrite (is_max_timestamp_unique m m0 _ Hm Em).
      unfold col. rewrite map_map. reflexivity. }
    assert (Hne : AssetsHistoricalValues w <> []).
    { destruct Em as [(v & Hin & _) _]. intros E. rewrite E in Hin. destruct Hin. }
    destruct (sql_sum col) as [s|] eqn:Es.
    + pose proof (sql_sum_val col s Es) as Hs.
      destruct (truthy s) eqn:Et.
      * exists s, (emit (EvLog INFO) w0).
        split; [reflexivity|]. split; [repeat split|].
        split; [intros E; contradiction|].
        intros m Hm. rewrite Hs. apply Hsum; exact Hm.
      * exists Dec.zero, (emit (EvLog WARNING) w0).
        split; [reflexivity|]. split; [repeat split|].
        split; [intros E; contradiction|].
        intros m Hm. rewrite <- (Hsum m Hm), <- Hs.
        unfold truthy in Et. apply negb_false_iff in Et. apply N.eqb_eq in Et.
        rewrite (val_zero_coeff s Et). reflexivity.
    + exists Dec.zero, (emit (EvLog WARNING) w0).
      split; [reflexivity|]. split; [repeat split|].
      split; [intros E; contradiction|].
      intros m Hm. rewrite <- (Hsum m Hm).
      apply sql_sum_None in Es. rewrite Es. reflexivity.
  - apply max_timestamp_None in Em.
    exists Dec.zero, (emit (EvLog WARNING) w0).
    split; [reflexivity|]. split; [repeat split|].
    split; [intros _; split; reflexivity|].
    intros m [(v & Hin & _) _]. rewrite Em in Hin. destruct Hin.
Qed.

(** * Further properties *)

(** ** Token balances *)

Lemma ndigits_aux_ge (k : nat) :
  forall (fuel : nat) (n : N),
    (10 ^ N.of_nat k <= n)%N -> (k <= fuel)%nat ->
    (S k <= Dec.ndigits_aux fuel n)%nat.
Proof.
  induction k as [|k IH]; intros fuel n Hn Hf.
  - destruct fuel; simpl; [lia|]. destruct (n <? 10)%N; lia.
  - destruct fuel as [|f]; [lia|]. simpl.
    replace (N.of_nat (S k)) with (N.succ (N.of_nat k)) in Hn by lia.
    rewrite N.pow_succ_r' in Hn.
    assert (H1 : (1 <= 10 ^ N.of_nat k)%N).
    { pose proof (N.pow_nonzero 10 (N.of_nat k)). lia. }
    destruct (N.ltb_spec n 10) as [Hlt|_]; [lia|].
    apply le_n_S, IH; [|lia].
    apply N.div_le_lower_bound; [discriminate | exact Hn].
Qed.

Lemma ndigits_pow10 (d : nat) : (S d <= Dec.ndigits (10 ^ N.of_nat d))%nat.
Proof.
  unfold Dec.ndigits. apply ndigits_aux_ge; [lia|].
  assert (H : (N.of_nat d <= N.log2 (10 ^ N.of_nat d))%N).
  { rewrite <- (N.log2_pow2 (N.of_nat d)) at 1 by lia.
    apply N.log2_le_mono. apply N.pow_le_mono_l. lia. }
  lia.
Qed.

(** The loop that strips zeros keeps the value of the quotient. *)
Lemma strip_value (k : nat) :
  forall (c : N) (e : Z) (c' : N) (e' : Z),
    Dec.strip k c e = (c', e') ->
    e <= e' /\ c = (c' * 10 ^ Z.to_N (e' - e))%N.
Proof.
  induction k as [|k IH]; intros c e c' e' H; simpl in H.
  - injection H as <- <-. split; [lia|].
    rewrite Z.sub_diag. simpl. lia.
  - destruct (N.eqb_spec (c mod 10) 0) as [Hm|Hm].
    + apply IH in H. destruct H as [He Hc]. split; [lia|].
      replace (Z.to_N (e' - e)) with (N.succ (Z.to_N (e' - (e + 1)))) by lia.
      rewrite N.pow_succ_r'.
      rewrite (N.div_mod c 10) by discriminate. rewrite Hm, Hc. lia.
    + injection H as <- <-. split; [lia|].
      rewrite Z.sub_diag. simpl. lia.
Qed.

Lemma strip_pow10_first (j : nat) :
  forall (k : nat) (m : N) (e : Z),
    (j <= k)%nat ->
    Dec.strip k (m * 10 ^ N.of_nat j) e = Dec.strip (k - j) m (e + Z.of_nat j).
Proof.
  induction j as [|j IH]; intros k m e Hk.
  - simpl. rewrite N.mul_1_r, Nat.sub_0_r. f_equal. lia.
  - destruct k as [|k]; [lia|].
    replace (N.of_nat (S j)) with (N.succ (N.of_nat j)) by lia.
    rewrite N.pow_succ_r'.
    replace (m * (10 * 10 ^ N.of_nat j))%N with ((m * 10 ^ N.of_nat j) * 10)%N by lia.
    simpl Dec.strip.
    rewrite N.Div0.mod_mul, N.eqb_refl.
    rewrite N.div_mul by discriminate.
    rewrite IH by lia. simpl. f_equal. lia.
Qed.

Lemma val_scale (s : bool) (c : N) (e : Z) (x : N) :
  (Dec.val (Dec.mk s (c * 10 ^ x) e) == Dec.val (Dec.mk s c (e + Z.of_N x)))%Q.
Proof.
  unfold Dec.val; simpl.
  rewrite (Qpower_plus 10 e (Z.of_N x) ten_neq_0).
  rewrite N2Z.inj_mul, N2Z.inj_pow.
  rewrite Z.mul_assoc, inject_Z_mult.
  rewrite (Zpower_Qpower 10 (Z.of_N x)) by lia.
  change (inject_Z 10) with (10 : Q). ring.
Qed.

(** Dividing an integer of at most 28 digits by a power of ten is exact. *)
Lemma div_pow10_val (n : Z) (d : nat) :
  Z.abs n < 10 ^ 28 ->
  exists q,
    Dec.div (Dec.of_Z n) (Dec.of_Z (10 ^ Z.of_nat d)) = Some q /\
    (Dec.val q == inject_Z n / inject_Z (10 ^ Z.of_nat d))%Q.
Proof.
  intros Hn.
  assert (Hc : (Z.abs_N n < 10 ^ 28)%N).
  { apply N2Z.inj_lt. rewrite N2Z.inj_abs_N. exact Hn. }
  assert (Hp : 0 < 10 ^ Z.of_nat d) by (apply Z.pow_pos_nonneg; lia).
  assert (Hb : Z.abs_N (10 ^ Z.of_nat d) = (10 ^ N.of_nat d)%N).
  { apply N2Z.inj. rewrite N2Z.inj_abs_N, N2Z.inj_pow, nat_N_Z. simpl. lia. }
  assert (Hgoal : forall c e,
             (Z.abs_N n = c * 10 ^ Z.to_N (e + Z.of_nat d))%N -> - Z.of_nat d <= e ->
             (Dec.val (Dec.mk (n <? 0) c e)
              == inject_Z n / inject_Z (10 ^ Z.of_nat d))%Q).
  { intros c e Hce He.
    assert (Hv : (Dec.val (Dec.mk (n <? 0) (Z.abs_N n) (- Z.of_nat d))
                  == Dec.val (Dec.mk (n <? 0) c e))%Q).
    { rewrite Hce, val_scale. rewrite Z2N.id by lia.
      replace (- Z.of_nat d + (e + Z.of_nat d)) with e by lia. reflexivity. }
    rewrite <- Hv. unfold Dec.val; simpl.
    rewrite N2Z.inj_abs_N.
    replace ((if n <? 0 then -1 else 1) * Z.abs n) with n
      by (destruct (Z.ltb_spec n 0); lia).
    rewrite Qpower_opp. rewrite (Zpower_Qpower 10 (Z.of_nat d)) by lia.
    reflexivity. }
  unfold Dec.div, Dec.of_Z. cbn [Dec.coeff Dec.sign Dec.exp].
  replace (10 ^ Z.of_nat d <? 0) with false by (symmetry; apply Z.ltb_ge; lia).
  rewrite xorb_false_r, Hb.
  destruct (N.eqb_spec (10 ^ N.of_nat d) 0) as [E|_].
  { exfalso. apply (N.pow_nonzero 10 (N.of_nat d)); [discriminate | exact E]. }
  destruct (N.eqb_spec (Z.abs_N n) 0) as [E|E].
  - eexists. split; [reflexivity|].
    rewrite fix_small by reflexivity.
    assert (n = 0) by lia. subst n. simpl.
    unfold Dec.val; simpl. unfold Qdiv. rewrite !Qmult_0_l. reflexivity.
  - cbv zeta.
    pose proof (ndigits_le _ 27 Hc) as Hda.
    pose proof (ndigits_pos (Z.abs_N n)) as Hda1.
    pose proof (ndigits_pow10 d) as Hdb.
    set (shift := Z.of_nat (Dec.ndigits (10 ^ N.of_nat d))
                  - Z.of_nat (Dec.ndigits (Z.abs_N n)) + Z.of_nat Dec.prec + 1).
    assert (Hs : Z.of_nat d + 2 <= shift) by (unfold shift, Dec.prec; lia).
    destruct (Z.leb_spec 0 shift) as [_|?]; [|lia].
    set (j := (Z.to_nat shift - d)%nat).
    assert (Hnum : (Z.abs_N n * 10 ^ Z.to_N shift
                    = (Z.abs_N n * 10 ^ N.of_nat j) * 10 ^ N.of_nat d)%N).
    { rewrite <- N.mul_assoc, <- N.pow_add_r. do 2 f_equal. unfold j. lia. }
    rewrite Hnum.
    rewrite N.div_mul by (apply N.pow_nonzero; discriminate).
    rewrite N.Div0.mod_mul. cbn [N.eqb].
    replace (Z.to_nat (0 - 0 - (0 - 0 - shift))) with (Z.to_nat shift) by lia.
    rewrite strip_pow10_first by (unfold j; lia).
    destruct (Dec.strip (Z.to_nat shift - j) (Z.abs_N n)
                        (0 - 0 - shift + Z.of_nat j)) as [c e] eqn:Es.
    apply strip_value in Es. destruct Es as [He Hce].
    assert (Hcn : (c <= Z.abs_N n)%N).
    { rewrite Hce.
      assert (1 <= 10 ^ Z.to_N (e - (0 - 0 - shift + Z.of_nat j)))%N.
      { pose proof (N.pow_nonzero 10 (Z.to_N (e - (0 - 0 - shift + Z.of_nat j)))).
        lia. }
      nia. }
    eexists. split; [reflexivity|].
    rewrite fix_small by (cbn [Dec.coeff]; lia).
    apply Hgoal.
    + rewrite Hce at 1. do 2 f_equal. unfold j. lia.
    + unfold j in He. lia.
Qed.

(** X1. The balance of a fungible asset is the token's integer balance
    with the decimal point moved by its number of decimals, exactly, for
    balances below 10^28; missing keys count as balance 0 and 0 decimals. *)
Theorem token_balance_exact (tk : token) (n : Z) (d : nat) :
  get (ti_balance (get (tok_token_info tk) no_token_info)) 0 = n ->
  get (ti_decimals (get (tok_token_info tk) no_token_info)) 0%nat = d ->
  Z.abs n < 10 ^ 28 ->
  exists a,
    asset_of_token tk = Some a /\
    (Dec.val (balance a) == inject_Z n / inject_Z (10 ^ Z.of_nat d))%Q.
Proof.
  intros Hn Hd Hb.
  destruct (div_pow10_val n d Hb) as (q & Hq & Hv).
  unfold asset_of_token. rewrite Hn, Hd, Hq.
  eexists. split; [reflexivity | exact Hv].
Qed.

(** ** Fungible assets and wallet rows *)

(** X2. A token without price information (no "token_info", no
    "price_info" or no "total_price") is given the total 0 and never
    passes the dust filter, whatever its balance. *)
Theorem unpriced_token_is_dropped (tk : token) (a : asset)
    (native_sol : option asset) (other_assets : list asset) :
  asset_of_token tk = Some a ->
  pi_total_price (get (ti_price_info (get (tok_token_info tk) no_token_info))
                      no_price_info) = None ->
  total_price a = Dec.of_Z 0 /\
  ~ In a (combine_and_filter_assets native_sol other_assets).
Proof.
  intros Ha Hp.
  assert (Ht : total_price a = Dec.of_Z 0).
  { unfold asset_of_token in Ha. rewrite Hp in Ha.
    destruct (Dec.div _ _); [|discriminate].
    injection Ha as <-. reflexivity. }
  split; [exact Ht|].
  intros Hin. unfold combine_and_filter_assets in Hin.
  apply filter_In in Hin. destruct Hin as [_ Hg].
  rewrite Ht in Hg. discriminate Hg.
Qed.

Lemma wallet_assets_above_dust (env : Env) (rates : list rate)
    (wallet_address : string) (a : asset) :
  In a (wallet_assets env rates wallet_address) ->
  (10 < Dec.val (total_price a))%Q.
Proof.
  unfold wallet_assets, combine_and_filter_assets. intros H.
  apply filter_In in H. destruct H as [_ H].
  apply gtb_val in H. rewrite val_of_Z_10 in H. exact H.
Qed.

(** X3. Every row written for a wallet is a Solana/Crypto row of that
    wallet, quoted in USD, with the ticker [symbol-USD], equal native and
    USD unit prices, equal native and USD totals, a total above the dust
    threshold of 10 and the timestamp it was given. *)
Theorem wallet_rows_shape (env : Env) (wallet_address alias : string)
    (ts : Z) (w : World) :
  exists w' rows,
    process_solana_wallet_holdings env wallet_address alias ts w = Some (tt, w') /\
    AssetsHistoricalValues w' = (AssetsHistoricalValues w ++ rows)%list /\
    Forall (fun v =>
              Platform v = "Solana" /\ AccountWallet v = wallet_address /\
              AssetType v = "Crypto" /\ Ticker v = AssetName v ++ "-USD" /\
              NativeCurrency v = "USD" /\ NativePrice v = USDPrice v /\
              TotalNative v = TotalUSD v /\
              (10 < Dec.val (TotalUSD v))%Q /\ Timestamp v = ts) rows.
Proof.
  destruct (runs_process_solana_wallet_holdings env wallet_address alias ts w)
    as (w' & Hrun & (_ & _ & _ & _ & Ha & _)).
  eexists. eexists. split; [exact Hrun|]. split; [exact Ha|].
  apply Forall_forall. intros v Hv.
  unfold wallet_rows in Hv. cbn [fst] in Hv.
  apply in_flat_map in Hv. destruct Hv as (a & Hin & Hv).
  apply wallet_assets_above_dust in Hin.
  unfold wallet_record in Hv.
  destruct (unit_price (total_price a) (balance a)) as [p|]; [|destruct Hv].
  destruct Hv as [<-|[]]. cbn. repeat split. exact Hin.
Qed.

(** ** What a run writes *)

(** X4. A run leaves ManualHoldings, the registry and CryptoWallets as
    they were, and only appends to the two historical tables: the rows
    stored before the run are still there, in place. *)
Theorem run_is_append_only (env : Env) (w w' : World) :
  update_holdings_and_rates env w = Some (tt, w') ->
  ManualHoldings w' = ManualHoldings w /\
  TrackedCurrenciesIndexes w' = TrackedCurrenciesIndexes w /\
  CryptoWallets w' = CryptoWallets w /\
  firstn (List.length (AssetsHistoricalValues w)) (AssetsHistoricalValues w')
  = AssetsHistoricalValues w /\
  firstn (List.length (HistoricalRates w)) (HistoricalRates w')
  = HistoricalRates w.
Proof.
  intros H.
  destruct (update_holdings_and_rates_run env w)
    as (w2 & evs & Hrun & Ha & Hr & _ & _ & _ & Hm & Ht & Hc).
  rewrite Hrun in H. injection H as <-.
  repeat (split; [assumption|]).
  rewrite Ha, Hr. split.
  - rewrite firstn_app, Nat.sub_diag, firstn_all. simpl. apply app_nil_r.
  - rewrite firstn_app, Nat.sub_diag, firstn_all. simpl. apply app_nil_r.
Qed.

Lemma rate_rows_tickers (env : Env) (ts : Z) (tickers : list string) :
  map r_Ticker (flat_map (rate_rows env ts) tickers)
  = filter (resolves env) tickers.
Proof.
  induction tickers as [|t0 rest IH]; [reflexivity|].
  simpl. rewrite map_app, IH. unfold rate_rows, resolves.
  destruct (latest_price env t0); reflexivity.
Qed.

Lemma rate_rows_price (env : Env) (ts : Z) (tickers : list string) (r : rate) :
  In r (flat_map (rate_rows env ts) tickers) ->
  In (r_Ticker r) tickers /\
  latest_price env (r_Ticker r) = Some (r_Price r) /\ r_Timestamp r = ts.
Proof.
  intros H. apply in_flat_map in H. destruct H as (t0 & Hin & H).
  unfold rate_rows in H. destruct (latest_price env t0) eqn:E; [|destruct H].
  destruct H as [<-|[]]. simpl. auto.
Qed.

(** X5. The rate rows of a run are, in the order of the registry, one
    row for each tracked ticker whose price resolves, with that price and
    the run's timestamp; a ticker without a price gets no row. *)
Theorem rates_of_run (env : Env) (w : World) :
  exists w' rows,
    update_holdings_and_rates env w = Some (tt, w') /\
    HistoricalRates w' = (HistoricalRates w ++ rows)%list /\
    map r_Ticker rows
    = filter (resolves env) (map tr_Ticker (TrackedCurrenciesIndexes w)) /\
    Forall (fun r => latest_price env (r_Ticker r) = Some (r_Price r) /\
                     r_Timestamp r = clock env (clock_reads w)) rows.
Proof.
  destruct (update_holdings_and_rates_run env w)
    as (w' & evs & Hrun & _ & Hr & _).
  exists w', (run_rates env w (clock env (clock_reads w))).
  split; [exact Hrun|]. split; [exact Hr|]. split.
  - apply rate_rows_tickers.
  - apply Forall_forall. intros r Hin.
    apply rate_rows_price in Hin. tauto.
Qed.

(** The cached rate after new observations that are later than the
    stored ones. *)
Lemma sol_price_fresh (old new : list rate) (p : Dec.t) (ts : Z) :
  (forall r, In r old -> r_Ticker r = "SOL-USD" -> r_Timestamp r < ts) ->
  (forall r, In r new -> r_Ticker r = "SOL-USD" ->
             r_Price r = p /\ r_Timestamp r = ts) ->
  (exists r, In r new /\ r_Ticker r = "SOL-USD") ->
  sol_price (old ++ new) = p.
Proof.
  intros Hold Hnew (r0 & Hin0 & Ht0).
  unfold sol_price.
  destruct (latest (sol_rates (old ++ new))) as [r|] eqn:E.
  - apply latest_Some in E. destruct E as [Hin Hmax].
    apply sol_rates_In in Hin. destruct Hin as [Hin Ht].
    assert (H0 : r_Timestamp r0 <= r_Timestamp r).
    { apply Hmax. apply sol_rates_In. split; [|exact Ht0].
      apply in_or_app. right. exact Hin0. }
    destruct (Hnew r0 Hin0 Ht0) as [_ Hts0].
    apply in_app_or in Hin. destruct Hin as [Hin|Hin].
    + specialize (Hold r Hin Ht). lia.
    + apply (Hnew r Hin Ht).
  - apply latest_None in E.
    assert (H : In r0 (sol_rates (old ++ new))).
    { apply sol_rates_In. split; [|exact Ht0]. apply in_or_app. right. exact Hin0. }
    rewrite E in H. destruct H.
Qed.

(** X6. When SOL-USD is tracked, its price resolves to [p] in the run and
    the stored SOL-USD observations are older than the run's timestamp,
    the native balance of a wallet is valued with [p], the quote of this
    very run: a Solana wallet whose native total [balance * p] exceeds 10
    gets the row (SOL, balance, balance * p). *)
Theorem native_balance_uses_fresh_quote (env : Env) (w : World) (p b : Dec.t)
    (wallet_address alias : string) (res : rpc_result) :
  In "SOL-USD" (map tr_Ticker (TrackedCurrenciesIndexes w)) ->
  (exists w1, get_latest_price env "SOL-USD" w = Some (Some p, w1)) ->
  (forall r, In r (HistoricalRates w) -> r_Ticker r = "SOL-USD" ->
             r_Timestamp r < clock env (clock_reads w)) ->
  In (wallet_address, alias) (solana_wallets (CryptoWallets w)) ->
  has_result (helius env getAssetsByOwner wallet_address) = Some res ->
  Dec.div (Dec.of_Z (get (nb_lamports (get (res_nativeBalance res)
                                           no_native_balance)) 0)) Dec.e9
  = Some b ->
  (10 < Dec.val (Dec.mul b p))%Q ->
  exists w' v,
    update_holdings_and_rates env w = Some (tt, w') /\
    In v (AssetsHistoricalValues w') /\
    AccountWallet v = wallet_address /\ AssetName v = "SOL" /\
    Amount v = b /\ TotalUSD v = Dec.mul b p /\
    Timestamp v = clock env (clock_reads w).
Proof.
  intros Htr (w1 & Hp) Hold Hw Hres Hb Hgt.
  apply get_latest_price_result in Hp.
  destruct (update_holdings_and_rates_run env w)
    as (w' & evs & Hrun & Ha & _).
  set (ts := clock env (clock_reads w)) in *.
  set (rates := (HistoricalRates w ++ run_rates env w ts)%list) in *.
  assert (Hsp : sol_price rates = p).
  { apply sol_price_fresh with (ts := ts); [exact Hold| |].
    - intros r Hin Ht. apply rate_rows_price in Hin.
      destruct Hin as (_ & Hpr & Hts). rewrite Ht, <- Hp in Hpr.
      split; [congruence | exact Hts].
    - exists {| r_Ticker := "SOL-USD"; r_Price := p; r_Timestamp := ts |}.
      split; [|reflexivity].
      unfold run_rates. apply in_flat_map. exists "SOL-USD".
      split; [exact Htr|]. unfold rate_rows. rewrite <- Hp. left. reflexivity. }
  set (a := {| symbol := "SOL"; balance := b; total_price := Dec.mul b p |}).
  assert (Hin : In a (wallet_assets env rates wallet_address)).
  { unfold wallet_assets, native_sol. rewrite Hres, Hb, Hsp.
    unfold combine_and_filter_assets. apply filter_In. split.
    - left. reflexivity.
    - apply gtb_val. rewrite val_of_Z_10. exact Hgt. }
  destruct (wallet_record_defined wallet_address ts a) as (v & Hv).
  exists w', v. split; [exact Hrun|]. split.
  { rewrite Ha. apply in_or_app. right. apply in_or_app. right.
    unfold run_wallets. apply in_flat_map. exists (wallet_address, alias).
    split; [exact Hw|]. unfold wallet_rows. cbn [fst].
    apply in_flat_map. exists a. split; [exact Hin|].
    rewrite Hv. left. reflexivity. }
  unfold wallet_record in Hv.
  destruct (unit_price (total_price a) (balance a)); [|discriminate].
  injection Hv as <-. repeat split.
Qed.

(** ** The total after a run *)

Lemma val_zero_iff (d : Dec.t) : (Dec.val d == 0)%Q <-> Dec.coeff d = 0%N.
Proof. rewrite <- eqb_zero_val. apply eqb_zero. Qed.

(** The aggregator's answer on a table with rows. *)
Lemma total_of_latest_snapshot (w : World) (m : Z) :
  is_max_timestamp m (AssetsHistoricalValues w) ->
  exists d w',
    calculate_total_usd_value w = Some (d, w') /\
    (Dec.val d ==
     Qsum (map (fun v => Dec.val (TotalUSD v))
               (filter (fun v => Timestamp v =? m) (AssetsHistoricalValues w))))%Q /\
    ((Dec.val d == 0)%Q ->
     d = Dec.zero /\
     w' = emit (EvLog WARNING) (emit (EvFetch QTotalUSD) w)).
Proof.
  intros Hm.
  rewrite calculate_total_usd_value_eq. cbv zeta.
  unfold sum_total_usd, latest_snapshot.
  destruct (max_timestamp (AssetsHistoricalValues w)) as [m0|] eqn:Em.
  - apply max_timestamp_Some in Em.
    rewrite (is_max_timestamp_unique m0 m _ Em Hm).
    rewrite <- (map_map TotalUSD Dec.val).
    set (col := map TotalUSD
                    (filter (fun v => Timestamp v =? m) (AssetsHistoricalValues w))).
    destruct (sql_sum col) as [s|] eqn:Es.
    + pose proof (sql_sum_val col s Es) as Hs.
      destruct (truthy s) eqn:Et.
      * eexists. eexists. split; [reflexivity|]. split; [exact Hs|].
        intros Hz. apply val_zero_iff in Hz.
        unfold truthy in Et. rewrite Hz in Et. discriminate Et.
      * eexists. eexists. split; [reflexivity|]. split.
        -- rewrite <- Hs.
           unfold truthy in Et. apply negb_false_iff in Et. apply N.eqb_eq in Et.
           rewrite (val_zero_coeff s Et). reflexivity.
        -- intros _. split; reflexivity.
    + apply sql_sum_None in Es. rewrite Es.
      eexists. eexists. split; [reflexivity|]. split; [reflexivity|].
      intros _. split; reflexivity.
  - apply max_timestamp_None in Em. destruct Hm as [(v & Hin & _) _].
    rewrite Em in Hin. destruct Hin.
Qed.

Lemma filter_latest_rows (old new : list valuation) (ts : Z) :
  (forall v, In v old -> Timestamp v < ts) ->
  (forall v, In v new -> Timestamp v = ts) ->
  filter (fun v => Timestamp v =? ts) (old ++ new) = new.
Proof.
  intros Hold Hnew. rewrite filter_app.
  replace (filter (fun v => Timestamp v =? ts) old) with (@nil valuation).
  - simpl. induction new as [|v rest IH]; [reflexivity|]. simpl.
    rewrite (Hnew v) by (left; reflexivity). rewrite Z.eqb_refl.
    f_equal. apply IH. intros v' Hv'. apply Hnew. right. exact Hv'.
  - symmetry. induction old as [|v rest IH]; [reflexivity|]. simpl.
    assert (H : Timestamp v < ts) by (apply Hold; left; reflexivity).
    replace (Timestamp v =? ts) with false by (symmetry; apply Z.eqb_neq; lia).
    apply IH. intros v' Hv'. apply Hold. right. exact Hv'.
Qed.

(** X7. After a run that wrote at least one valuation row, at a clock
    reading later than every stored timestamp, the aggregator returns the
    sum of the USD totals of the rows of that run. *)
Theorem total_after_run (env : Env) (w w' : World) (rows : list valuation) :
  update_holdings_and_rates env w = Some (tt, w') ->
  AssetsHistoricalValues w' = (AssetsHistoricalValues w ++ rows)%list ->
  rows <> [] ->
  (forall v, In v (AssetsHistoricalValues w) ->
             Timestamp v < clock env (clock_reads w)) ->
  exists d w'',
    calculate_total_usd_value w' = Some (d, w'') /\
    (Dec.val d == Qsum (map (fun v => Dec.val (TotalUSD v)) rows))%Q.
Proof.
  intros Hrun Ha Hne Hold.
  destruct (update_holdings_and_rates_run env w)
    as (w2 & evs & Hrun2 & Ha2 & _).
  rewrite Hrun in Hrun2. injection Hrun2 as <-.
  set (ts := clock env (clock_reads w)) in *.
  rewrite Ha in Ha2. apply app_inv_head in Ha2.
  assert (Hnew : forall v, In v rows -> Timestamp v = ts).
  { intros v Hv. rewrite Ha2 in Hv. apply in_app_or in Hv.
    destruct Hv as [Hv|Hv]; apply in_flat_map in Hv; destruct Hv as (x & _ & Hv).
    - eapply manual_rows_timestamp; eassumption.
    - eapply wallet_rows_timestamp; eassumption. }
  destruct (total_of_latest_snapshot w' ts) as (d & w'' & Hc & Hv & _).
  { rewrite Ha. split.
    - destruct rows as [|v rest]; [contradiction|].
      exists v. split; [apply in_or_app; right; left; reflexivity|].
      apply Hnew. left. reflexivity.
    - intros v Hv. apply in_app_or in Hv. destruct Hv as [Hv|Hv].
      + specialize (Hold v Hv). lia.
      + rewrite (Hnew v Hv). lia. }
  exists d, w''. split; [exact Hc|].
  rewrite Hv, Ha, (filter_latest_rows _ _ ts Hold Hnew). reflexivity.
Qed.

Lemma first_close_outage (env : Env) (ticker : string) (ps : list string) :
  (forall period, window_fails env ticker period) ->
  first_close env ticker ps = None.
Proof.
  intros H. induction ps as [|p rest IH]; [reflexivity|]. simpl.
  destruct (H p) as [-> | ->]; exact IH.
Qed.

(** X8. When every window of every ticker fails and every wallet request
    fails, a run still completes, writes no row to either historical
    table, and the aggregator returns after it what it returned before:
    the total of the previous snapshot, which is zero only if there is
    none. *)
Theorem outage_keeps_previous_total (env : Env) (w : World) :
  (forall ticker period, window_fails env ticker period) ->
  (forall m wallet_address, helius env m wallet_address = None) ->
  exists w',
    update_holdings_and_rates env w = Some (tt, w') /\
    AssetsHistoricalValues w' = AssetsHistoricalValues w /\
    HistoricalRates w' = HistoricalRates w /\
    forall d w1,
      calculate_total_usd_value w = Some (d, w1) ->
      exists w2, calculate_total_usd_value w' = Some (d, w2).
Proof.
  intros Hq Hh.
  destruct (update_holdings_and_rates_run env w)
    as (w' & evs & Hrun & Ha & Hr & _).
  set (ts := clock env (clock_reads w)) in *.
  assert (Hlp : forall t0, latest_price env t0 = None).
  { intros t0. apply first_close_outage. apply Hq. }
  assert (Hm : run_manual env w ts = []).
  { unfold run_manual. induction (ManualHoldings w) as [|h rest IH]; [reflexivity|].
    simpl. rewrite IH. unfold manual_rows. rewrite Hlp. reflexivity. }
  assert (Hrt : run_rates env w ts = []).
  { unfold run_rates.
    induction (map tr_Ticker (TrackedCurrenciesIndexes w)) as [|t0 rest IH];
      [reflexivity|].
    simpl. rewrite IH. unfold rate_rows. rewrite Hlp. reflexivity. }
  assert (Hw : run_wallets env w ts = []).
  { unfold run_wallets.
    induction (solana_wallets (CryptoWallets w)) as [|wa rest IH]; [reflexivity|].
    simpl. rewrite IH.
    unfold wallet_rows, wallet_assets, native_sol, get_other_assets.
    rewrite !Hh. reflexivity. }
  rewrite Hm, Hw in Ha. rewrite Hrt in Hr. rewrite !app_nil_r in Ha, Hr.
  exists w'. split; [exact Hrun|]. split; [exact Ha|]. split; [exact Hr|].
  intros d w1 Hc.
  rewrite calculate_total_usd_value_eq in Hc |- *. cbv zeta in Hc |- *.
  unfold sum_total_usd in Hc |- *. rewrite Ha.
  destruct (sql_sum (map TotalUSD (latest_snapshot (AssetsHistoricalValues w))))
    as [s|]; [destruct (truthy s)|]; injection Hc as <- _; eexists; reflexivity.
Qed.

(** X9. When the rows of the latest snapshot sum to zero, the aggregator
    answers as on an empty table: it returns [Decimal('0')] and logs the
    warning, although rows exist. *)
Theorem zero_total_is_reported_as_missing (w : World) (m : Z) :
  is_max_timestamp m (AssetsHistoricalValues w) ->
  (Qsum (map (fun v => Dec.val (TotalUSD v))
             (filter (fun v => Timestamp v =? m) (AssetsHistoricalValues w)))
   == 0)%Q ->
  calculate_total_usd_value w
  = Some (Dec.zero, emit (EvLog WARNING) (emit (EvFetch QTotalUSD) w)).
Proof.
  intros Hm Hz.
  destruct (total_of_latest_snapshot w m Hm) as (d & w' & Hc & Hv & Hw).
  rewrite Hz in Hv. destruct (Hw Hv) as [-> ->]. exact Hc.
Qed.

(** ** Requests to the providers *)

Section Adds.

Variable sel : event -> bool.

Lemma adds_ret {A} (a : A) (w : World) : adds sel (ret a) w [].
Proof.
  intros a' w' [= _ <-]. exists []. split; [now rewrite app_nil_r | reflexivity].
Qed.

Lemma adds_bind {A B} (m : M A) (k : A -> M B) (w : World) (c1 c2 : list event) :
  adds sel m w c1 ->
  (forall a w1, m w = Some (a, w1) -> adds sel (k a) w1 c2) ->
  adds sel (bind m k) w (c1 ++ c2).
Proof.
  intros Hm Hk b w2 H. unfold bind in H.
  destruct (m w) as [[a w1]|] eqn:E; [|discriminate].
  destruct (Hm a w1 E) as (e1 & L1 & F1).
  destruct (Hk a w1 eq_refl b w2 H) as (e2 & L2 & F2).
  exists (e1 ++ e2)%list. split.
  - rewrite L2, L1. now rewrite app_assoc.
  - rewrite filter_app, F1, F2. reflexivity.
Qed.

Lemma adds_bind0 {A B} (m : M A) (k : A -> M B) (w : World) (cs : list event) :
  adds sel m w [] ->
  (forall a w1, m w = Some (a, w1) -> adds sel (k a) w1 cs) ->
  adds sel (bind m k) w cs.
Proof. intros Hm Hk. exact (adds_bind m k w [] cs Hm Hk). Qed.

Lemma adds_bind1 {A B} (m : M A) (k : A -> M B) (w : World) (cs : list event) :
  adds sel m w cs ->
  (forall a w1, m w = Some (a, w1) -> adds sel (k a) w1 []) ->
  adds sel (bind m k) w cs.
Proof.
  intros Hm Hk. rewrite <- (app_nil_r cs). exact (adds_bind m k w cs [] Hm Hk).
Qed.

Lemma adds_emit (e : event) (w : World) :
  adds sel (modify (emit e)) w (if sel e then [e] else []).
Proof.
  intros a w' [= _ <-]. exists [e]. split; [reflexivity|].
  simpl. destruct (sel e); reflexivity.
Qed.

Lemma adds_silent (f : World -> World) (w : World) :
  log (f w) = log w -> adds sel (modify f) w [].
Proof.
  intros H a w' [= _ <-]. exists []. split; [now rewrite app_nil_r | reflexivity].
Qed.

Lemma adds_lift {A} (o : option A) (w : World) : adds sel (lift o) w [].
Proof. destruct o; [apply adds_ret | intros a w' H; discriminate H]. Qed.

Lemma adds_gets {A} (f : World -> A) (w : World) : adds sel (gets f) w [].
Proof.
  intros a w' [= _ <-]. exists []. split; [now rewrite app_nil_r | reflexivity].
Qed.

Lemma adds_for_each {A} (body : A -> M unit) (f : A -> list event) (l : list A) :
  (forall x w, adds sel (body x) w (f x)) ->
  forall w, adds sel (for_each l body) w (flat_map f l).
Proof.
  intros Hb. induction l as [|x rest IH]; intros w; simpl.
  - apply adds_ret.
  - apply adds_bind; [apply Hb|]. intros; apply IH.
Qed.

Lemma adds_for_each_nil {A} (body : A -> M unit) (l : list A) :
  (forall x w, adds sel (body x) w []) ->
  forall w, adds sel (for_each l body) w [].
Proof.
  intros Hb. induction l as [|x rest IH]; intros w; simpl.
  - apply adds_ret.
  - apply adds_bind0; [apply Hb|]. intros; apply IH.
Qed.

End Adds.

(** *** Wallet requests *)

Section RpcRequests.

Variable env : Env.











End RpcRequests.

(** *** Quote requests *)

Section QuoteRequests.

Variable env : Env.

Lemma his_logging (l : level) (w : World) : adds is_history (logging l) w [].
Proof. exact (adds_emit is_history (EvLog l) w). Qed.

Lemma his_fetch_data {A} (q : query) (rows : World -> A) (w : World) :
  adds is_history (fetch_data q rows) w [].
Proof.
  unfold fetch_data. apply adds_bind0.
  - exact (adds_emit is_history (EvFetch q) w).
  - intros; apply adds_gets.
Qed.

Lemma his_try_periods (ticker : string) (ps : list string) :
  forall w, adds is_history (try_periods env ticker ps) w
                 (resolver_requests env ticker ps).
Proof.
  induction ps as [|period rest IH]; intros w; simpl.
  - apply adds_bind0; [apply his_logging | intros; apply adds_ret].
  - apply (adds_bind is_history _ _ w [EvHistory ticker period]).
    + unfold stock_history. apply adds_bind1.
      * exact (adds_emit is_history (EvHistory ticker period) w).
      * intros; apply adds_ret.
    + intros h w1 H.
      assert (E : h = history env ticker period).
      { unfold stock_history, bind, modify, ret in H. congruence. }
      rewrite <- E. destruct h as [|[|c cs]].
      * apply adds_bind0; [apply his_logging | intros; apply IH].
      * apply adds_bind0; [apply his_logging | intros; apply IH].
      * apply adds_bind0; [apply his_logging | intros; apply adds_ret].
Qed.

Lemma his_get_usd_exchange_rate (currency : string) (w : World) :
  adds is_history (get_usd_exchange_rate env currency) w
       (if String.eqb currency "USD" then []
        else match conversion_tickers currency (TrackedCurrenciesIndexes w) with
             | [] => []
             | t0 :: _ => resolver_requests env t0 periods
             end).
Proof.
  unfold get_usd_exchange_rate.
  destruct (String.eqb currency "USD"); [apply adds_ret|].
  apply adds_bind0; [apply his_fetch_data|].
  intros l w1 H. injection H as <- _. cbn [TrackedCurrenciesIndexes emit].
  destruct (conversion_tickers currency (TrackedCurrenciesIndexes w)) as [|t0 rest].
  - apply adds_bind0; [apply his_logging | intros; apply adds_ret].
  - apply adds_bind1; [apply his_try_periods|].
    intros [p|] w2 _; [apply adds_ret|].
    apply adds_bind0; [apply his_logging | intros; apply adds_ret].
Qed.

Lemma his_value_holding (ts : Z) (h : holding) (w : World) :
  adds is_history (value_holding env ts h) w
       (holding_requests env (TrackedCurrenciesIndexes w) h).
Proof.
  unfold value_holding, holding_requests.
  apply adds_bind; [apply his_try_periods|].
  intros price w1 H1.
  destruct (runs_get_latest_price env (h_Ticker h) w) as (x1 & R1 & S1).
  rewrite R1 in H1. injection H1 as <- ->.
  destruct (latest_price env (h_Ticker h)) as [price|]; [|apply his_logging].
  destruct (String.eqb (h_Platform h) "Solana").
  - apply adds_bind0; [apply adds_ret|].
    intros [[r|] cur] w2 _; [|apply his_logging].
    apply adds_silent. reflexivity.
  - apply adds_bind1.
    + apply adds_bind1; [|intros; apply adds_ret].
      destruct S1 as (_ & <- & _). apply his_get_usd_exchange_rate.
    + intros [[r|] cur] w2 _; [|apply his_logging].
      apply adds_silent. reflexivity.
Qed.

Lemma his_record_rate (ts : Z) (ticker : string) (w : World) :
  adds is_history (record_rate env ts ticker) w
       (resolver_requests env ticker periods).
Proof.
  unfold record_rate.
  apply adds_bind1; [apply his_try_periods|].
  intros [price|] w1 _; [|apply his_logging].
  apply adds_silent. reflexivity.
Qed.

Lemma his_process_solana_wallet_holdings (wallet_address alias : string)
    (ts : Z) (w : World) :
  adds is_history (process_solana_wallet_holdings env wallet_address alias ts) w [].
Proof.
  assert (Hf : forall m w0,
             adds is_history (fetch_solana_wallet_holdings env m wallet_address) w0 []).
  { intros m w0. unfold fetch_solana_wallet_holdings.
    apply adds_bind0.
    - exact (adds_emit is_history (EvRpc m wallet_address) w0).
    - intros _ w1 _. destruct (helius env m wallet_address); [apply adds_ret|].
      apply adds_bind0; [apply his_logging | intros; apply adds_ret]. }
  unfold process_solana_wallet_holdings.
  apply adds_bind0; [apply his_logging|]. intros _ w1 _.
  apply adds_bind0; [apply Hf|]. intros r1 w2 _.
  apply adds_bind0.
  { unfold get_native_sol_balance.
    destruct (has_result r1) as [res|]; [|apply adds_ret].
    apply adds_bind0.
    - unfold get_sol_price. apply adds_bind0; [apply his_fetch_data|].
      intros [r0|] w3 _; [apply adds_ret|].
      apply adds_bind0; [apply his_logging | intros; apply adds_ret].
    - intros p w3 _. apply adds_bind0; [apply adds_lift | intros; apply adds_ret]. }
  intros n w3 _.
  apply adds_bind0; [apply Hf|]. intros r2 w4 _.
  apply adds_bind0; [apply adds_lift|]. intros l w5 _.
  apply adds_for_each_nil. intros a w6.
  apply adds_bind0; [apply adds_lift|]. intros v w7 _.
  apply adds_silent. reflexivity.
Qed.

Lemma his_manual_holdings (ts : Z) (holdings : list holding) :
  forall w,
    adds is_history (for_each holdings (value_holding env ts)) w
         (flat_map (holding_requests env (TrackedCurrenciesIndexes w)) holdings).
Proof.
  induction holdings as [|h rest IH]; intros w; cbn [for_each flat_map].
  - apply adds_ret.
  - apply adds_bind; [apply his_value_holding|].
    intros [] w1 H1.
    destruct (runs_value_holding env ts h w) as (x1 & R1 & S1).
    rewrite R1 in H1. injection H1 as ->.
    destruct S1 as (_ & <- & _). apply IH.
Qed.

(** The quote requests of a run, in order. *)
Lemma run_quote_requests (w : World) :
  adds is_history (update_holdings_and_rates env) w
       (flat_map (holding_requests env (TrackedCurrenciesIndexes w))
                 (ManualHoldings w)
        ++ flat_map (fun t0 => resolver_requests env t0 periods)
                    (map tr_Ticker (TrackedCurrenciesIndexes w)))%list.
Proof.
  unfold update_holdings_and_rates.
  apply adds_bind0.
  { intros t w1 [= _ <-]. exists [EvNow]. split; reflexivity. }
  intros ts w1 H1. injection H1 as _ <-.
  apply adds_bind0; [apply his_fetch_data|]. intros hs w2 H2.
  injection H2 as <- <-.
  apply adds_bind0; [apply his_fetch_data|]. intros ts' w3 H3.
  injection H3 as <- <-.
  cbn [ManualHoldings TrackedCurrenciesIndexes emit tick].
  apply adds_bind.
  { apply (his_manual_holdings ts (ManualHoldings w)
             (emit (EvFetch QTrackedTickers)
                (emit (EvFetch QManualHoldings) (emit EvNow (tick w))))). }
  intros [] w4 _.
  apply adds_bind1.
  { apply adds_for_each. intros; apply his_record_rate. }
  intros [] w5 _.
  apply adds_bind0; [apply his_fetch_data|]. intros ws w6 _.
  apply adds_for_each_nil.
  intros [a al] w7. apply his_process_solana_wallet_holdings.
Qed.

Lemma resolver_requests_bounds (ticker : string) (ps : list string) :
  (List.length (resolver_requests env ticker ps) <= List.length ps)%nat /\
  (ps <> [] -> 1 <= List.length (resolver_requests env ticker ps))%nat /\
  Forall (fun e => exists period, e = EvHistory ticker period /\ In period ps)
         (resolver_requests env ticker ps).
Proof.
  induction ps as [|p rest (IH1 & IH2 & IH3)]; simpl.
  - split; [lia|]. split; [congruence | constructor].
  - assert (Hhead : exists period, EvHistory ticker p = EvHistory ticker period /\
                                   (p = period \/ In period rest)) by eauto.
    assert (Htail : Forall (fun e => exists period,
                                e = EvHistory ticker period /\
                                (p = period \/ In period rest))
                           (resolver_requests env ticker rest)).
    { eapply Forall_impl; [|exact IH3].
      intros e (period & -> & Hin). eauto. }
    destruct (history env ticker p) as [|[|c cs]]; simpl;
      (split; [lia|]); (split; [lia|]); constructor; auto.
Qed.

(** X11. A run asks the quote provider only for tickers of manual
    holdings and of registry rows, only with the periods "1d" and "5d",
    at least once for every holding and every registry row, and at most
    four times per holding and twice per registry row. *)
Theorem run_quote_requests_bounds (w : World) :
  exists w' evs,
    update_holdings_and_rates env w = Some (tt, w') /\
    log w' = (log w ++ evs)%list /\
    Forall (fun e => exists ticker period,
                e = EvHistory ticker period /\
                (In ticker (map h_Ticker (ManualHoldings w)) \/
                 In ticker (map tr_Ticker (TrackedCurrenciesIndexes w))) /\
                (period = "1d" \/ period = "5d"))
           (filter is_history evs) /\
    (List.length (ManualHoldings w) + List.length (TrackedCurrenciesIndexes w)
     <= List.length (filter is_history evs)
     <= 4 * List.length (ManualHoldings w)
        + 2 * List.length (TrackedCurrenciesIndexes w))%nat.
Proof.
  destruct (update_holdings_and_rates_run env w) as (w' & _ & Hrun & _).
  destruct (run_quote_requests w tt w' Hrun) as (evs & L & F).
  exists w', evs. split; [exact Hrun|]. split; [exact L|].
  rewrite F. clear F L Hrun.
  set (registry := TrackedCurrenciesIndexes w).
  assert (Hper : forall period, In period periods -> period = "1d" \/ period = "5d").
  { intros period [<-|[<-|[]]]; auto. }
  assert (Hres : forall t0,
             (1 <= List.length (resolver_requests env t0 periods) <= 2)%nat).
  { intros t0. destruct (resolver_requests_bounds t0 periods) as (H1 & H2 & _).
    split; [apply H2; discriminate | exact H1]. }
  assert (Hhold : forall h,
             (1 <= List.length (holding_requests env registry h) <= 4)%nat).
  { intros h. unfold holding_requests. rewrite length_app.
    pose proof (Hres (h_Ticker h)).
    destruct (latest_price env (h_Ticker h)); [|cbn [List.length]; lia].
    destruct (String.eqb (h_Platform h) "Solana"); [cbn [List.length]; lia|].
    destruct (String.eqb (h_NativeCurrency h) "USD"); [cbn [List.length]; lia|].
    destruct (conversion_tickers (h_NativeCurrency h) registry) as [|t0 rest];
      [cbn [List.length]; lia|].
    pose proof (Hres t0). lia. }
  split.
  - apply Forall_app. split; apply Forall_forall; intros e He;
      apply in_flat_map in He; destruct He as (x & Hx & He).
    + unfold holding_requests in He. apply in_app_or in He.
      destruct He as [He|He].
      * destruct (resolver_requests_bounds (h_Ticker x) periods) as (_ & _ & Hf).
        rewrite Forall_forall in Hf. destruct (Hf e He) as (period & -> & Hp).
        exists (h_Ticker x), period. split; [reflexivity|].
        split; [left; apply in_map; exact Hx | apply Hper; exact Hp].
      * destruct (latest_price env (h_Ticker x)); [|destruct He].
        destruct (String.eqb (h_Platform x) "Solana"); [destruct He|].
        destruct (String.eqb (h_NativeCurrency x) "USD"); [destruct He|].
        destruct (conversion_tickers (h_NativeCurrency x) registry)
          as [|t0 rest] eqn:Ec; [destruct He|].
        destruct (resolver_requests_bounds t0 periods) as (_ & _ & Hf).
        rewrite Forall_forall in Hf. destruct (Hf e He) as (period & -> & Hp).
        exists t0, period. split; [reflexivity|].
        split; [|apply Hper; exact Hp].
        right.
        assert (Hin : In t0 (conversion_tickers (h_NativeCurrency x) registry))
          by (rewrite Ec; left; reflexivity).
        apply conversion_tickers_In in Hin.
        destruct Hin as (row & Hrow & <- & _). apply in_map. exact Hrow.
    + destruct (resolver_requests_bounds x periods) as (_ & _ & Hf).
      rewrite Forall_forall in Hf. destruct (Hf e He) as (period & -> & Hp).
      exists x, period. split; [reflexivity|].
      split; [right; exact Hx | apply Hper; exact Hp].
  - rewrite length_app.
    assert (Hm : (List.length (ManualHoldings w)
                  <= List.length (flat_map (holding_requests env registry)
                                           (ManualHoldings w))
                  <= 4 * List.length (ManualHoldings w))%nat).
    { induction (ManualHoldings w) as [|h rest IH];
        cbn [flat_map List.length]; [lia|].
      rewrite length_app. pose proof (Hhold h). lia. }
    assert (Ht : forall l : list tracked,
               (List.length l
                <= List.length (flat_map (fun t0 => resolver_requests env t0 periods)
                                         (map tr_Ticker l))
                <= 2 * List.length l)%nat).
    { induction l as [|r0 rest IH]; cbn [map flat_map List.length]; [lia|].
      rewrite length_app. pose proof (Hres (tr_Ticker r0)). lia. }
    specialize (Ht registry). lia.
Qed.

End QuoteRequests.

(** ** The conversion of manual holdings *)

Section ConversionQueries.

Variable env : Env.












End ConversionQueries.

(** ** Unique constraints on the registry *)

Lemma mem_In (k : string) (l : list string) :
  existsb (String.eqb k) l = true <-> In k l.
Proof.
  rewrite existsb_exists. split.
  - intros (x & Hin & E). apply String.eqb_eq in E. now subst.
  - intros H. exists k. split; [exact H | apply String.eqb_refl].
Qed.

Lemma mem_not_In (k : string) (l : list string) :
  existsb (String.eqb k) l = false <-> ~ In k l.
Proof.
  rewrite <- mem_In. destruct (existsb (String.eqb k) l); split; congruence.
Qed.

Lemma nodupb_NoDup (l : list string) : nodupb l = true <-> NoDup l.
Proof.
  induction l as [|x xs IH]; simpl.
  - split; [constructor | reflexivity].
  - rewrite andb_true_iff, negb_true_iff, mem_not_In, IH. split.
    + intros [H1 H2]. constructor; assumption.
    + intros H. inversion H; subst. split; assumption.
Qed.

Section DeleteDuplicates.

Variable col : column.

Local Abbreviation key := (column_value col).

Lemma first_index_app_in (k : string) (l1 l2 : list string) :
  In k l1 -> (first_index k (l1 ++ l2) < List.length l1)%nat.
Proof.
  induction l1 as [|x xs IH]; intros H; [destruct H|]. simpl.
  destruct (String.eqb_spec x k) as [E|E]; [lia|].
  destruct H as [H|H]; [congruence|]. specialize (IH H). lia.
Qed.

Lemma first_index_app_notin (k : string) (l1 l2 : list string) :
  ~ In k l1 -> first_index k (l1 ++ k :: l2) = List.length l1.
Proof.
  induction l1 as [|x xs IH]; intros H; simpl.
  - now rewrite String.eqb_refl.
  - destruct (String.eqb_spec x k) as [E|E].
    + exfalso. apply H. left. exact E.
    + f_equal. apply IH. intros Hin. apply H. right. exact Hin.
Qed.

Lemma count_occ_twice (k : string) (l1 l2 : list string) :
  In k l1 -> (1 < count_occ string_dec (l1 ++ k :: l2) k)%nat.
Proof.
  intros H. rewrite count_occ_app. simpl.
  destruct (string_dec k k) as [_|N]; [|congruence].
  apply (count_occ_In string_dec) in H. lia.
Qed.

Lemma kept_iff_first (pre rest : list tracked) (r : tracked) :
  let keys := map key (pre ++ r :: rest) in
  negb ((1 <? count_occ string_dec keys (key r))%nat
        && negb (List.length pre =? first_index (key r) keys)%nat)
  = negb (existsb (String.eqb (key r)) (map key pre)).
Proof.
  cbv zeta. rewrite map_app. simpl map.
  destruct (existsb (String.eqb (key r)) (map key pre)) eqn:E.
  - apply mem_In in E. simpl.
    pose proof (count_occ_twice (key r) (map key pre) (map key rest) E) as Hc.
    pose proof (first_index_app_in (key r) (map key pre) (key r :: map key rest) E)
      as Hf.
    rewrite length_map in Hf.
    apply Nat.ltb_lt in Hc. rewrite Hc.
    replace (List.length pre =? _)%nat with false
      by (symmetry; apply Nat.eqb_neq; lia).
    reflexivity.
  - apply mem_not_In in E.
    rewrite (first_index_app_notin (key r) (map key pre) (map key rest) E).
    rewrite length_map, Nat.eqb_refl. simpl. now rewrite andb_false_r.
Qed.

Lemma delete_duplicates_from (rest : list tracked) :
  forall pre : list tracked,
    map snd
      (filter (fun a : nat * tracked =>
                 let k := key (snd a) in
                 negb ((1 <? count_occ string_dec (map key (pre ++ rest)) k)%nat
                       && negb (fst a =? first_index k (map key (pre ++ rest)))%nat))
              (combine (seq (List.length pre) (List.length rest)) rest))
    = keep_first col (map key pre) rest.
Proof.
  induction rest as [|r rest IH]; intros pre; [reflexivity|].
  cbn [List.length seq combine filter fst snd keep_first].
  rewrite (kept_iff_first pre rest r).
  specialize (IH (pre ++ [r])%list).
  rewrite <- app_assoc, length_app, (map_app key pre [r]) in IH.
  cbn [List.length app map] in IH.
  rewrite Nat.add_1_r in IH.
  destruct (existsb (String.eqb (key r)) (map key pre)); cbn [negb map snd app];
    rewrite IH; reflexivity.
Qed.

Lemma delete_duplicates_keep_first (rows : list tracked) :
  delete_duplicates col rows = keep_first col [] rows.
Proof. exact (delete_duplicates_from rows []). Qed.

Lemma keep_first_In (rows : list tracked) :
  forall seen r,
    In r (keep_first col seen rows) -> In r rows /\ ~ In (key r) seen.
Proof.
  induction rows as [|x rs IH]; intros seen r H; [destruct H|].
  simpl in H. apply in_app_or in H. destruct H as [H|H].
  - destruct (existsb (String.eqb (key x)) seen) eqn:E; [destruct H|].
    destruct H as [<-|[]]. split; [left; reflexivity|].
    apply mem_not_In. exact E.
  - apply IH in H. destruct H as [Hin Hn]. split; [right; exact Hin|].
    intros Hs. apply Hn. apply in_or_app. left. exact Hs.
Qed.

Lemma keep_first_NoDup (rows : list tracked) :
  forall seen, NoDup (map key (keep_first col seen rows)).
Proof.
  induction rows as [|x rs IH]; intros seen; simpl; [constructor|].
  rewrite map_app.
  destruct (existsb (String.eqb (key x)) seen); simpl; [apply IH|].
  constructor; [|apply IH].
  intros H. apply in_map_iff in H. destruct H as (r & E & Hin).
  apply keep_first_In in Hin. destruct Hin as [_ Hn].
  apply Hn. apply in_or_app. right. left. symmetry. exact E.
Qed.

Lemma keep_first_first (rows : list tracked) :
  forall seen pre r post,
    (rows = pre ++ r :: post)%list ->
    ~ In (key r) seen -> ~ In (key r) (map key pre) ->
    In r (keep_first col seen rows).
Proof.
  induction rows as [|x rs IH]; intros seen pre r post E Hs Hp.
  - destruct pre; discriminate E.
  - destruct pre as [|y pre]; simpl in E; injection E as -> ->.
    + simpl. apply in_or_app. left.
      apply mem_not_In in Hs. rewrite Hs. left. reflexivity.
    + simpl. apply in_or_app. right.
      apply (IH _ pre r post eq_refl).
      * intros H. apply in_app_or in H. destruct H as [H|[H|[]]]; [tauto|].
        apply Hp. left. exact H.
      * intros H. apply Hp. right. exact H.
Qed.

Lemma keep_first_keys (rows : list tracked) :
  forall seen r,
    In r rows -> ~ In (key r) seen ->
    exists r', In r' (keep_first col seen rows) /\ key r' = key r.
Proof.
  induction rows as [|x rs IH]; intros seen r Hin Hs; [destruct Hin|].
  simpl.
  destruct (String.eqb_spec (key x) (key r)) as [E|E].
  - exists x. split; [|exact E]. apply in_or_app. left.
    rewrite <- E in Hs. apply mem_not_In in Hs. rewrite Hs. left. reflexivity.
  - destruct Hin as [->|Hin]; [congruence|].
    destruct (IH (seen ++ [key x])%list r Hin) as (r' & Hr' & Hk).
    + intros H. apply in_app_or in H. destruct H as [H|[H|[]]]; tauto.
    + exists r'. split; [|exact Hk]. apply in_or_app. right. exact Hr'.
Qed.

Lemma keep_first_id (rows : list tracked) :
  forall seen,
    NoDup (map key rows) -> (forall r, In r rows -> ~ In (key r) seen) ->
    keep_first col seen rows = rows.
Proof.
  induction rows as [|x rs IH]; intros seen Hnd Hs; [reflexivity|].
  simpl. inversion Hnd as [|? ? Hx Hrest]; subst.
  assert (Hm : existsb (String.eqb (key x)) seen = false).
  { apply mem_not_In. apply Hs. left. reflexivity. }
  rewrite Hm. simpl. f_equal. apply IH; [exact Hrest|].
  intros r Hr H. apply in_app_or in H. destruct H as [H|[H|[]]].
  - exact (Hs r (or_intror Hr) H).
  - apply Hx. rewrite H. apply in_map. exact Hr.
Qed.

(** The clean-up keeps, in order, the first row of every key and nothing
    else. *)
Lemma delete_duplicates_spec (rows : list tracked) :
  NoDup (map key (delete_duplicates col rows)) /\
  (forall r, In r (delete_duplicates col rows) -> In r rows) /\
  (forall r, In r rows ->
             exists r', In r' (delete_duplicates col rows) /\ key r' = key r) /\
  (forall pre r post,
      (rows = pre ++ r :: post)%list -> ~ In (key r) (map key pre) ->
      In r (delete_duplicates col rows)) /\
  (NoDup (map key rows) -> delete_duplicates col rows = rows).
Proof.
  rewrite delete_duplicates_keep_first.
  split; [apply keep_first_NoDup|].
  split; [intros r H; apply keep_first_In in H; tauto|].
  split; [intros r H; apply keep_first_keys; [exact H | intros []]|].
  split.
  - intros pre r post E Hp. apply (keep_first_first rows [] pre r post E); auto.
  - intros H. apply keep_first_id; [exact H | intros r _ []].
Qed.

End DeleteDuplicates.

Lemma keep_first_NoDup_map (col : column) (f : tracked -> string)
    (rows : list tracked) :
  forall seen,
    NoDup (map f rows) -> NoDup (map f (keep_first col seen rows)).
Proof.
  induction rows as [|x rs IH]; intros seen H; simpl; [constructor|].
  inversion H as [|? ? Hx Hrest]; subst.
  rewrite map_app.
  assert (Hn : ~ In (f x) (map f (keep_first col (seen ++ [column_value col x]) rs))).
  { intros Hin. apply in_map_iff in Hin. destruct Hin as (r & E & Hr).
    apply keep_first_In in Hr. destruct Hr as [Hr _].
    apply Hx. rewrite <- E. apply in_map. exact Hr. }
  destruct (existsb (String.eqb (column_value col x)) seen); simpl.
  - apply IH. exact Hrest.
  - constructor; [exact Hn | apply IH; exact Hrest].
Qed.

Lemma constraint_exists_app (name : string) (col : column) (st : Store)
    (w : World) :
  constraint_exists name
    {| st_world := w; st_unique := (st_unique st ++ [(name, col)])%list |} = true.
Proof.
  unfold constraint_exists. cbn [st_unique].
  rewrite existsb_app. simpl. rewrite String.eqb_refl. apply orb_true_r.
Qed.

(** X12. [ensure_unique_constraint] never raises.  When a constraint of
    its name exists it changes nothing.  Otherwise it adds the constraint
    and leaves the column without duplicates: the registry becomes the
    list of the first rows of the keys, in order, so every key keeps its
    first row, no row is invented, and a registry without duplicates is
    unchanged.  The other tables are untouched and the constraints that
    held still hold. *)
Theorem ensure_unique_constraint_spec (col : column) (st : Store) :
  consistent st ->
  let name := "unique_" ++ lower (column_name col) in
  exists st',
    ensure_unique_constraint col st = Some (tt, st') /\
    constraint_exists name st' = true /\
    consistent st' /\
    only_registry (st_world st) (st_world st') /\
    (constraint_exists name st = true ->
     registry st' = registry st /\ st_unique st' = st_unique st) /\
    (constraint_exists name st = false ->
     st_unique st' = (st_unique st ++ [(name, col)])%list /\
     registry st' = delete_duplicates col (registry st) /\
     NoDup (map (column_value col) (registry st')) /\
     (forall r, In r (registry st') -> In r (registry st)) /\
     (forall pre r post,
         (registry st = pre ++ r :: post)%list ->
         ~ In (column_value col r) (map (column_value col) pre) ->
         In r (registry st')) /\
     (NoDup (map (column_value col) (registry st)) ->
      registry st' = registry st)).
Proof.
  intros Hc name.
  destruct (delete_duplicates_spec col (registry st))
    as (Hnd & Hsub & _ & Hfirst & Hid).
  unfold ensure_unique_constraint. fold name.
  destruct (constraint_exists name st) eqn:Ex; cbn [negb].
  - (* the constraint is there *)
    eexists. split; [reflexivity|].
    split; [exact Ex|]. split; [exact Hc|].
    split; [repeat split|].
    split; [intros _; split; reflexivity | discriminate].
  - unfold bind_s, add_unique_constraint.
    destruct (nodupb (map (column_value col) (registry st))) eqn:En.
    + (* no duplicate: the constraint is added at once *)
      apply nodupb_NoDup in En. specialize (Hid En).
      eexists. split; [reflexivity|].
      split; [apply constraint_exists_app|].
      split.
      { intros c Hin. cbn [st_unique] in Hin. apply in_app_or in Hin.
        destruct Hin as [Hin|[<-|[]]]; [exact (Hc c Hin) | exact En]. }
      split; [repeat split|].
      split; [discriminate|]. intros _.
      split; [reflexivity|]. split; [symmetry; exact Hid|].
      split; [exact En|]. split; [auto|]. split.
      * intros pre r post E _. change (In r (registry st)).
        rewrite E. apply in_or_app. right. left. reflexivity.
      * intros _. reflexivity.
    + (* duplicates: clean up, then add *)
      cbn [on_world logging modify st_world st_unique registry
           TrackedCurrenciesIndexes emit set_registry].
      apply nodupb_NoDup in Hnd. unfold registry in Hnd. rewrite Hnd.
      apply nodupb_NoDup in Hnd.
      eexists. split; [reflexivity|].
      split; [apply constraint_exists_app|].
      split.
      { intros c Hin. cbn [st_unique] in Hin.
        unfold registry. cbn [st_world TrackedCurrenciesIndexes emit set_registry].
        apply in_app_or in Hin. destruct Hin as [Hin|[<-|[]]]; [|exact Hnd].
        rewrite delete_duplicates_keep_first.
        apply keep_first_NoDup_map. exact (Hc c Hin). }
      split; [repeat split|].
      split; [discriminate|]. intros _.
      split; [reflexivity|]. split; [reflexivity|].
      split; [exact Hnd|]. split; [exact Hsub|]. split; [exact Hfirst | exact Hid].
Qed.

(** ** Upserts into the registry *)

Lemma update_set_ticker :
  filter (fun col => negb (column_eqb col ColTicker)) columns
  = [ColIndexName; ColFromCurrency; ColToCurrency].
Proof. reflexivity. Qed.

(** On a conflict on the ticker, the update writes the whole new row. *)
Lemma do_update_ticker (values r : tracked) :
  tr_Ticker r = tr_Ticker values ->
  do_update [ColIndexName; ColFromCurrency; ColToCurrency] values r = values.
Proof. destruct values, r. simpl. intros ->. reflexivity. Qed.

Lemma has_ticker_constraint (st : Store) :
  ticker_constraints st -> st_unique st <> [] ->
  existsb (fun c => column_eqb (snd c) ColTicker) (st_unique st) = true.
Proof.
  intros Ht Hne. destruct (st_unique st) as [|c rest] eqn:E; [contradiction|].
  assert (Hin : In c (st_unique st)) by (rewrite E; left; reflexivity).
  simpl. rewrite (Ht c Hin). reflexivity.
Qed.

Lemma ticker_NoDup (st : Store) :
  consistent st -> ticker_constraints st -> st_unique st <> [] ->
  NoDup (map tr_Ticker (registry st)).
Proof.
  intros Hc Ht Hne. destruct (st_unique st) as [|c rest] eqn:E; [contradiction|].
  assert (Hin : In c (st_unique st)) by (rewrite E; left; reflexivity).
  specialize (Hc c Hin). rewrite (Ht c Hin) in Hc. exact Hc.
Qed.

Lemma constraints_hold (st : Store) (rows : list tracked) :
  ticker_constraints st -> NoDup (map tr_Ticker rows) ->
  forallb (fun c => nodupb (map (column_value (snd c)) rows)) (st_unique st) = true.
Proof.
  intros Ht Hnd. apply forallb_forall. intros c Hin.
  rewrite (Ht c Hin). apply nodupb_NoDup. exact Hnd.
Qed.

Lemma upserted_tickers (values : tracked) (rows : list tracked) :
  map tr_Ticker (upserted values rows)
  = if existsb (fun r => String.eqb (tr_Ticker r) (tr_Ticker values)) rows
    then map tr_Ticker rows
    else (map tr_Ticker rows ++ [tr_Ticker values])%list.
Proof.
  unfold upserted.
  destruct (existsb _ rows).
  - rewrite map_map. apply map_ext. intros r.
    destruct (String.eqb_spec (tr_Ticker r) (tr_Ticker values)); congruence.
  - rewrite map_app. reflexivity.
Qed.

Lemma exists_ticker (values : tracked) (rows : list tracked) :
  existsb (fun r => String.eqb (tr_Ticker r) (tr_Ticker values)) rows = true
  <-> In (tr_Ticker values) (map tr_Ticker rows).
Proof.
  rewrite existsb_exists, in_map_iff. split.
  - intros (r & Hin & E). apply String.eqb_eq in E. eauto.
  - intros (r & E & Hin). exists r. split; [exact Hin|].
    apply String.eqb_eq. exact E.
Qed.

Lemma upserted_NoDup (values : tracked) (rows : list tracked) :
  NoDup (map tr_Ticker rows) -> NoDup (map tr_Ticker (upserted values rows)).
Proof.
  intros H. rewrite upserted_tickers.
  destruct (existsb _ rows) eqn:E; [exact H|].
  apply NoDup_app; [exact H | repeat constructor; intros [] |].
  intros x Hx [<-|[]].
  apply exists_ticker in Hx. congruence.
Qed.

Lemma upserted_In (values : tracked) (rows : list tracked) (r : tracked) :
  In r (upserted values rows) <->
  r = values \/ (In r rows /\ tr_Ticker r <> tr_Ticker values).
Proof.
  unfold upserted.
  destruct (existsb (fun r0 => String.eqb (tr_Ticker r0) (tr_Ticker values)) rows)
    eqn:E.
  - rewrite in_map_iff. split.
    + intros (r0 & Hr & Hin).
      destruct (String.eqb_spec (tr_Ticker r0) (tr_Ticker values)) as [Et|Et].
      * left. symmetry. exact Hr.
      * right. subst r0. split; assumption.
    + intros [->|[Hin Hne]].
      * apply existsb_exists in E. destruct E as (r0 & Hin & Et).
        exists r0. rewrite Et. split; [reflexivity | exact Hin].
      * exists r. split; [|exact Hin].
        apply String.eqb_neq in Hne. rewrite Hne. reflexivity.
  - rewrite in_app_iff. split.
    + intros [Hin|[<-|[]]]; [|left; reflexivity].
      right. split; [exact Hin|]. intros Et.
      assert (Hx : In (tr_Ticker values) (map tr_Ticker rows)).
      { rewrite <- Et. apply in_map. exact Hin. }
      apply exists_ticker in Hx. congruence.
    + intros [->|[Hin _]]; [right; left; reflexivity | left; exact Hin].
Qed.

(** An upsert of a row that is there, in a table with distinct tickers,
    changes nothing. *)
Lemma upserted_present (values : tracked) (rows : list tracked) :
  NoDup (map tr_Ticker rows) -> In values rows -> upserted values rows = rows.
Proof.
  intros Hnd Hin. unfold upserted.
  assert (E : existsb (fun r => String.eqb (tr_Ticker r) (tr_Ticker values)) rows
              = true).
  { apply exists_ticker. apply in_map. exact Hin. }
  rewrite E. clear E.
  rewrite <- (map_id rows) at 2. apply map_ext_in. intros r Hr.
  destruct (String.eqb_spec (tr_Ticker r) (tr_Ticker values)) as [Et|Et];
    [|reflexivity].
  (* two rows with one ticker in a list with distinct tickers are one row *)
  clear - Hnd Hin Hr Et. induction rows as [|x rs IH]; [destruct Hin|].
  simpl in Hnd. inversion Hnd as [|? ? Hx Hrest]; subst.
  destruct Hin as [->|Hin], Hr as [->|Hr]; try reflexivity.
  - exfalso. apply Hx. rewrite <- Et. apply in_map. exact Hr.
  - exfalso. apply Hx. rewrite Et. apply in_map. exact Hin.
  - apply IH; assumption.
Qed.

Lemma upsert_data_run (values : tracked) (st : Store) :
  consistent st -> ticker_constraints st -> st_unique st <> [] ->
  upsert_data values ColTicker st
  = Some (tt, {| st_world := set_registry (upserted values (registry st))
                                          (st_world st);
                 st_unique := st_unique st |}).
Proof.
  intros Hc Ht Hne.
  pose proof (ticker_NoDup st Hc Ht Hne) as Hnd.
  unfold upsert_data. rewrite update_set_ticker.
  rewrite (has_ticker_constraint st Ht Hne).
  cbn [column_value].
  assert (E : (if existsb (fun r => String.eqb (tr_Ticker r) (tr_Ticker values))
                          (registry st)
               then map (fun r => if String.eqb (tr_Ticker r) (tr_Ticker values)
                                  then do_update [ColIndexName; ColFromCurrency;
                                                  ColToCurrency] values r
                                  else r) (registry st)
               else (registry st ++ [values])%list)
              = upserted values (registry st)).
  { unfold upserted. destruct (existsb _ (registry st)); [|reflexivity].
    apply map_ext. intros r.
    destruct (String.eqb_spec (tr_Ticker r) (tr_Ticker values)) as [Et|Et];
      [apply do_update_ticker; exact Et | reflexivity]. }
  rewrite E.
  rewrite (constraints_hold st _ Ht (upserted_NoDup values _ Hnd)).
  reflexivity.
Qed.

Lemma upsert_data_eq (values : tracked) (st : Store) :
  (exists c, In c (st_unique st) /\ snd c = ColTicker) ->
  upsert_data values ColTicker st
  = if forallb (fun c => nodupb (map (column_value (snd c))
                                     (upserted values (registry st))))
               (st_unique st)
    then Some (tt, {| st_world := set_registry (upserted values (registry st))
                                               (st_world st);
                      st_unique := st_unique st |})
    else None.
Proof.
  intros (c & Hin & Hc).
  unfold upsert_data. rewrite update_set_ticker.
  assert (Hex : existsb (fun c => column_eqb (snd c) ColTicker) (st_unique st)
                = true).
  { apply existsb_exists. exists c. split; [exact Hin|]. rewrite Hc. reflexivity. }
  rewrite Hex. cbn [column_value].
  assert (E : (if existsb (fun r => String.eqb (tr_Ticker r) (tr_Ticker values))
                          (registry st)
               then map (fun r => if String.eqb (tr_Ticker r) (tr_Ticker values)
                                  then do_update [ColIndexName; ColFromCurrency;
                                                  ColToCurrency] values r
                                  else r) (registry st)
               else (registry st ++ [values])%list)
              = upserted values (registry st)).
  { unfold upserted. destruct (existsb _ (registry st)); [|reflexivity].
    apply map_ext. intros r.
    destruct (String.eqb_spec (tr_Ticker r) (tr_Ticker values)) as [Et|Et];
      [apply do_update_ticker; exact Et | reflexivity]. }
  rewrite E. reflexivity.
Qed.

(** After an upsert the table holds the new row and the rows of the other
    tickers, and a column is free of duplicates when it was and no row of
    another ticker has the new row's value in it. *)
Lemma upserted_others (values : tracked) (rows : list tracked) :
  NoDup (map tr_Ticker rows) ->
  exists others,
    (forall r, In r others <-> In r rows /\ tr_Ticker r <> tr_Ticker values) /\
    forall col,
      NoDup (map (column_value col) rows) ->
      (NoDup (map (column_value col) (upserted values rows)) <->
       ~ In (column_value col values) (map (column_value col) others)).
Proof.
  intros Hnd. unfold upserted.
  destruct (existsb (fun r => String.eqb (tr_Ticker r) (tr_Ticker values)) rows)
    eqn:Ex.
  - apply exists_ticker in Ex. apply in_map_iff in Ex.
    destruct Ex as (r0 & Et & Hin0).
    destruct (in_split r0 rows Hin0) as (pre & post & ->).
    rewrite map_app in Hnd. cbn [map] in Hnd.
    pose proof (NoDup_remove_2 _ _ _ Hnd) as Hfree.
    rewrite <- map_app, Et in Hfree.
    assert (Hid : forall l,
               ~ In (tr_Ticker values) (map tr_Ticker l) ->
               map (fun r => if String.eqb (tr_Ticker r) (tr_Ticker values)
                             then values else r) l = l).
    { intros l Hl. rewrite <- (map_id l) at 2. apply map_ext_in. intros r Hr.
      destruct (String.eqb_spec (tr_Ticker r) (tr_Ticker values)) as [E|E];
        [|reflexivity].
      exfalso. apply Hl. rewrite <- E. apply in_map. exact Hr. }
    rewrite map_app. cbn [map]. rewrite Et, String.eqb_refl.
    rewrite (Hid pre), (Hid post);
      try (intros H; apply Hfree; rewrite map_app; apply in_or_app; auto).
    exists (pre ++ post)%list. split.
    + intros r. split.
      * intros Hr. split.
        -- apply in_app_or in Hr. apply in_or_app.
           destruct Hr as [Hr|Hr]; [left | right; right]; exact Hr.
        -- intros E. apply Hfree. rewrite <- E. apply in_map. exact Hr.
      * intros [Hr Hne]. apply in_app_or in Hr. apply in_or_app.
        destruct Hr as [Hr|[Hr|Hr]]; [left; exact Hr | | right; exact Hr].
        subst r0. congruence.
    + intros col Hc. rewrite !map_app in *. cbn [map] in *.
      rewrite (NoDup_Add (Add_app (column_value col values) _ _)).
      apply NoDup_remove_1 in Hc. tauto.
  - exists rows. split.
    + intros r. split; [|tauto]. intros Hr. split; [exact Hr|].
      intros E.
      assert (Hx : In (tr_Ticker values) (map tr_Ticker rows)).
      { rewrite <- E. apply in_map. exact Hr. }
      apply exists_ticker in Hx. congruence.
    + intros col Hc. rewrite map_app. cbn [map].
      pose proof (Add_app (column_value col values)
                          (map (column_value col) rows) []) as HA.
      rewrite app_nil_r in HA.
      rewrite (NoDup_Add HA). tauto.
Qed.

(** X13. With a unique constraint on the ticker in place and the unique
    constraints of the table holding, an upsert on the ticker raises
    exactly when the new row would repeat, in a constrained column, the
    value of a row of another ticker; with constraints on the ticker only
    it never does.  Otherwise it touches the registry only: afterwards
    the table holds the new row, the old rows of the other tickers and
    nothing else; the constraints still hold and the tickers are
    distinct, so the new row is the only one of its ticker and replaces
    an older one; and the same upsert once more changes nothing. *)
Theorem upsert_data_spec (values : tracked) (st : Store) :
  consistent st ->
  (exists c, In c (st_unique st) /\ snd c = ColTicker) ->
  (clash values st -> upsert_data values ColTicker st = None) /\
  (ticker_constraints st -> ~ clash values st) /\
  (~ clash values st ->
   exists st',
     upsert_data values ColTicker st = Some (tt, st') /\
     st_unique st' = st_unique st /\
     consistent st' /\
     st_world st' = set_registry (registry st') (st_world st) /\
     (forall r, In r (registry st') <->
                r = values \/
                (In r (registry st) /\ tr_Ticker r <> tr_Ticker values)) /\
     NoDup (map tr_Ticker (registry st')) /\
     (forall r, In r (registry st') -> tr_Ticker r = tr_Ticker values ->
                r = values) /\
     upsert_data values ColTicker st' = Some (tt, st')).
Proof.
  intros Hc Hex.
  assert (Hnd : NoDup (map tr_Ticker (registry st))).
  { destruct Hex as (c & Hin & E). specialize (Hc c Hin). rewrite E in Hc.
    exact Hc. }
  destruct (upserted_others values (registry st) Hnd) as (others & Hoth & Hcol).
  pose proof (upserted_NoDup values _ Hnd) as Hnd'.
  split; [|split].
  - (* a clash *)
    intros (c & r & Hin & Hr & Hne & Heq).
    rewrite (upsert_data_eq values st Hex).
    destruct (forallb _ (st_unique st)) eqn:Eb; [|reflexivity].
    exfalso. rewrite forallb_forall in Eb. specialize (Eb c Hin).
    apply nodupb_NoDup in Eb.
    apply (Hcol (snd c) (Hc c Hin)) in Eb. apply Eb.
    rewrite <- Heq. apply in_map. apply Hoth. auto.
  - intros Ht (c & r & Hin & Hr & Hne & Heq).
    rewrite (Ht c Hin) in Heq. exact (Hne Heq).
  - intros Hno.
    assert (Hall : forall c, In c (st_unique st) ->
                             NoDup (map (column_value (snd c))
                                        (upserted values (registry st)))).
    { intros c Hin. apply (Hcol (snd c) (Hc c Hin)).
      intros Hv. apply in_map_iff in Hv. destruct Hv as (r & Heq & Hr).
      apply Hoth in Hr. destruct Hr as [Hr Hne].
      apply Hno. exists c, r. auto. }
    set (st' := {| st_world := set_registry (upserted values (registry st))
                                            (st_world st);
                   st_unique := st_unique st |}).
    assert (Hc' : consistent st') by exact Hall.
    assert (HIn : forall r, In r (registry st') <->
                            r = values \/
                            (In r (registry st) /\
                             tr_Ticker r <> tr_Ticker values)).
    { intros r. apply upserted_In. }
    assert (Hrun : forall s : Store,
               consistent s -> st_unique s = st_unique st ->
               (forall c, In c (st_unique st) ->
                          NoDup (map (column_value (snd c))
                                     (upserted values (registry s)))) ->
               upsert_data values ColTicker s
               = Some (tt, {| st_world := set_registry
                                            (upserted values (registry s))
                                            (st_world s);
                              st_unique := st_unique s |})).
    { intros s _ Hu Hs. rewrite upsert_data_eq by (rewrite Hu; exact Hex).
      replace (forallb _ (st_unique s)) with true; [reflexivity|].
      symmetry. apply forallb_forall. intros c Hin. apply nodupb_NoDup.
      apply Hs. rewrite <- Hu. exact Hin. }
    exists st'. split; [apply Hrun; [exact Hc | reflexivity | exact Hall]|].
    split; [reflexivity|]. split; [exact Hc'|]. split; [reflexivity|].
    split; [exact HIn|]. split; [exact Hnd'|]. split.
    + intros r Hin Et. apply HIn in Hin. destruct Hin as [E|[_ Hn]]; [exact E|].
      contradiction.
    + assert (Hsame : upserted values (registry st') = registry st').
      { apply upserted_present; [exact Hnd'|]. apply HIn. left. reflexivity. }
      rewrite (Hrun st' Hc' eq_refl).
      * do 2 f_equal. rewrite Hsame. unfold st'. reflexivity.
      * intros c Hin. rewrite Hsame. exact (Hc' c Hin).
Qed.

(** ** The tracked items *)

Lemma items_tickers_NoDup : NoDup (map tr_Ticker items).
Proof. apply nodupb_NoDup. reflexivity. Qed.

Lemma set_registry_consistent (st : Store) (rows : list tracked) :
  ticker_constraints st -> NoDup (map tr_Ticker rows) ->
  consistent {| st_world := set_registry rows (st_world st);
                st_unique := st_unique st |}.
Proof. intros Ht Hnd c Hin. rewrite (Ht c Hin). exact Hnd. Qed.

Lemma upsert_all_run (l : list tracked) :
  forall st,
    consistent st -> ticker_constraints st -> st_unique st <> [] ->
    for_each_s l (fun it => upsert_data it ColTicker) st
    = Some (tt, {| st_world := set_registry (upserted_all l (registry st))
                                            (st_world st);
                   st_unique := st_unique st |}).
Proof.
  induction l as [|x rest IH]; intros st Hc Ht Hne.
  - destruct st as [w u]. destruct w. reflexivity.
  - cbn [for_each_s]. unfold bind_s.
    rewrite (upsert_data_run x st Hc Ht Hne).
    rewrite IH.
    + reflexivity.
    + apply set_registry_consistent; [exact Ht|].
      apply upserted_NoDup. exact (ticker_NoDup st Hc Ht Hne).
    + exact Ht.
    + exact Hne.
Qed.

Lemma upserted_all_In (l : list tracked) :
  forall rows r,
    NoDup (map tr_Ticker l) ->
    (In r (upserted_all l rows) <->
     In r l \/ (In r rows /\ ~ In (tr_Ticker r) (map tr_Ticker l))).
Proof.
  induction l as [|x rest IH]; intros rows r Hnd; simpl.
  - tauto.
  - inversion Hnd as [|? ? Hx Hrest]; subst.
    unfold upserted_all in IH |- *. simpl.
    rewrite (IH (upserted x rows) r Hrest), upserted_In.
    split.
    + intros [H|[[E|[Hin Hne]] Hn]].
      * left. right. exact H.
      * left. left. symmetry. exact E.
      * right. split; [exact Hin|].
        intros [E|H]; [apply Hne; symmetry; exact E | exact (Hn H)].
    + intros [[E|H]|[Hin Hn]].
      * subst r. right. split; [left; reflexivity | exact Hx].
      * left. exact H.
      * right. split.
        -- right. split; [exact Hin|]. intros E. apply Hn. left. symmetry. exact E.
        -- intros H. apply Hn. right. exact H.
Qed.

Lemma upserted_all_NoDup (l : list tracked) :
  forall rows,
    NoDup (map tr_Ticker rows) -> NoDup (map tr_Ticker (upserted_all l rows)).
Proof.
  induction l as [|x rest IH]; intros rows H; [exact H|].
  unfold upserted_all in IH |- *. simpl. apply IH. apply upserted_NoDup. exact H.
Qed.

Lemma upserted_all_present (l : list tracked) :
  forall rows,
    NoDup (map tr_Ticker rows) -> (forall it, In it l -> In it rows) ->
    upserted_all l rows = rows.
Proof.
  induction l as [|x rest IH]; intros rows Hnd Hin; [reflexivity|].
  unfold upserted_all in IH |- *. simpl.
  rewrite upserted_present by (auto; apply Hin; left; reflexivity).
  apply IH; [exact Hnd|]. intros it H. apply Hin. right. exact H.
Qed.

Lemma insert_tracked_items_run (st : Store) :
  consistent st -> ticker_constraints st -> st_unique st <> [] ->
  insert_tracked_items st
  = Some (tt, {| st_world := emit (EvLog INFO)
                               (set_registry (upserted_all items (registry st))
                                             (st_world st));
                 st_unique := st_unique st |}).
Proof.
  intros Hc Ht Hne. unfold insert_tracked_items, bind_s.
  rewrite (upsert_all_run items st Hc Ht Hne). reflexivity.
Qed.

(** X14. When the unique constraints of the registry are constraints on
    the ticker, there is at least one and they hold,
    [insert_tracked_items] does not raise and touches the registry only.
    Afterwards the registry holds the seven items of the script and the
    old rows of other tickers, nothing else, with distinct tickers; and
    running it again leaves the registry as it is. *)
Theorem insert_tracked_items_spec (st : Store) :
  consistent st -> ticker_constraints st -> st_unique st <> [] ->
  exists st',
    insert_tracked_items st = Some (tt, st') /\
    st_unique st' = st_unique st /\
    consistent st' /\
    only_registry (st_world st) (st_world st') /\
    (forall r, In r (registry st') <->
               In r items \/
               (In r (registry st) /\ ~ In (tr_Ticker r) (map tr_Ticker items))) /\
    NoDup (map tr_Ticker (registry st')) /\
    exists st'',
      insert_tracked_items st' = Some (tt, st'') /\
      registry st'' = registry st'.
Proof.
  intros Hc Ht Hne.
  pose proof (ticker_NoDup st Hc Ht Hne) as Hnd.
  pose proof (upserted_all_NoDup items _ Hnd) as Hnd'.
  set (st' := {| st_world := emit (EvLog INFO)
                               (set_registry (upserted_all items (registry st))
                                             (st_world st));
                 st_unique := st_unique st |}).
  assert (Hc' : consistent st').
  { intros c Hin. rewrite (Ht c Hin). exact Hnd'. }
  assert (HIn : forall r, In r (registry st') <->
                          In r items \/
                          (In r (registry st) /\
                           ~ In (tr_Ticker r) (map tr_Ticker items))).
  { intros r. apply upserted_all_In. apply items_tickers_NoDup. }
  exists st'. split; [apply insert_tracked_items_run; assumption|].
  split; [reflexivity|]. split; [exact Hc'|].
  split; [repeat split|]. split; [exact HIn|]. split; [exact Hnd'|].
  eexists. split; [apply (insert_tracked_items_run st' Hc' Ht Hne)|].
  unfold registry. cbn [st_world TrackedCurrenciesIndexes emit set_registry].
  apply upserted_all_present; [exact Hnd'|].
  intros it Hit. apply HIn. left. exact Hit.
Qed.

Lemma items_instruments (currency : string) :
  (exists row, In row items /\ FromCurrency row = currency /\ ToCurrency row = "USD")
  <-> In currency convertible.
Proof.
  split.
  - intros (row & Hin & Hf & Ht). simpl in Hin.
    repeat (destruct Hin as [E|Hin];
            [subst row; simpl in Hf, Ht; try discriminate Ht; subst currency;
             simpl; tauto|]).
    destruct Hin.
  - intros Hin.
    assert (H : existsb (fun row => String.eqb (FromCurrency row) currency
                                    && String.eqb (ToCurrency row) "USD") items
                = true).
    { simpl in Hin.
      repeat (destruct Hin as [E|Hin]; [subst currency; reflexivity|]).
      destruct Hin. }
    apply existsb_exists in H. destruct H as (row & Hin' & Hb).
    apply andb_true_iff in Hb. destruct Hb as [H1 H2].
    apply String.eqb_eq in H1. apply String.eqb_eq in H2. eauto.
Qed.

(** X15. On a registry that held only rows of the script's tickers (an
    empty one, for instance), after [insert_tracked_items] the converter
    has an instrument only for EUR, SEK, BTC, ETH, SOL and NASDAQ.  For
    any other currency but USD, NOK among them (the script's NOK row
    converts from USD to NOK), it returns nothing without asking the
    quote provider, and a holding in that currency on a platform other
    than Solana gets no row. *)
Theorem unconvertible_currency (env : Env) (st st' : Store) (w : World)
    (currency : string) :
  consistent st -> ticker_constraints st -> st_unique st <> [] ->
  (forall r, In r (registry st) -> In (tr_Ticker r) (map tr_Ticker items)) ->
  insert_tracked_items st = Some (tt, st') ->
  TrackedCurrenciesIndexes w = registry st' ->
  currency <> "USD" -> ~ In currency convertible ->
  get_usd_exchange_rate env currency w
  = Some (None, emit (EvLog WARNING)
                     (emit (EvFetch (QConversionTicker currency)) w)) /\
  forall ts h,
    h_NativeCurrency h = currency -> h_Platform h <> "Solana" ->
    exists w',
      value_holding env ts h w = Some (tt, w') /\
      AssetsHistoricalValues w' = AssetsHistoricalValues w.
Proof.
  intros Hc Ht Hne Hold Hrun Hw Hnusd Hnc.
  rewrite (insert_tracked_items_run st Hc Ht Hne) in Hrun.
  injection Hrun as <-.
  unfold registry in Hw. cbn [st_world TrackedCurrenciesIndexes emit set_registry] in Hw.
  assert (Hno : conversion_tickers currency (TrackedCurrenciesIndexes w) = []).
  { apply conversion_tickers_nil. intros row Hin [Hf Hto]. rewrite Hw in Hin.
    apply (upserted_all_In items _ row items_tickers_NoDup) in Hin.
    destruct Hin as [Hin|[Hin Hn]].
    - apply Hnc. apply items_instruments. exists row. auto.
    - apply Hn. apply Hold. exact Hin. }
  apply String.eqb_neq in Hnusd.
  split.
  - unfold get_usd_exchange_rate. rewrite Hnusd.
    cbv [bind fetch_data modify gets]. cbn [TrackedCurrenciesIndexes emit].
    rewrite Hno. reflexivity.
  - intros ts h Hcur Hplat.
    destruct (runs_value_holding env ts h w) as (w' & Hv & (_ & _ & _ & _ & Ha & _)).
    exists w'. split; [exact Hv|]. rewrite Ha.
    unfold manual_rows, usd_rate. rewrite Hcur, Hnusd, Hno.
    apply String.eqb_neq in Hplat. rewrite Hplat.
    destruct (latest_price env (h_Ticker h)); apply app_nil_r.
Qed.

(** ** The whole script *)

Lemma ensure_unique_constraint_run (col : column) (st : Store) :
  consistent st ->
  exists st',
    ensure_unique_constraint col st = Some (tt, st') /\
    constraint_exists ("unique_" ++ lower (column_name col)) st' = true /\
    consistent st' /\
    only_registry (st_world st) (st_world st') /\
    (forall c, In c (st_unique st') -> In c (st_unique st) \/ snd c = col).
Proof.
  intros Hc. unfold ensure_unique_constraint.
  destruct (constraint_exists ("unique_" ++ lower (column_name col)) st) eqn:Ex;
    cbn [negb].
  - eexists. split; [reflexivity|]. split; [exact Ex|]. split; [exact Hc|].
    split; [repeat split|]. intros c Hin. left. exact Hin.
  - unfold bind_s, add_unique_constraint.
    destruct (nodupb (map (column_value col) (registry st))) eqn:En.
    + apply nodupb_NoDup in En.
      eexists. split; [reflexivity|].
      split; [apply constraint_exists_app|].
      split.
      { intros c Hin. cbn [st_unique] in Hin. apply in_app_or in Hin.
        destruct Hin as [Hin|[<-|[]]]; [exact (Hc c Hin) | exact En]. }
      split; [repeat split|].
      intros c Hin. cbn [st_unique] in Hin. apply in_app_or in Hin.
      destruct Hin as [Hin|[<-|[]]]; [left; exact Hin | right; reflexivity].
    + cbn [on_world logging modify st_world st_unique registry
           TrackedCurrenciesIndexes emit set_registry].
      pose proof (keep_first_NoDup col (TrackedCurrenciesIndexes (st_world st)) [])
        as Hnd.
      rewrite <- delete_duplicates_keep_first in Hnd.
      pose proof Hnd as Hb. apply nodupb_NoDup in Hb. rewrite Hb.
      eexists. split; [reflexivity|].
      split; [apply constraint_exists_app|].
      split.
      { intros c Hin. cbn [st_unique] in Hin.
        unfold registry. cbn [st_world TrackedCurrenciesIndexes emit set_registry].
        apply in_app_or in Hin. destruct Hin as [Hin|[<-|[]]]; [|exact Hnd].
        rewrite delete_duplicates_keep_first.
        apply keep_first_NoDup_map. exact (Hc c Hin). }
      split; [repeat split|].
      intros c Hin. cbn [st_unique] in Hin. apply in_app_or in Hin.
      destruct Hin as [Hin|[<-|[]]]; [left; exact Hin | right; reflexivity].
Qed.

Lemma bind_s_run {A B} (m : MS A) (k : A -> MS B) (st st' : Store) (a : A) :
  m st = Some (a, st') -> bind_s m k st = k a st'.
Proof. intros H. unfold bind_s. rewrite H. reflexivity. Qed.

(** X16. From a store whose unique constraints are on the ticker and
    hold, the set-up of [main], [setup_database] and then
    [insert_tracked_items], does not raise: set-up recovers from
    duplicate tickers and the upserts find their constraint.  It leaves
    the constraint [unique_ticker], a registry with the seven items and
    distinct tickers, and the other tables as they were.  Whenever [main]
    returns, the registry and the constraints are those of set-up,
    ManualHoldings and CryptoWallets are as at the start, and the total
    is the one the aggregator computes after the pipeline has run on the
    tables that set-up left. *)
Theorem main_set_up (env : Env) (st : Store) :
  consistent st -> ticker_constraints st ->
  exists st1,
    (setup_database ;;; insert_tracked_items) st = Some (tt, st1) /\
    constraint_exists "unique_ticker" st1 = true /\
    (forall it, In it items -> In it (registry st1)) /\
    NoDup (map tr_Ticker (registry st1)) /\
    only_registry (st_world st) (st_world st1) /\
    forall total st',
      main env st = Some (total, st') ->
      st_unique st' = st_unique st1 /\
      registry st' = registry st1 /\
      ManualHoldings (st_world st') = ManualHoldings (st_world st) /\
      CryptoWallets (st_world st') = CryptoWallets (st_world st) /\
      exists w1,
        update_holdings_and_rates env (st_world st1) = Some (tt, w1) /\
        calculate_total_usd_value w1 = Some (total, st_world st').
Proof.
  intros Hc Ht.
  (* setup_database *)
  set (s0 := {| st_world := emit (EvLog INFO) (emit (EvLog INFO)
                              (emit (EvLog INFO) (st_world st)));
                st_unique := st_unique st |}).
  assert (Hc0 : consistent s0) by exact Hc.
  destruct (ensure_unique_constraint_run ColTicker s0 Hc0)
    as (s1 & Hens & Hex & Hc1 & Ho1 & Hu1).
  assert (Hsetup : setup_database st = Some (tt, s1)).
  { unfold setup_database, bind_s, create_table. exact Hens. }
  assert (Ht1 : ticker_constraints s1).
  { intros c Hin. destruct (Hu1 c Hin) as [H|H]; [exact (Ht c H) | exact H]. }
  assert (Hne1 : st_unique s1 <> []).
  { intros E. unfold constraint_exists in Hex. rewrite E in Hex. discriminate Hex. }
  (* insert_tracked_items *)
  pose proof (insert_tracked_items_run s1 Hc1 Ht1 Hne1) as Hins.
  set (s2 := {| st_world := emit (EvLog INFO)
                              (set_registry (upserted_all items (registry s1))
                                            (st_world s1));
                st_unique := st_unique s1 |}) in Hins.
  assert (HIn : forall it, In it items -> In it (registry s2)).
  { intros it Hit. apply (upserted_all_In items _ it items_tickers_NoDup).
    left. exact Hit. }
  assert (Hnd : NoDup (map tr_Ticker (registry s2))).
  { apply upserted_all_NoDup. exact (ticker_NoDup s1 Hc1 Ht1 Hne1). }
  destruct Ho1 as (Hm1 & Hr1 & Ha1 & Hw1 & Hk1).
  exists s2.
  split.
  { rewrite (bind_s_run _ _ _ _ _ Hsetup). exact Hins. }
  split; [exact Hex|]. split; [exact HIn|]. split; [exact Hnd|].
  split; [repeat split; assumption|].
  (* the pipeline and the aggregator *)
  intros total st' Hmain. unfold main in Hmain.
  rewrite (bind_s_run _ _ _ _ _ Hsetup) in Hmain. cbv beta in Hmain.
  rewrite (bind_s_run _ _ _ _ _ Hins) in Hmain. cbv beta in Hmain.
  unfold bind_s, on_world in Hmain.
  destruct (update_holdings_and_rates env (st_world s2)) as [[[] w3]|] eqn:Hupd;
    [|discriminate Hmain].
  cbn [st_world st_unique] in Hmain.
  destruct (calculate_total_usd_value w3) as [[t w4]|] eqn:Hcalc;
    [|discriminate Hmain].
  unfold ret_s in Hmain. injection Hmain as <- <-.
  pose proof (calculate_total_usd_value_eq w3) as Heq. cbv zeta in Heq.
  rewrite Hcalc in Heq.
  assert (Hsame : same_store w3 w4).
  { destruct (sum_total_usd w3) as [s|]; [destruct (truthy s)|];
      injection Heq as _ ->; repeat split. }
  destruct Hsame as (Hm4 & Hr4 & _ & _ & Hw4 & _).
  destruct (update_holdings_and_rates_run env (st_world s2))
    as (x3 & evs & Hupd' & _ & _ & _ & _ & _ & Hm3 & Hr3 & Hw3).
  rewrite Hupd in Hupd'. injection Hupd' as <-.
  split; [reflexivity|].
  unfold registry. cbn [st_world].
  split; [rewrite Hr4, Hr3; reflexivity|].
  split; [rewrite Hm4, Hm3; exact Hm1|].
  split; [rewrite Hw4, Hw3; exact Hw1|].
  exists w3. split; [reflexivity | exact Hcalc].
Qed.

(** ** Responses before typing *)

Section JsonFacts.

Variable parse_decimal : string -> option decimal.

Lemma price_info_fields (p : price_info) (default : json) :
  py_get (json_of_price_info p) "total_price" default
  = Some (match pi_total_price p with
          | Some d => JFloat (Float d)
          | None => default
          end).
Proof. destruct p as [[d|]]; reflexivity. Qed.

Lemma token_info_fields (t : token_info) (default : json) :
  py_get (json_of_token_info t) "symbol" default
  = Some (match ti_symbol t with Some s => JStr s | None => default end) /\
  py_get (json_of_token_info t) "balance" default
  = Some (match ti_balance t with Some n => JInt n | None => default end) /\
  py_get (json_of_token_info t) "decimals" default
  = Some (match ti_decimals t with
          | Some n => JInt (Z.of_nat n)
          | None => default
          end) /\
  py_get (json_of_token_info t) "price_info" default
  = Some (match ti_price_info t with
          | Some p => json_of_price_info p
          | None => default
          end).
Proof.
  destruct t as [[s|] [b|] [d|] [p|]]; repeat split; reflexivity.
Qed.

Lemma token_fields (tk : token) (default : json) :
  py_get (json_of_token tk) "token_info" default
  = Some (match tok_token_info tk with
          | Some t => json_of_token_info t
          | None => default
          end).
Proof. destruct tk as [[t|]]; reflexivity. Qed.

Lemma result_fields (r : rpc_result) (default : json) :
  py_get (json_of_result r) "items" default
  = Some (match res_items r with
          | Some l => JList (map json_of_token l)
          | None => default
          end) /\
  py_get (json_of_result r) "nativeBalance" default
  = Some (match res_nativeBalance r with
          | Some nb => json_of_native_balance nb
          | None => default
          end).
Proof. destruct r as [[l|] [nb|]]; split; reflexivity. Qed.

Lemma native_balance_fields (nb : native_balance) (default : json) :
  py_get (json_of_native_balance nb) "lamports" default
  = Some (match nb_lamports nb with Some n => JInt n | None => default end).
Proof. destruct nb as [[n|]]; reflexivity. Qed.

Lemma empty_object_fields (key : string) (default : json) :
  py_get (JObj []) key default = Some default.
Proof. reflexivity. Qed.

(** What the test [result and "result" in result] finds in a typed
    response. *)
Lemma response_result (result : option response) :
  match has_result result with
  | Some res =>
      py_and_in (json_of result) "result" = Some true /\
      py_item (json_of result) "result" = Some (json_of_result res)
  | None => py_and_in (json_of result) "result" = Some false
  end.
Proof. destruct result as [[[res|]]|]; cbn; auto. Qed.

Lemma raw_asset_of_token_typed (tk : token) :
  raw_asset_of_token parse_decimal (json_of_token tk)
  = option_map raw_of_asset (asset_of_token tk).
Proof.
  unfold raw_asset_of_token, asset_of_token. cbv zeta.
  rewrite token_fields. cbn [obind].
  set (ti := match tok_token_info tk with
             | Some t => json_of_token_info t
             | None => JObj []
             end).
  assert (Hti : forall key default,
             py_get ti key default
             = py_get (json_of_token_info (get (tok_token_info tk) no_token_info))
                      key default).
  { intros key default. unfold ti. destruct (tok_token_info tk); reflexivity. }
  rewrite !Hti.
  destruct (token_info_fields (get (tok_token_info tk) no_token_info) (JObj []))
    as (_ & _ & _ & ->).
  destruct (token_info_fields (get (tok_token_info tk) no_token_info) (JStr "N/A"))
    as (-> & _).
  destruct (token_info_fields (get (tok_token_info tk) no_token_info) (JInt 0))
    as (_ & -> & -> & _).
  cbn [obind].
  set (t := get (tok_token_info tk) no_token_info).
  set (pi := match ti_price_info t with
             | Some p => json_of_price_info p
             | None => JObj []
             end).
  assert (Hpi : py_get pi "total_price" (JInt 0)
                = py_get (json_of_price_info (get (ti_price_info t) no_price_info))
                         "total_price" (JInt 0)).
  { unfold pi. destruct (ti_price_info t); reflexivity. }
  rewrite Hpi, price_info_fields. cbn [obind].
  assert (Hb : decimal_of_str parse_decimal
                 (match ti_balance t with Some n => JInt n | None => JInt 0 end)
               = Some (Finite (Dec.of_Z (get (ti_balance t) 0)))).
  { destruct (ti_balance t); reflexivity. }
  rewrite Hb. cbn [obind].
  assert (Ht : decimal_of_str parse_decimal
                 (match pi_total_price (get (ti_price_info t) no_price_info) with
                  | Some d => JFloat (Float d)
                  | None => JInt 0
                  end)
               = Some (Finite (get (pi_total_price (get (ti_price_info t)
                                                        no_price_info))
                                   (Dec.of_Z 0)))).
  { destruct (pi_total_price (get (ti_price_info t) no_price_info)); reflexivity. }
  rewrite Ht. cbn [obind].
  assert (Hd : forall x,
             div_by_power x (match ti_decimals t with
                             | Some n => JInt (Z.of_nat n)
                             | None => JInt 0
                             end)
             = div_by x (Dec.of_Z (10 ^ Z.of_nat (get (ti_decimals t) 0%nat)))).
  { intros x. destruct (ti_decimals t) as [n|]; [|reflexivity].
    unfold div_by_power. cbn [get].
    replace (0 <=? Z.of_nat n) with true; [reflexivity|].
    symmetry. apply Z.leb_le. apply Nat2Z.is_nonneg. }
  rewrite Hd. cbn [div_by].
  destruct (Dec.div _ _) as [b|]; [|reflexivity].
  cbn [obind option_map]. unfold raw_of_asset. cbn [symbol balance total_price].
  destruct (ti_symbol t); reflexivity.
Qed.

Lemma raw_assets_of_tokens_typed (tokens : list token) :
  raw_assets_of_tokens parse_decimal (map json_of_token tokens)
  = option_map (map raw_of_asset) (assets_of_tokens tokens).
Proof.
  induction tokens as [|tk rest IH]; [reflexivity|].
  cbn [map raw_assets_of_tokens assets_of_tokens].
  rewrite raw_asset_of_token_typed, IH.
  destruct (asset_of_token tk) as [a|]; [|reflexivity].
  destruct (assets_of_tokens rest); reflexivity.
Qed.

Lemma get_other_assets_typed (result : option response) :
  get_other_assets_json parse_decimal (json_of result)
  = option_map (map raw_of_asset) (get_other_assets result).
Proof.
  unfold get_other_assets_json, get_other_assets.
  pose proof (response_result result) as H.
  destruct (has_result result) as [res|].
  - destruct H as [-> ->]. cbn [obind].
    destruct (result_fields res (JList [])) as [-> _]. cbn [obind].
    destruct (res_items res) as [l|]; cbn [py_iter obind get].
    + apply raw_assets_of_tokens_typed.
    + reflexivity.
  - rewrite H. reflexivity.
Qed.

Lemma get_native_sol_balance_typed (result : option response) (w : World) :
  get_native_sol_balance_json parse_decimal (json_of result) w
  = match get_native_sol_balance result w with
    | Some (n, w') => Some (option_map raw_of_asset n, w')
    | None => None
    end.
Proof.
  unfold get_native_sol_balance_json, get_native_sol_balance.
  pose proof (response_result result) as H.
  destruct (has_result result) as [res|].
  - destruct H as [H1 H2]. unfold bind at 1. rewrite H1. cbn [lift ret].
    unfold bind at 1. rewrite H2. cbn [lift ret].
    destruct (result_fields res (JObj [])) as [_ Hnb].
    unfold bind at 1. rewrite Hnb. cbn [lift ret].
    assert (Hl : py_get (match res_nativeBalance res with
                         | Some nb => json_of_native_balance nb
                         | None => JObj []
                         end) "lamports" (JInt 0)
                 = Some (JInt (get (nb_lamports (get (res_nativeBalance res)
                                                     no_native_balance)) 0))).
    { destruct (res_nativeBalance res) as [nb|]; [|reflexivity].
      rewrite native_balance_fields. cbn [get].
      destruct (nb_lamports nb); reflexivity. }
    unfold bind at 1. rewrite Hl. cbn [lift ret decimal_of_str].
    unfold bind. cbn [lift ret].
    destruct (get_sol_price w) as [[sol_price w1]|]; [|reflexivity].
    cbn [div_by].
    destruct (Dec.div _ Dec.e9) as [b|]; reflexivity.
  - unfold bind. rewrite H. reflexivity.
Qed.

Lemma filter_above_typed (l : list asset) :
  filter_above (map raw_of_asset l)
  = Some (map raw_of_asset
              (filter (fun a => Dec.gtb (total_price a) (Dec.of_Z 10)) l)).
Proof.
  induction l as [|a rest IH]; [reflexivity|].
  cbn [map filter_above filter]. rewrite IH.
  cbn [raw_of_asset raw_total_price gt_ten obind].
  destruct (Dec.gtb (total_price a) (Dec.of_Z 10)); reflexivity.
Qed.

(** X17. On the JSON of a typed response (every key may be missing, a
    key that is present holds a value of the documented kind) the
    functions of lines 290-321 read over arbitrary JSON agree with their
    typed versions: they raise on none of them and build the same
    assets, and the dust filter keeps the same ones. *)
Theorem typed_responses_refine (result : option response) (w : World)
    (native_sol : option asset) (other_assets : list asset) :
  get_native_sol_balance_json parse_decimal (json_of result) w
  = match get_native_sol_balance result w with
    | Some (n, w') => Some (option_map raw_of_asset n, w')
    | None => None
    end /\
  get_other_assets_json parse_decimal (json_of result)
  = option_map (map raw_of_asset) (get_other_assets result) /\
  combine_and_filter_assets_json (option_map raw_of_asset native_sol)
                                 (map raw_of_asset other_assets)
  = Some (map raw_of_asset (combine_and_filter_assets native_sol other_assets)).
Proof.
  split; [apply get_native_sol_balance_typed|].
  split; [apply get_other_assets_typed|].
  unfold combine_and_filter_assets_json, combine_and_filter_assets.
  destruct native_sol as [n|]; cbn [option_map].
  - exact (filter_above_typed (n :: other_assets)).
  - apply filter_above_typed.
Qed.

End JsonFacts.

Lemma filter_above_spec (l : list raw_asset) :
  (filter_above l = None <->
   exists a s, In a l /\ raw_total_price a = NaN s) /\
  (forall kept,
      filter_above l = Some kept ->
      kept = filter (fun a => match raw_total_price a with
                              | Finite x => negb (Qle_bool (Dec.val x) 10)
                              | Infinity negative => negb negative
                              | NaN _ => false
                              end) l).
Proof.
  induction l as [|a rest [IHn IHs]].
  - split.
    + split; [discriminate | intros (a & s & [] & _)].
    + intros kept [= <-]. reflexivity.
  - cbn [filter_above filter].
    destruct (raw_total_price a) as [x|negative|s] eqn:Et; cbn [gt_ten obind].
    + destruct (filter_above rest) as [tail|] eqn:Er; cbn [obind].
      * split.
        -- split; [discriminate|].
           intros (a' & s & [<-|Hin] & E); [congruence|].
           assert (H : Some tail = None) by (apply IHn; eauto).
           discriminate H.
        -- intros kept [= <-]. rewrite (IHs tail eq_refl), gtb_10.
           destruct (Qle_bool (Dec.val x) 10); reflexivity.
      * split; [|discriminate].
        split; [|reflexivity]. intros _.
        destruct (proj1 IHn eq_refl) as (a' & s & Hin & E).
        exists a', s. split; [right; exact Hin | exact E].
    + destruct (filter_above rest) as [tail|] eqn:Er; cbn [obind].
      * split.
        -- split; [discriminate|].
           intros (a' & s & [<-|Hin] & E); [congruence|].
           assert (H : Some tail = None) by (apply IHn; eauto).
           discriminate H.
        -- intros kept [= <-]. rewrite (IHs tail eq_refl).
           destruct negative; reflexivity.
      * split; [|discriminate].
        split; [|reflexivity]. intros _.
        destruct (proj1 IHn eq_refl) as (a' & s' & Hin & E).
        exists a', s'. split; [right; exact Hin | exact E].
    + split; [|discriminate].
      split; [|reflexivity]. intros _.
      exists a, s. split; [left; reflexivity | exact Et].
Qed.

(** X18. The dust filter raises exactly when the total of the native
    entry or of a fungible asset is a NaN, which an ordering comparison
    does not accept.  Otherwise it keeps, in order, the assets whose
    total is greater than 10, a total of plus infinity included. *)
Theorem dust_filter_raises_on_nan (native_sol : option raw_asset)
    (other_assets : list raw_asset) :
  let all_assets :=
    match native_sol with
    | Some n => n :: other_assets
    | None => other_assets
    end in
  (combine_and_filter_assets_json native_sol other_assets = None <->
   exists a s, In a all_assets /\ raw_total_price a = NaN s) /\
  (forall kept,
      combine_and_filter_assets_json native_sol other_assets = Some kept ->
      kept = filter (fun a => match raw_total_price a with
                              | Finite x => negb (Qle_bool (Dec.val x) 10)
                              | Infinity negative => negb negative
                              | NaN _ => false
                              end) all_assets).
Proof.
  cbv zeta. unfold combine_and_filter_assets_json.
  destruct native_sol as [n|]; apply filter_above_spec.
Qed.



(** ** The sample run *)

Import Sample.

Example sample_other_assets :
  get_other_assets (Some search_response) = Some [usdc; dust; ten; odd].
Proof. vm_compute. reflexivity. Qed.

Lemma get_latest_price_first_window_witness :
  exists w' evs,
    get_latest_price env "ERIC-B.ST" world = Some (Some (d 621 (-1)), w') /\
    log w' = evs /\
    history_calls evs = [EvHistory "ERIC-B.ST" "1d"; EvHistory "ERIC-B.ST" "5d"].
Proof.
  destruct (get_latest_price_first_window env "ERIC-B.ST" world)
    as (_ & r & w' & evs & Hrun & _ & Hlog & Hsome & _ & Hcalls & _).
  assert (Hf : Forall (window_fails env "ERIC-B.ST") ["1d"]).
  { constructor; [left; reflexivity | constructor]. }
  assert (Hy : window_yields env "ERIC-B.ST" "5d" (d 621 (-1))).
  { exists [d 621 (-1)]. split; reflexivity. }
  assert (Hr : r = Some (d 621 (-1))).
  { apply Hsome. exists ["1d"], "5d", []. repeat split; assumption. }
  exists w', evs. rewrite <- Hr. split; [exact Hrun|]. split; [exact Hlog|].
  exact (Hcalls ["1d"] "5d" [] (d 621 (-1)) eq_refl Hf Hy).
Defined.


Lemma run_shares_one_timestamp_witness :
  exists w',
    update_holdings_and_rates env world = Some (tt, w') /\
    clock_reads w' = 1%nat /\
    Forall (fun v => Timestamp v = 1700000000) (AssetsHistoricalValues w') /\
    Forall (fun r => r_Timestamp r = 1700000000) (HistoricalRates w').
Proof.
  destruct (run_shares_one_timestamp env world)
    as (w' & evs & Hrun & _ & _ & Hc & manual & wallets & rates & Ha & Hr & Fm & Fw & Fr).
  exists w'. split; [exact Hrun|]. split; [exact Hc|].
  rewrite Ha, Hr. simpl. split; [|exact Fr].
  apply Forall_app. split; assumption.
Defined.

Lemma manual_holding_valuation_witness :
  exists w' rows v,
    update_holdings_and_rates env world = Some (tt, w') /\
    AssetsHistoricalValues w' = rows /\ In v rows /\
    Ticker v = "ERIC-B.ST" /\
    NativePrice v = d 621 (-1) /\
    USDPrice v = d 58995 (-4) /\
    TotalNative v = d 62100 (-1) /\
    TotalUSD v = d 5899500 (-4) /\
    (Dec.val (TotalUSD v) == 100 * (621 # 10) * (95 # 1000))%Q.
Proof.
  destruct (manual_holding_valuation env world eric (d 621 (-1)) (d 95 (-3)))
    as (w' & rows & v & Hrun & Ha & Hin & _ & _ & _ & _ & Ht & _ & Hp & Hu & Hn & _ & Hx & Hv).
  - simpl. auto.
  - eexists. vm_compute. reflexivity.
  - right. split; [discriminate|]. eexists. vm_compute. reflexivity.
  - exists w', rows, v.
    split; [exact Hrun|]. split; [exact Ha|]. split; [exact Hin|].
    split; [exact Ht|]. split; [exact Hp|]. split; [exact Hu|]. split; [exact Hn|].
    split; [exact Hx|].
    apply Hv; vm_compute; reflexivity.
Defined.


Lemma dust_filter_witness :
  combine_and_filter_assets (Some native) [usdc; dust; ten; odd] = [native; usdc; odd] /\
  ~ In ten (combine_and_filter_assets (Some native) [usdc; dust; ten; odd]) /\
  In odd (combine_and_filter_assets (Some native) [usdc; dust; ten; odd]).
Proof.
  destruct (dust_filter (Some native) [usdc; dust; ten; odd]) as [E H].
  split; [rewrite E; reflexivity|]. split.
  - destruct (H ten) as (_ & _ & Hten). apply Hten. vm_compute. reflexivity.
  - destruct (H odd) as (Hodd & _). apply Hodd.
    split; [simpl; auto 10 | vm_compute; reflexivity].
Defined.


Lemma zero_balance_is_recorded_witness :
  exists w' v,
    process_solana_wallet_holdings env "Wallet1" "main" 1700000000 world
    = Some (tt, w') /\
    In v (AssetsHistoricalValues w') /\
    AssetName v = "ODD" /\ Amount v = d 0 0 /\
    NativePrice v = Dec.zero /\ USDPrice v = Dec.zero /\
    TotalNative v = d 12 0 /\ TotalUSD v = d 12 0.
Proof.
  destruct (zero_balance_is_recorded env "Wallet1" "main" 1700000000 world)
    as (w' & rows & Hrun & Ha & _ & Hz).
  destruct (Hz odd) as (_ & v & Hin & _ & H1 & H2 & H3 & H4 & H5 & H6).
  - vm_compute. auto.
  - reflexivity.
  - exists w', v. split; [exact Hrun|]. rewrite Ha. simpl.
    repeat split; assumption.
Defined.


Lemma calculate_total_usd_value_spec_witness :
  exists t w',
    calculate_total_usd_value snapshot_world = Some (t, w') /\
    (Dec.val t == 150)%Q.
Proof.
  destruct (calculate_total_usd_value_spec snapshot_world)
    as (t & w' & Hrun & _ & _ & Hsum).
  exists t, w'. split; [exact Hrun|].
  rewrite (Hsum 2).
  - vm_compute. reflexivity.
  - split.
    + exists (row (d 495 (-1)) 2). split; [simpl; auto | reflexivity].
    + intros v Hin. simpl in Hin.
      repeat (destruct Hin as [<-|Hin]; [simpl; lia|]). destruct Hin.
Defined.

(** C1, the grouping of the product.  The USD total of a row is
    [amount * (price * rate)] with both products rounded to 28 digits.
    For 5 shares at 189.8699951171875 euros and 1.0834200382232666
    dollars to the euro it is neither [(amount * price) * rate], which is
    what [amount * price * rate] denotes, nor the product of the three
    numbers. *)
Lemma usd_total_grouping :
  let amount := h_Amount sap in
  let price := d 1898699951171875 (-13) in
  let rate := d 10834200382232666 (-16) in
  In sap (ManualHoldings euro_world) /\
  (exists w1, get_latest_price env (h_Ticker sap) euro_world = Some (Some price, w1)) /\
  (exists w1, get_usd_exchange_rate env (h_NativeCurrency sap) euro_world
              = Some (Some rate, w1)) /\
  exists w' v rest,
    update_holdings_and_rates env euro_world = Some (tt, w') /\
    AssetsHistoricalValues w' = v :: rest /\
    Ticker v = h_Ticker sap /\
    TotalUSD v = Dec.mul amount (Dec.mul price rate) /\
    TotalUSD v = d 1028544786836573619774780274 (-24) /\
    Dec.mul (Dec.mul amount price) rate = d 1028544786836573619774780273 (-24) /\
    TotalUSD v <> Dec.mul (Dec.mul amount price) rate /\
    ~ (Dec.val (TotalUSD v) == Dec.val amount * Dec.val price * Dec.val rate)%Q.
Proof.
  cbv zeta.
  split; [simpl; auto|].
  split; [eexists; vm_compute; reflexivity|].
  split; [eexists; vm_compute; reflexivity|].
  eexists. eexists. eexists.
  split; [vm_compute; reflexivity|].
  split; [reflexivity|].
  split; [reflexivity|].
  split; [vm_compute; reflexivity|].
  split; [vm_compute; reflexivity|].
  split; [vm_compute; reflexivity|].
  split.
  - vm_compute. discriminate.
  - intros H. vm_compute in H. discriminate H.
Qed.

(** *** Further properties on the sample *)

Lemma token_balance_exact_witness :
  exists a,
    asset_of_token (tok "USDC" (Some 50000000) (Some 6%nat) (Some (d 500 (-1))))
    = Some a /\
    (Dec.val (balance a) == inject_Z 50000000 / inject_Z (10 ^ Z.of_nat 6))%Q.
Proof.
  apply (token_balance_exact
           (tok "USDC" (Some 50000000) (Some 6%nat) (Some (d 500 (-1))))
           50000000 6 eq_refl eq_refl).
  vm_compute. reflexivity.
Defined.

Lemma unpriced_token_is_dropped_witness :
  total_price Cases.unpriced_asset = Dec.of_Z 0 /\
  ~ In Cases.unpriced_asset
       (combine_and_filter_assets (Some native) [usdc; Cases.unpriced_asset]).
Proof.
  apply (unpriced_token_is_dropped Cases.unpriced Cases.unpriced_asset
           (Some native) [usdc; Cases.unpriced_asset]).
  - vm_compute. reflexivity.
  - reflexivity.
Defined.

Lemma run_is_append_only_witness :
  ManualHoldings Cases.second_run = ManualHoldings snapshot_world /\
  TrackedCurrenciesIndexes Cases.second_run = TrackedCurrenciesIndexes snapshot_world /\
  CryptoWallets Cases.second_run = CryptoWallets snapshot_world /\
  firstn (List.length (AssetsHistoricalValues snapshot_world))
         (AssetsHistoricalValues Cases.second_run)
  = AssetsHistoricalValues snapshot_world /\
  firstn (List.length (HistoricalRates snapshot_world))
         (HistoricalRates Cases.second_run)
  = HistoricalRates snapshot_world.
Proof.
  apply (run_is_append_only env snapshot_world Cases.second_run).
  vm_compute. reflexivity.
Defined.

Lemma native_balance_uses_fresh_quote_witness :
  exists w' v,
    update_holdings_and_rates env rated_world = Some (tt, w') /\
    In v (AssetsHistoricalValues w') /\
    AccountWallet v = "Wallet1" /\ AssetName v = "SOL" /\
    Amount v = d 1500000000 (-9) /\
    TotalUSD v = Dec.mul (d 1500000000 (-9)) (d 200 (-1)) /\
    Timestamp v = clock env (clock_reads rated_world).
Proof.
  apply (native_balance_uses_fresh_quote env rated_world (d 200 (-1))
           (d 1500000000 (-9)) "Wallet1" "main"
           {| res_items := None;
              res_nativeBalance := Some {| nb_lamports := Some 1500000000 |} |}).
  - simpl. auto 10.
  - eexists. vm_compute. reflexivity.
  - intros r Hin _. simpl in Hin.
    repeat (destruct Hin as [<-|Hin]; [vm_compute; reflexivity|]). destruct Hin.
  - simpl. auto.
  - reflexivity.
  - vm_compute. reflexivity.
  - vm_compute. reflexivity.
Defined.

Lemma total_after_run_witness :
  exists t w'',
    calculate_total_usd_value Cases.second_run = Some (t, w'') /\
    (Dec.val t
     == Qsum (map (fun v => Dec.val (TotalUSD v))
                  (skipn 4 (AssetsHistoricalValues Cases.second_run))))%Q.
Proof.
  apply (total_after_run env snapshot_world Cases.second_run
           (skipn 4 (AssetsHistoricalValues Cases.second_run))).
  - vm_compute. reflexivity.
  - vm_compute. reflexivity.
  - vm_compute. discriminate.
  - intros v Hin. simpl in Hin.
    repeat (destruct Hin as [<-|Hin]; [vm_compute; reflexivity|]). destruct Hin.
Defined.

Lemma outage_keeps_previous_total_witness :
  exists w',
    update_holdings_and_rates Cases.outage snapshot_world = Some (tt, w') /\
    AssetsHistoricalValues w' = AssetsHistoricalValues snapshot_world /\
    HistoricalRates w' = HistoricalRates snapshot_world /\
    forall t w1,
      calculate_total_usd_value snapshot_world = Some (t, w1) ->
      exists w2, calculate_total_usd_value w' = Some (t, w2).
Proof.
  apply (outage_keeps_previous_total Cases.outage snapshot_world).
  - intros ticker period. left. reflexivity.
  - intros m wallet_address. reflexivity.
Defined.

Lemma zero_total_is_reported_as_missing_witness :
  calculate_total_usd_value Cases.cancelling
  = Some (Dec.zero,
          emit (EvLog WARNING) (emit (EvFetch QTotalUSD) Cases.cancelling)).
Proof.
  apply (zero_total_is_reported_as_missing Cases.cancelling 3).
  - split.
    + exists (row (d 5 0) 3). split; [simpl; auto | reflexivity].
    + intros v Hin. simpl in Hin.
      repeat (destruct Hin as [<-|Hin]; [simpl; lia|]). destruct Hin.
  - vm_compute. reflexivity.
Defined.

Lemma ensure_unique_constraint_spec_witness :
  exists st',
    ensure_unique_constraint ColTicker Cases.duplicates = Some (tt, st') /\
    constraint_exists "unique_ticker" st' = true /\
    registry st' = [Cases.old_sol; Cases.bitcoin].
Proof.
  assert (Hc : consistent Cases.duplicates).
  { intros c Hin. simpl in Hin. destruct Hin as [<-|[]].
    apply nodupb_NoDup. reflexivity. }
  destruct (ensure_unique_constraint_spec ColTicker Cases.duplicates Hc)
    as (st' & Hrun & Hex & _ & _ & _ & Hnew).
  exists st'. split; [exact Hrun|]. split; [exact Hex|].
  destruct (Hnew eq_refl) as (_ & Hr & _). rewrite Hr. reflexivity.
Defined.

Lemma upsert_data_spec_witness :
  upsert_data Cases.misnamed ColTicker Cases.named = None /\
  exists st',
    upsert_data Cases.new_sol ColTicker Cases.named = Some (tt, st') /\
    In Cases.new_sol (registry st') /\
    ~ In Cases.old_sol (registry st') /\
    In Cases.bitcoin (registry st').
Proof.
  assert (Hc : consistent Cases.named).
  { intros c Hin. simpl in Hin. destruct Hin as [<-|[<-|[]]];
      apply nodupb_NoDup; reflexivity. }
  assert (Hex : exists c, In c (st_unique Cases.named) /\ snd c = ColTicker).
  { eexists. split; [left; reflexivity | reflexivity]. }
  split.
  - apply (proj1 (upsert_data_spec Cases.misnamed Cases.named Hc Hex)).
    exists ("unique_indexname", ColIndexName), Cases.bitcoin.
    split; [right; left; reflexivity|]. split; [right; left; reflexivity|].
    split; [discriminate | reflexivity].
  - destruct (proj2 (proj2 (upsert_data_spec Cases.new_sol Cases.named Hc Hex)))
      as (st' & Hrun & _ & _ & _ & HIn & _ & Hone & _).
    { intros (c & r & Hin & Hr & Hne & Heq). simpl in Hin, Hr.
      destruct Hin as [<-|[<-|[]]]; destruct Hr as [<-|[<-|[]]];
        simpl in Hne, Heq; try discriminate Heq; apply Hne; reflexivity. }
    exists st'. split; [exact Hrun|]. split; [|split].
    + apply HIn. left. reflexivity.
    + intros Hin. specialize (Hone _ Hin eq_refl). discriminate Hone.
    + apply HIn. right. split; [simpl; auto | discriminate].
Defined.

Lemma insert_tracked_items_spec_witness :
  exists st',
    insert_tracked_items Cases.keyed = Some (tt, st') /\
    (forall r, In r (registry st') <-> In r items) /\
    NoDup (map tr_Ticker (registry st')).
Proof.
  destruct (insert_tracked_items_spec Cases.keyed)
    as (st' & Hrun & _ & _ & _ & HIn & Hnd & _).
  - intros c Hin. simpl in Hin. destruct Hin as [<-|[]].
    apply nodupb_NoDup. reflexivity.
  - intros c Hin. simpl in Hin. destruct Hin as [<-|[]]. reflexivity.
  - discriminate.
  - exists st'. split; [exact Hrun|]. split; [|exact Hnd].
    intros r. rewrite (HIn r). split; [|auto].
    intros [H|[Hin Hn]]; [exact H|]. exfalso. apply Hn.
    simpl in Hin. destruct Hin as [<-|[<-|[]]]; simpl; auto 10.
Defined.

Lemma unconvertible_currency_witness :
  get_usd_exchange_rate env "NOK" world
  = Some (None, emit (EvLog WARNING)
                     (emit (EvFetch (QConversionTicker "NOK")) world)) /\
  exists w',
    value_holding env 1700000000 Cases.kroner world = Some (tt, w') /\
    AssetsHistoricalValues w' = AssetsHistoricalValues world.
Proof.
  destruct (unconvertible_currency env Cases.fresh Cases.listed world "NOK")
    as [Hrate Hrow].
  - intros c Hin. simpl in Hin. destruct Hin as [<-|[]]. constructor.
  - intros c Hin. simpl in Hin. destruct Hin as [<-|[]]. reflexivity.
  - discriminate.
  - intros r [].
  - vm_compute. reflexivity.
  - reflexivity.
  - discriminate.
  - simpl. intros H. repeat (destruct H as [H|H]; [discriminate H|]). exact H.
  - split; [exact Hrate|].
    apply (Hrow 1700000000 Cases.kroner); [reflexivity | discriminate].
Defined.

Lemma main_set_up_witness :
  exists st1,
    (setup_database ;;; insert_tracked_items) Cases.keyed = Some (tt, st1) /\
    constraint_exists "unique_ticker" st1 = true /\
    (forall it, In it items -> In it (registry st1)) /\
    NoDup (map tr_Ticker (registry st1)) /\
    exists total st',
      main env Cases.keyed = Some (total, st') /\
      registry st' = registry st1 /\
      ManualHoldings (st_world st') = ManualHoldings world.
Proof.
  destruct (main_set_up env Cases.keyed)
    as (st1 & Hrun & Hex & HIn & Hnd & _ & Hmain).
  - intros c Hin. simpl in Hin. destruct Hin as [<-|[]].
    apply nodupb_NoDup. reflexivity.
  - intros c Hin. simpl in Hin. destruct Hin as [<-|[]]. reflexivity.
  - exists st1. split; [exact Hrun|]. split; [exact Hex|].
    split; [exact HIn|]. split; [exact Hnd|].
    assert (E : exists total st', main env Cases.keyed = Some (total, st')).
    { eexists. eexists. vm_compute. reflexivity. }
    destruct E as (total & st' & E). exists total, st'.
    destruct (Hmain total st' E) as (_ & Hr & Hm & _).
    split; [exact E|]. split; [exact Hr | exact Hm].
Defined.
